(** * Bulk upload propagator (src/libsync/bulkpropagatorjob.cpp)

    A shallow embedding of [OCC::BulkPropagatorJob]: the per-item upload
    pipeline, the bulk PUT reply handling, the finalizer and the completion
    path, as state-passing functions over the propagator's state.  Calls into
    collaborators that live outside the file (journal, VFS, file system,
    account capabilities, helper functions of the propagator) are either part
    of the explicit state or fields of the [Host] record. *)

From Stdlib Require Import ZArith String Ascii List Bool Lia.
From stdpp Require Import base option list gmap strings pretty.

Local Open Scope string_scope.
Local Open Scope Z_scope.
Local Open Scope list_scope.

(** ** Data model *)

(** [SyncFileItem::Status]. *)
Inductive Status : Type :=
  | NoStatus | FatalError | NormalError | SoftError | Success | Conflict
  | FileIgnored | FileLocked | Restoration | DetailError | BlacklistedError
  | FileNameInvalid.

#[export] Instance Status_eq_dec : EqDecision Status.
Proof. solve_decision. Defined.

(** The [SyncInstructions] values the job looks at, and two it does not. *)
Inductive Instruction : Type :=
  | CSYNC_INSTRUCTION_NONE | CSYNC_INSTRUCTION_NEW | CSYNC_INSTRUCTION_SYNC
  | CSYNC_INSTRUCTION_TYPE_CHANGE | CSYNC_INSTRUCTION_UPDATE_METADATA.

#[export] Instance Instruction_eq_dec : EqDecision Instruction.
Proof. solve_decision. Defined.

(** [PinState], as far as the finalizer distinguishes it. *)
Inductive PinState : Type :=
  | Inherited | AlwaysLocal | OnlineOnly | Unspecified.

#[export] Instance PinState_eq_dec : EqDecision PinState.
Proof. solve_decision. Defined.

(** [QNetworkReply::NetworkError]: [NoError] or one of the error codes. *)
Inductive NetworkError : Type :=
  | NoError | NetError (code : Z).

#[export] Instance NetworkError_eq_dec : EqDecision NetworkError.
Proof. solve_decision. Defined.

(** Machine integers: [qint64], [int] and [quint16] values are carried in [Z]
    and re-normalised after each arithmetic operation of the source. *)
Definition wrap_signed (bits : Z) (x : Z) : Z :=
  (x + 2 ^ (bits - 1)) mod 2 ^ bits - 2 ^ (bits - 1).
Definition wrap64 : Z -> Z := wrap_signed 64.
Definition wrap32 : Z -> Z := wrap_signed 32.
Definition to_quint16 (x : Z) : Z := x mod 65536.
Definition qint64_max : Z := 2 ^ 63 - 1.
Definition in_qint64 (x : Z) : Prop := - 2 ^ 63 <= x <= qint64_max.

(** The double quote character, for the quoted etag of [If-Match]. *)
Definition dquote : string := String (ascii_of_nat 34) EmptyString.

Module SyncFileItem.
Record t : Type := mk {
  _file : string;
  _renameTarget : string;
  _originalFile : string;
  _size : Z;
  _modtime : Z;
  _etag : string;
  _fileId : string;
  _checksumHeader : string;
  _status : Status;
  _errorString : string;
  _httpErrorCode : Z;
  _instruction : Instruction;
  _hasBlacklistEntry : bool;
  _isRestoration : bool;
  _responseTimeStamp : string;
  _requestId : string
}.

Definition with_file (v : string) (i : t) : t :=
  mk v (_renameTarget i) (_originalFile i) (_size i) (_modtime i) (_etag i)
     (_fileId i) (_checksumHeader i) (_status i) (_errorString i)
     (_httpErrorCode i) (_instruction i) (_hasBlacklistEntry i)
     (_isRestoration i) (_responseTimeStamp i) (_requestId i).
Definition with_size (v : Z) (i : t) : t :=
  mk (_file i) (_renameTarget i) (_originalFile i) v (_modtime i) (_etag i)
     (_fileId i) (_checksumHeader i) (_status i) (_errorString i)
     (_httpErrorCode i) (_instruction i) (_hasBlacklistEntry i)
     (_isRestoration i) (_responseTimeStamp i) (_requestId i).
Definition with_modtime (v : Z) (i : t) : t :=
  mk (_file i) (_renameTarget i) (_originalFile i) (_size i) v (_etag i)
     (_fileId i) (_checksumHeader i) (_status i) (_errorString i)
     (_httpErrorCode i) (_instruction i) (_hasBlacklistEntry i)
     (_isRestoration i) (_responseTimeStamp i) (_requestId i).
Definition with_etag (v : string) (i : t) : t :=
  mk (_file i) (_renameTarget i) (_originalFile i) (_size i) (_modtime i) v
     (_fileId i) (_checksumHeader i) (_status i) (_errorString i)
     (_httpErrorCode i) (_instruction i) (_hasBlacklistEntry i)
     (_isRestoration i) (_responseTimeStamp i) (_requestId i).
Definition with_fileId (v : string) (i : t) : t :=
  mk (_file i) (_renameTarget i) (_originalFile i) (_size i) (_modtime i)
     (_etag i) v (_checksumHeader i) (_status i) (_errorString i)
     (_httpErrorCode i) (_instruction i) (_hasBlacklistEntry i)
     (_isRestoration i) (_responseTimeStamp i) (_requestId i).
Definition with_checksumHeader (v : string) (i : t) : t :=
  mk (_file i) (_renameTarget i) (_originalFile i) (_size i) (_modtime i)
     (_etag i) (_fileId i) v (_status i) (_errorString i)
     (_httpErrorCode i) (_instruction i) (_hasBlacklistEntry i)
     (_isRestoration i) (_responseTimeStamp i) (_requestId i).
Definition with_status (v : Status) (i : t) : t :=
  mk (_file i) (_renameTarget i) (_originalFile i) (_size i) (_modtime i)
     (_etag i) (_fileId i) (_checksumHeader i) v (_errorString i)
     (_httpErrorCode i) (_instruction i) (_hasBlacklistEntry i)
     (_isRestoration i) (_responseTimeStamp i) (_requestId i).
Definition with_errorString (v : string) (i : t) : t :=
  mk (_file i) (_renameTarget i) (_originalFile i) (_size i) (_modtime i)
     (_etag i) (_fileId i) (_checksumHeader i) (_status i) v
     (_httpErrorCode i) (_instruction i) (_hasBlacklistEntry i)
     (_isRestoration i) (_responseTimeStamp i) (_requestId i).
Definition with_httpErrorCode (v : Z) (i : t) : t :=
  mk (_file i) (_renameTarget i) (_originalFile i) (_size i) (_modtime i)
     (_etag i) (_fileId i) (_checksumHeader i) (_status i) (_errorString i)
     v (_instruction i) (_hasBlacklistEntry i)
     (_isRestoration i) (_responseTimeStamp i) (_requestId i).
Definition with_response (ts rid : string) (i : t) : t :=
  mk (_file i) (_renameTarget i) (_originalFile i) (_size i) (_modtime i)
     (_etag i) (_fileId i) (_checksumHeader i) (_status i) (_errorString i)
     (_httpErrorCode i) (_instruction i) (_hasBlacklistEntry i)
     (_isRestoration i) ts rid.
End SyncFileItem.

(** [UploadFileInfo]: the file as it is read for the body. *)
Module UploadFileInfo.
Record t : Type := mk { _file : string; _path : string; _size : Z }.
End UploadFileInfo.

(** [SyncJournalDb::UploadInfo]. *)
Module UploadInfo.
Record t : Type := mk {
  _valid : bool;
  _chunk : Z;
  _transferid : Z;
  _modtime : Z;
  _errorCount : Z;
  _contentChecksum : string;
  _size : Z
}.

(** Modelled from the spec: the default-constructed record
    [SyncJournalDb::UploadInfo()] (its declaration is in syncjournaldb.h),
    the value the spec calls a cleared [UploadInfo]: not valid, every
    counter zero, no checksum. *)
Definition empty : t := mk false 0 0 0 0 EmptyString 0.

Definition with_errorCount (v : Z) (u : t) : t :=
  mk (_valid u) (_chunk u) (_transferid u) (_modtime u) v
     (_contentChecksum u) (_size u).
End UploadInfo.

(** [SyncJournalDb::PollInfo]. *)
Record PollInfo : Type := mkPollInfo {
  poll_file : string; poll_url : string; poll_modtime : Z; poll_fileSize : Z
}.

(** [ConflictRecord], the fields the header assembler reads. *)
Record ConflictRecord : Type := mkConflictRecord {
  initialBasePath : string;
  baseFileId : string;
  baseModtime : Z;
  baseEtag : string
}.

(** [UploadFileParameters]: one entry of the pending batch.  The source holds
    the item by shared pointer and the job reaches the item of an entry
    through the entry only; here the entry holds the item, and every function
    that changes the item through the pointer stores the changed item back
    into the entry. *)
Record UploadFileParameters : Type := mkParams {
  _item : SyncFileItem.t;
  _fileToUpload : UploadFileInfo.t;
  _remotePath : string;
  _localPath : string;
  _fileSize : Z;
  _headers : gmap string string
}.

Definition with_item (i : SyncFileItem.t) (p : UploadFileParameters) :=
  mkParams i (_fileToUpload p) (_remotePath p) (_localPath p) (_fileSize p)
           (_headers p).
Definition with_headers (h : gmap string string) (p : UploadFileParameters) :=
  mkParams (_item p) (_fileToUpload p) (_remotePath p) (_localPath p)
           (_fileSize p) h.


(** A local file as the job sees it: modification time in seconds and size. *)
Record FileMeta : Type := mkFileMeta { mtime : Z; fsize : Z }.

(** A value of a JSON object of the reply: a string, or anything else
    (for which [QJsonValue::toString] gives the empty string). *)
Inductive JsonValue : Type :=
  | JString (s : string) | JOther.

(** What the finished [PutMultiFileJob] exposes to [slotPutFinished]. *)
Record PutReply : Type := mkPutReply {
  httpStatusCode : Z;
  networkError : NetworkError;
  responseTimestamp : string;
  requestId : string;
  errorStringParsingBody : string;
  replyContent : string;
  replyArray : list (gmap string JsonValue)
}.

(** [Vfs::ConvertToPlaceholderResult] and the
    [Result<Vfs::ConvertToPlaceholderResult, QString>] of [updateMetadata]. *)
Inductive ConvertToPlaceholderResult : Type :=
  | PlaceholderError | PlaceholderOk | PlaceholderLocked.
Inductive MetadataResult : Type :=
  | MetadataFailed (error : string)
  | MetadataDone (r : ConvertToPlaceholderResult).

(** The calls the job makes on its collaborators, in the order made. *)
Inductive Event : Type :=
  | EvSetUploadInfo (file : string) (info : UploadInfo.t)
  | EvCommit (tag : string)
  | EvSetPollInfo (info : PollInfo)
  | EvSchedulePathForRemoteDiscovery (file : string)
  | EvBlacklistUpdate (item : SyncFileItem.t)
  | EvWipeErrorBlacklistEntry (file : string)
  | EvRename (src dst : string) (ok : bool)
  | EvUpdateMetadata (item : SyncFileItem.t)
  | EvSetPinState (file : string) (pin : PinState) (ok : bool)
  | EvInsufficientRemoteStorage
  | EvSeenLockedFile (path : string)
  | EvItemCompleted (item : SyncFileItem.t)
  | EvFinished (status : Status)
  | EvScheduleNextJob
  | EvPropagatorAbort
  | EvJobAbort
  | EvComputeChecksum (job : nat) (type path : string)
  | EvPutStart (job : nat) (parts : list (gmap string string))
  | EvPollStart (job : nat) (url : string)
  | EvWarnFileIdChanged (known received : string).

(** A running [ComputeChecksum] object: which stage its [done] signal is
    connected to, with the item and file the connected lambda captured. *)
Inductive ChecksumStage : Type :=
  | ContentChecksum | TransmissionChecksum.
Record ComputeChecksum : Type := mkComputeChecksum {
  cc_stage : ChecksumStage;
  cc_item : SyncFileItem.t;
  cc_fileToUpload : UploadFileInfo.t
}.

(** Modelled from the spec: [PropagatorJob::JobState] (owncloudpropagator.h).
    A job is made [NotYetStarted]; the controller is to "transition to Running"
    when it takes items off its queue, which is the one assignment to
    [_state] in this file. *)
Inductive JobState : Type :=
  | NotYetStarted | Running | Finished.

Record State : Type := mkState {
  (* OwncloudPropagator *)
  abortRequested : bool;
  anotherSyncNeeded : bool;
  folderQuota : gmap string Z;
  (* SyncJournalDb *)
  uploadInfo : gmap string UploadInfo.t;
  conflicts : gmap string ConflictRecord;
  blacklist : gmap string Z;
  (* Vfs *)
  pins : gmap string PinState;
  (* local file system and clock (milliseconds) *)
  fs : gmap string FileMeta;
  now : Z;
  (* BulkPropagatorJob *)
  items : list SyncFileItem.t;
  uploadFileParameters : list UploadFileParameters;
  jobs : list nat;
  checksumsJobs : list nat;
  (* the running ComputeChecksum objects with what their done signal is
     connected to *)
  computeChecksums : gmap nat ComputeChecksum;
  finalStatus : Status;
  _state : JobState;
  (* identity of the next job object; the calls made so far *)
  nextJob : nat;
  trace : list Event
}.

Definition set_abortRequested (v : bool) (s : State) : State :=
  mkState v (anotherSyncNeeded s) (folderQuota s) (uploadInfo s)
          (conflicts s) (blacklist s) (pins s) (fs s) (now s) (items s)
          (uploadFileParameters s) (jobs s) (checksumsJobs s)
          (computeChecksums s) (finalStatus s) (_state s) (nextJob s) (trace s).
Definition set_anotherSyncNeeded (v : bool) (s : State) : State :=
  mkState (abortRequested s) v (folderQuota s) (uploadInfo s) (conflicts s)
          (blacklist s) (pins s) (fs s) (now s) (items s)
          (uploadFileParameters s) (jobs s) (checksumsJobs s)
          (computeChecksums s) (finalStatus s) (_state s) (nextJob s) (trace s).
Definition set_folderQuota (v : gmap string Z) (s : State) : State :=
  mkState (abortRequested s) (anotherSyncNeeded s) v (uploadInfo s)
          (conflicts s) (blacklist s) (pins s) (fs s) (now s) (items s)
          (uploadFileParameters s) (jobs s) (checksumsJobs s)
          (computeChecksums s) (finalStatus s) (_state s) (nextJob s) (trace s).
Definition set_uploadInfo (v : gmap string UploadInfo.t) (s : State) : State :=
  mkState (abortRequested s) (anotherSyncNeeded s) (folderQuota s) v
          (conflicts s) (blacklist s) (pins s) (fs s) (now s) (items s)
          (uploadFileParameters s) (jobs s) (checksumsJobs s)
          (computeChecksums s) (finalStatus s) (_state s) (nextJob s) (trace s).
Definition set_blacklist (v : gmap string Z) (s : State) : State :=
  mkState (abortRequested s) (anotherSyncNeeded s) (folderQuota s)
          (uploadInfo s) (conflicts s) v (pins s) (fs s) (now s) (items s)
          (uploadFileParameters s) (jobs s) (checksumsJobs s)
          (computeChecksums s) (finalStatus s) (_state s) (nextJob s) (trace s).
Definition set_pins (v : gmap string PinState) (s : State) : State :=
  mkState (abortRequested s) (anotherSyncNeeded s) (folderQuota s)
          (uploadInfo s) (conflicts s) (blacklist s) v (fs s) (now s)
          (items s) (uploadFileParameters s) (jobs s) (checksumsJobs s)
          (computeChecksums s) (finalStatus s) (_state s) (nextJob s) (trace s).
Definition set_fs (v : gmap string FileMeta) (s : State) : State :=
  mkState (abortRequested s) (anotherSyncNeeded s) (folderQuota s)
          (uploadInfo s) (conflicts s) (blacklist s) (pins s) v (now s)
          (items s) (uploadFileParameters s) (jobs s) (checksumsJobs s)
          (computeChecksums s) (finalStatus s) (_state s) (nextJob s) (trace s).
Definition set_items (v : list SyncFileItem.t) (s : State) : State :=
  mkState (abortRequested s) (anotherSyncNeeded s) (folderQuota s)
          (uploadInfo s) (conflicts s) (blacklist s) (pins s) (fs s) (now s)
          v (uploadFileParameters s) (jobs s) (checksumsJobs s)
          (computeChecksums s) (finalStatus s) (_state s) (nextJob s) (trace s).
Definition set_uploadFileParameters (v : list UploadFileParameters) (s : State) : State :=
  mkState (abortRequested s) (anotherSyncNeeded s) (folderQuota s)
          (uploadInfo s) (conflicts s) (blacklist s) (pins s) (fs s) (now s)
          (items s) v (jobs s) (checksumsJobs s) (computeChecksums s)
          (finalStatus s) (_state s) (nextJob s) (trace s).
Definition set_jobs (v : list nat) (s : State) : State :=
  mkState (abortRequested s) (anotherSyncNeeded s) (folderQuota s)
          (uploadInfo s) (conflicts s) (blacklist s) (pins s) (fs s) (now s)
          (items s) (uploadFileParameters s) v (checksumsJobs s)
          (computeChecksums s) (finalStatus s) (_state s) (nextJob s) (trace s).
Definition set_checksumsJobs (v : list nat) (s : State) : State :=
  mkState (abortRequested s) (anotherSyncNeeded s) (folderQuota s)
          (uploadInfo s) (conflicts s) (blacklist s) (pins s) (fs s) (now s)
          (items s) (uploadFileParameters s) (jobs s) v (computeChecksums s)
          (finalStatus s) (_state s) (nextJob s) (trace s).
Definition set_computeChecksums (v : gmap nat ComputeChecksum) (s : State) : State :=
  mkState (abortRequested s) (anotherSyncNeeded s) (folderQuota s)
          (uploadInfo s) (conflicts s) (blacklist s) (pins s) (fs s) (now s)
          (items s) (uploadFileParameters s) (jobs s) (checksumsJobs s) v
          (finalStatus s) (_state s) (nextJob s) (trace s).
Definition set_finalStatus (v : Status) (s : State) : State :=
  mkState (abortRequested s) (anotherSyncNeeded s) (folderQuota s)
          (uploadInfo s) (conflicts s) (blacklist s) (pins s) (fs s) (now s)
          (items s) (uploadFileParameters s) (jobs s) (checksumsJobs s)
          (computeChecksums s) v (_state s) (nextJob s) (trace s).
Definition set_state (v : JobState) (s : State) : State :=
  mkState (abortRequested s) (anotherSyncNeeded s) (folderQuota s)
          (uploadInfo s) (conflicts s) (blacklist s) (pins s) (fs s) (now s)
          (items s) (uploadFileParameters s) (jobs s) (checksumsJobs s)
          (computeChecksums s) (finalStatus s) v (nextJob s) (trace s).
Definition set_nextJob (v : nat) (s : State) : State :=
  mkState (abortRequested s) (anotherSyncNeeded s) (folderQuota s)
          (uploadInfo s) (conflicts s) (blacklist s) (pins s) (fs s) (now s)
          (items s) (uploadFileParameters s) (jobs s) (checksumsJobs s)
          (computeChecksums s) (finalStatus s) (_state s) v (trace s).
Definition set_trace (v : list Event) (s : State) : State :=
  mkState (abortRequested s) (anotherSyncNeeded s) (folderQuota s)
          (uploadInfo s) (conflicts s) (blacklist s) (pins s) (fs s) (now s)
          (items s) (uploadFileParameters s) (jobs s) (checksumsJobs s)
          (computeChecksums s) (finalStatus s) (_state s) (nextJob s) v.

Definition emit (e : Event) (s : State) : State :=
  set_trace (trace s ++ [e]) s.

(** ** The collaborators

    Functions and settings of the repository and of Qt that the job calls
    and that are declared outside bulkpropagatorjob.cpp.  They are taken as
    given; nothing below depends on how they compute. *)
Record Host : Type := mkHost {
  (* OwncloudPropagator *)
  fullLocalPath : string -> string;
  fullRemotePath : string -> string;
  hasCaseClashAccessibilityProblem : string -> bool;
  updateMetadata : SyncFileItem.t -> MetadataResult;
  (* blacklistUpdate(journal, item): the new blacklist, and the status and
     error string it leaves on the item *)
  blacklistUpdate :
    gmap string Z -> SyncFileItem.t -> gmap string Z * Status * string;
  classifyError : NetworkError -> Z -> string -> Status * bool;
  (* SyncEngine::minimumFileAgeForUpload, in milliseconds *)
  minimumFileAgeForUpload : Z;
  (* account capabilities *)
  supportedChecksumTypes : list string;
  httpErrorCodesThatResetFailingChunkedUploads : list Z;
  uploadChecksumEnabled : bool;
  (* common/checksums.h, common/utility.h, networkjobs.h *)
  parseChecksumHeader : string -> string * string;
  makeChecksumHeader : string -> string -> string;
  parseEtag : string -> string;
  octetsToString : Z -> string;
  toNativeSeparators : string -> string;
  (* qEnvironmentVariableIntValue("OWNCLOUD_LAZYOPS") *)
  lazyOps : Z;
  (* UploadDevice::open: None when it opens, the error string otherwise *)
  deviceOpen : string -> option string;
  isFileLocked : string -> bool;
  (* Vfs::setPinState succeeds *)
  setPinStateOk : string -> bool
}.

(** ** File system, journal and Qt helpers *)

(** Modelled from the spec: [FileSystem::fileExists], [getModTime],
    [getSize] and [verifyFileUnchanged] (filesystem.h) over the files the
    state records; a path that is not there has modification time and size
    0, and is never unchanged. *)
Definition fileExists (files : gmap string FileMeta) (p : string) : bool :=
  bool_decide (is_Some (files !! p)).
Definition getModTime (files : gmap string FileMeta) (p : string) : Z :=
  from_option mtime 0 (files !! p).
Definition getSize (files : gmap string FileMeta) (p : string) : Z :=
  from_option fsize 0 (files !! p).
Definition verifyFileUnchanged (files : gmap string FileMeta) (p : string)
    (previousSize previousMtime : Z) : bool :=
  match files !! p with
  | Some m => bool_decide (fsize m = previousSize)
              && bool_decide (mtime m = previousMtime)
  | None => false
  end.

(** [QFile::rename]: fails when the source is missing or the target exists,
    moves the file otherwise. *)
Definition QFile_rename (files : gmap string FileMeta) (src dst : string)
    : option (gmap string FileMeta) :=
  match files !! src, files !! dst with
  | Some m, None => Some (<[dst := m]> (delete src files))
  | _, _ => None
  end.

(** Modelled from the spec: the journal is a key-value store keyed by file
    path (syncjournaldb.h); a path without a record reads as the cleared
    [UploadInfo]. *)
Definition getUploadInfo (j : gmap string UploadInfo.t) (file : string)
    : UploadInfo.t :=
  default UploadInfo.empty (j !! file).
Definition setUploadInfo (file : string) (i : UploadInfo.t) (s : State)
    : State :=
  emit (EvSetUploadInfo file i) (set_uploadInfo (<[file := i]> (uploadInfo s)) s).
Definition commit (tag : string) (s : State) : State := emit (EvCommit tag) s.

(** [QFileInfo(file).path()]: the text before the last slash, "." when there
    is no slash, "/" when the only slash is the first character. *)
Fixpoint before_last_slash (s : string) : option string :=
  match s with
  | EmptyString => None
  | String c r =>
      match before_last_slash r with
      | Some d => Some (String c d)
      | None => if Ascii.eqb c "/" then Some EmptyString else None
      end
  end.
Definition QFileInfo_path (file : string) : string :=
  match before_last_slash file with
  | None => "."
  | Some EmptyString => "/"
  | Some d => d
  end.

(** [QString::contains]. *)
Fixpoint contains (needle s : string) : bool :=
  String.prefix needle s
  || match s with
     | EmptyString => false
     | String _ r => contains needle r
     end.

Definition isEmpty (s : string) : bool := bool_decide (s = EmptyString).

(** [QJsonObject::value(key).toString()], then [toLatin1]: text is carried
    as Latin-1 throughout, so the conversion changes nothing. *)
Definition json_toString (v : option JsonValue) : string :=
  match v with
  | Some (JString s) => s
  | _ => EmptyString
  end.

(** ** Completion of one item: [done] and its helpers *)

Definition handleFileRestoration (item : SyncFileItem.t) (errorString : string)
    : SyncFileItem.t :=
  if SyncFileItem._isRestoration item then
    if bool_decide (SyncFileItem._status item = Success)
       || bool_decide (SyncFileItem._status item = Conflict)
    then SyncFileItem.with_status Restoration item
    else SyncFileItem.with_errorString
           (SyncFileItem._errorString item +:+ "; Restoration Failed: "
            +:+ errorString) item
  else if isEmpty (SyncFileItem._errorString item)
       then SyncFileItem.with_errorString errorString item
       else item.

Definition wipeErrorBlacklistEntry (file : string) (s : State) : State :=
  emit (EvWipeErrorBlacklistEntry file)
       (set_blacklist (delete file (blacklist s)) s).

Definition handleBlackList (H : Host) (s : State) (item : SyncFileItem.t)
    : State * SyncFileItem.t :=
  match SyncFileItem._status item with
  | SoftError | FatalError | NormalError | DetailError =>
      (* Check the blacklist, possibly adjusting the item (including its
         status) *)
      let '(bl, st, err) := blacklistUpdate H (blacklist s) item in
      (set_blacklist bl (emit (EvBlacklistUpdate item) s),
       SyncFileItem.with_errorString err (SyncFileItem.with_status st item))
  | Success | Restoration =>
      if SyncFileItem._hasBlacklistEntry item then
        let s := wipeErrorBlacklistEntry (SyncFileItem._file item) s in
        if bool_decide (SyncFileItem._originalFile item
                        <> SyncFileItem._file item)
        then (wipeErrorBlacklistEntry (SyncFileItem._originalFile item) s, item)
        else (s, item)
      else (s, item)
  | Conflict | FileIgnored | NoStatus | BlacklistedError | FileLocked
  | FileNameInvalid => (s, item)
  end.

(** Modelled from the spec: [propagator()->abort()] (owncloudpropagator.h)
    sets the flag [abortRequested], which "is checked at every
    controller-context entry point" so that "once set, no new uploads may
    begin".  The call is recorded as well; what else the propagator does
    with its other jobs is outside this file. *)
Definition propagator_abort (s : State) : State :=
  emit EvPropagatorAbort (set_abortRequested true s).

Definition handleJobDoneErrors (s : State) (item : SyncFileItem.t)
    (status : Status) : State :=
  let s := if bool_decide (SyncFileItem._status item = FatalError)
           then propagator_abort s else s in
  match SyncFileItem._status item with
  | BlacklistedError | Conflict | FatalError | FileIgnored | FileLocked
  | FileNameInvalid | NoStatus | NormalError | Restoration | SoftError =>
      set_finalStatus NormalError s
  | DetailError => set_finalStatus DetailError s
  | Success => s
  end.

Definition done (H : Host) (s : State) (item : SyncFileItem.t)
    (status : Status) (errorString : string) : State * SyncFileItem.t :=
  let item := SyncFileItem.with_errorString errorString
                (SyncFileItem.with_status status item) in
  let item := handleFileRestoration item errorString in
  let item :=
    if abortRequested s
       && (bool_decide (SyncFileItem._status item = NormalError)
           || bool_decide (SyncFileItem._status item = FatalError))
    then (* an abort request is ongoing. Change the status to Soft-Error *)
         SyncFileItem.with_status SoftError item
    else item in
  let '(s, item) := handleBlackList H s item in
  let s := handleJobDoneErrors s item status in
  (emit (EvItemCompleted item) s, item).

(** ** The header assembler *)

Definition headers (s : State) (H : Host) (item : SyncFileItem.t)
    : gmap string string :=
  let h : gmap string string :=
    <["X-File-Mtime" := pretty (SyncFileItem._modtime item)]>
      (<["Content-Type" := "application/octet-stream"]> ∅) in
  let h := if bool_decide (lazyOps H <> 0)
           then <["OC-LazyOps" := "true"]> h else h in
  let h := if contains ".sys.admin#recall#" (SyncFileItem._file item)
           then <["OC-Tag" := ".sys.admin#recall#"]> h else h in
  let h :=
    if negb (isEmpty (SyncFileItem._etag item))
       && bool_decide (SyncFileItem._etag item <> "empty_etag")
       && bool_decide (SyncFileItem._instruction item <> CSYNC_INSTRUCTION_NEW)
       && bool_decide (SyncFileItem._instruction item
                       <> CSYNC_INSTRUCTION_TYPE_CHANGE)
    then <["If-Match" := dquote +:+ SyncFileItem._etag item +:+ dquote]> h
    else h in
  (* Set up a conflict file header pointing to the original file *)
  match conflicts s !! SyncFileItem._file item with
  | Some r =>
      let h := <["OC-Conflict" := "1"]> h in
      let h := if negb (isEmpty (initialBasePath r))
               then <["OC-ConflictInitialBasePath" := initialBasePath r]> h
               else h in
      let h := if negb (isEmpty (baseFileId r))
               then <["OC-ConflictBaseFileId" := baseFileId r]> h else h in
      let h := if bool_decide (baseModtime r <> -1)
               then <["OC-ConflictBaseMtime" := pretty (baseModtime r)]> h
               else h in
      if negb (isEmpty (baseEtag r))
      then <["OC-ConflictBaseEtag" := baseEtag r]> h else h
  | None => h
  end.

(** ** The batch builder *)

(** Milliseconds from the item's modification time (seconds) to now. *)
Definition msSinceMod (s : State) (item : SyncFileItem.t) : Z :=
  now s - SyncFileItem._modtime item * 1000.

Definition fileIsStillChanging (H : Host) (s : State) (item : SyncFileItem.t)
    : bool :=
  (msSinceMod s item <? minimumFileAgeForUpload H)
  (* if the mtime is too much in the future we *do* upload the file *)
  && (msSinceMod s item >? -10000).

(** [abort(AbortType::Synchronous)], then [done]. *)
Definition abortWithError (H : Host) (s : State) (item : SyncFileItem.t)
    (status : Status) (error : string) : State * SyncFileItem.t :=
  done H (emit EvJobAbort s) item status error.

(** The loop of [triggerUpload]: opens a device per pending file and stamps
    [X-File-Path] on the entry; stops at the first file that does not open.
    Gives the entries passed, the parts collected and, on a failure, the
    entry that failed with the error string and the entries not reached. *)
Fixpoint openDevices (H : Host) (todo : list UploadFileParameters)
    : list UploadFileParameters * list (gmap string string)
      * option (UploadFileParameters * string * list UploadFileParameters) :=
  match todo with
  | [] => ([], [], None)
  | oneFile :: rest =>
      match deviceOpen H (_localPath oneFile) with
      | Some err => ([], [], Some (oneFile, err, rest))
      | None =>
          let oneFile :=
            with_headers (<["X-File-Path" := _remotePath oneFile]>
                            (_headers oneFile)) oneFile in
          let '(passed, parts, failure) := openDevices H rest in
          (oneFile :: passed, _headers oneFile :: parts, failure)
      end
  end.

Definition triggerUpload (H : Host) (s : State) : State :=
  match openDevices H (uploadFileParameters s) with
  | (passed, _, Some (oneFile, err, rest)) =>
      let s := if isFileLocked H (_localPath oneFile)
               then emit (EvSeenLockedFile (_localPath oneFile)) s else s in
      (* Soft error because this is likely caused by the user modifying his
         files while syncing *)
      let '(s, item) := abortWithError H s (_item oneFile) SoftError err in
      set_uploadFileParameters (passed ++ with_item item oneFile :: rest) s
  | (passed, parts, None) =>
      let job := nextJob s in
      emit (EvPutStart job parts)
        (set_jobs (jobs s ++ [job])
           (set_nextJob (S job) (set_uploadFileParameters passed s)))
  end.

(** The end of [doStartUpload], after the rename if there is one: the entry
    joins the pending batch, and the upload is triggered when no content
    checksum is being computed. *)
Definition attachFile (H : Host) (s : State) (item : SyncFileItem.t)
    (fileToUpload : UploadFileInfo.t) (fileSize : Z)
    (currentHeaders : gmap string string)
    (transmissionChecksumHeader : string) : State :=
  let path := UploadFileInfo._file fileToUpload in
  let currentHeaders :=
    <["X-File-MD5" := transmissionChecksumHeader]> currentHeaders in
  let newUploadFile :=
    mkParams item fileToUpload (fullRemotePath H path)
             (UploadFileInfo._path fileToUpload) fileSize currentHeaders in
  let s := set_uploadFileParameters
             (uploadFileParameters s ++ [newUploadFile]) s in
  match checksumsJobs s with
  | [] => triggerUpload H s
  | _ => s
  end.

Definition doStartUpload (H : Host) (s : State) (item : SyncFileItem.t)
    (fileToUpload : UploadFileInfo.t) (transmissionChecksumHeader : string)
    : State :=
  if abortRequested s then s else
  (* If there is only one chunk, write the checksum in the database, so if
     the PUT is sent to the server, but the connection drops before we get
     the etag, we can check the checksum in reconcile (issue #5106) *)
  let pi := UploadInfo.mk true 0 0 (SyncFileItem._modtime item) 0
              (SyncFileItem._checksumHeader item) (SyncFileItem._size item) in
  let s := commit "Upload info" (setUploadInfo (SyncFileItem._file item) pi s) in
  let fileSize := UploadFileInfo._size fileToUpload in
  let currentHeaders :=
    <["Content-Length" := pretty fileSize]> (headers s H item) in
  if negb (isEmpty (SyncFileItem._renameTarget item))
     && bool_decide (SyncFileItem._file item <> SyncFileItem._renameTarget item)
  then
    (* Try to rename the file *)
    let originalFilePathAbsolute := fullLocalPath H (SyncFileItem._file item) in
    let newFilePathAbsolute :=
      fullLocalPath H (SyncFileItem._renameTarget item) in
    match QFile_rename (fs s) originalFilePathAbsolute newFilePathAbsolute with
    | None =>
        fst (done H (emit (EvRename originalFilePathAbsolute
                             newFilePathAbsolute false) s)
               item NormalError
               "File contains trailing spaces and couldn't be renamed")
    | Some files =>
        let s := emit (EvRename originalFilePathAbsolute newFilePathAbsolute
                         true) (set_fs files s) in
        let item := SyncFileItem.with_file (SyncFileItem._renameTarget item)
                      item in
        let fileToUpload :=
          UploadFileInfo.mk (SyncFileItem._file item)
            (fullLocalPath H (SyncFileItem._file item))
            (UploadFileInfo._size fileToUpload) in
        let item := SyncFileItem.with_modtime
                      (getModTime (fs s) newFilePathAbsolute) item in
        attachFile H s item fileToUpload fileSize currentHeaders
          transmissionChecksumHeader
    end
  else attachFile H s item fileToUpload fileSize currentHeaders
         transmissionChecksumHeader.

Definition slotOnErrorStartFolderUnlock (H : Host) (s : State)
    (item : SyncFileItem.t) (status : Status) (errorString : string) : State :=
  fst (done H s item status errorString).

Definition slotStartUpload (H : Host) (s : State) (item : SyncFileItem.t)
    (fileToUpload : UploadFileInfo.t)
    (transmissionChecksumType transmissionChecksum : string) : State :=
  let transmissionChecksumHeader :=
    makeChecksumHeader H transmissionChecksumType transmissionChecksum in
  (* If no checksum header was not set, reuse the transmission checksum as
     the content checksum. *)
  let item := if isEmpty (SyncFileItem._checksumHeader item)
              then SyncFileItem.with_checksumHeader transmissionChecksumHeader
                     item
              else item in
  let fullFilePath := UploadFileInfo._path fileToUpload in
  let originalFilePath := fullLocalPath H (SyncFileItem._file item) in
  if negb (fileExists (fs s) fullFilePath) then
    slotOnErrorStartFolderUnlock H s item SoftError
      ("File Removed (start upload) " +:+ fullFilePath)
  else
    let prevModtime := SyncFileItem._modtime item in
    let item := SyncFileItem.with_modtime (getModTime (fs s) originalFilePath)
                  item in
    if bool_decide (prevModtime <> SyncFileItem._modtime item) then
      slotOnErrorStartFolderUnlock H (set_anotherSyncNeeded true s) item
        SoftError "Local file changed during syncing. It will be resumed."
    else
      let fileToUpload :=
        UploadFileInfo.mk (UploadFileInfo._file fileToUpload)
          (UploadFileInfo._path fileToUpload) (getSize (fs s) fullFilePath) in
      let item := SyncFileItem.with_size (getSize (fs s) originalFilePath)
                    item in
      (* But skip the file if the mtime is too close to 'now'! *)
      if fileIsStillChanging H s item then
        slotOnErrorStartFolderUnlock H (set_anotherSyncNeeded true s) item
          SoftError "Local file changed during sync."
      else doStartUpload H s item fileToUpload transmissionChecksum.

(** Starts a [ComputeChecksum] object on [path]; [tracked] says whether the
    source appends it to [_checksumsJobs]. *)
Definition startComputeChecksum (s : State) (tracked : bool)
    (cc : ComputeChecksum) (checksumType path : string) : State :=
  let job := nextJob s in
  let s := set_nextJob (S job) s in
  let s := set_computeChecksums (<[job := cc]> (computeChecksums s)) s in
  let s := if tracked then set_checksumsJobs (checksumsJobs s ++ [job]) s
           else s in
  emit (EvComputeChecksum job checksumType path) s.

Definition slotComputeTransmissionChecksum (H : Host) (s : State)
    (item : SyncFileItem.t) (fileToUpload : UploadFileInfo.t)
    (contentChecksumType contentChecksum : string) : State :=
  let item := SyncFileItem.with_checksumHeader
                (makeChecksumHeader H contentChecksumType contentChecksum)
                item in
  (* Reuse the content checksum as the transmission checksum if possible *)
  if bool_decide (contentChecksumType ∈ supportedChecksumTypes H) then
    slotStartUpload H s item fileToUpload contentChecksumType contentChecksum
  else
    (* Compute the transmission checksum. *)
    startComputeChecksum s false
      (mkComputeChecksum TransmissionChecksum item fileToUpload)
      (if uploadChecksumEnabled H then "MD5" else EmptyString)
      (UploadFileInfo._path fileToUpload).

Definition slotComputeContentChecksum (H : Host) (s : State)
    (item : SyncFileItem.t) (fileToUpload : UploadFileInfo.t) : State :=
  if abortRequested s then s else
  let filePath := fullLocalPath H (SyncFileItem._file item) in
  (* remember the modtime before checksumming to be able to detect a file
     change during the checksum calculation *)
  let item := SyncFileItem.with_modtime (getModTime (fs s) filePath) item in
  let checksumType := "MD5" in
  (* Maybe the discovery already computed the checksum? *)
  let '(existingChecksumType, existingChecksum) :=
    parseChecksumHeader H (SyncFileItem._checksumHeader item) in
  if bool_decide (existingChecksumType = checksumType) then
    slotComputeTransmissionChecksum H s item fileToUpload checksumType
      existingChecksum
  else
    (* Compute the content checksum. *)
    startComputeChecksum s true
      (mkComputeChecksum ContentChecksum item fileToUpload) checksumType
      (UploadFileInfo._path fileToUpload).

(** The [done] signal of a [ComputeChecksum] object, delivered to the lambda
    connected when the object was started. *)
Definition computeChecksum_done (H : Host) (s : State) (job : nat)
    (checksumType checksum : string) : State :=
  match computeChecksums s !! job with
  | Some cc =>
      match cc_stage cc with
      | ContentChecksum =>
          slotComputeTransmissionChecksum H s (cc_item cc)
            (cc_fileToUpload cc) checksumType checksum
      | TransmissionChecksum =>
          slotStartUpload H s (cc_item cc) (cc_fileToUpload cc) checksumType
            checksum
      end
  | None => s
  end.

(** The [destroyed] signal, after [deleteLater]: the object is erased from
    [_checksumsJobs]. *)
Definition computeChecksum_destroyed (s : State) (job : nat) : State :=
  set_checksumsJobs (filter (λ j, j <> job) (checksumsJobs s))
    (set_computeChecksums (delete job (computeChecksums s)) s).

Definition startUploadFile (H : Host) (s : State) (item : SyncFileItem.t)
    (fileToUpload : UploadFileInfo.t) : State :=
  if abortRequested s then s else
  (* Check if the specific file can be accessed *)
  if hasCaseClashAccessibilityProblem H (UploadFileInfo._file fileToUpload)
  then
    fst (done H s item NormalError
           ("File " +:+ toNativeSeparators H (SyncFileItem._file item)
            +:+ " cannot be uploaded because another file with the same name, differing only in case, exists"))
  else
    (* Check if we believe that the upload will fail due to remote quota
       limits *)
    let quotaGuess :=
      default qint64_max
        (folderQuota s !! QFileInfo_path (UploadFileInfo._file fileToUpload)) in
    if UploadFileInfo._size fileToUpload >? quotaGuess then
      (* Necessary for blacklisting logic *)
      let item := SyncFileItem.with_httpErrorCode 507 item in
      fst (done H (emit EvInsufficientRemoteStorage s) item DetailError
             ("Upload of "
              +:+ octetsToString H (UploadFileInfo._size fileToUpload)
              +:+ " exceeds the quota for the folder"))
    else slotComputeContentChecksum H s item fileToUpload.

(** ** The controller *)

(** The loop of [scheduleSelfOrChild]: at most [n] items leave the front of
    [_items]; [invokeMethod] runs the lambda at once, the job living in the
    calling thread. *)
Fixpoint scheduleItems (H : Host) (n : nat) (s : State) : State :=
  match n with
  | O => s
  | S n =>
      match items s with
      | [] => s
      | currentItem :: rest =>
          let fileToUpload :=
            UploadFileInfo.mk (SyncFileItem._file currentItem)
              (fullLocalPath H (SyncFileItem._file currentItem))
              (SyncFileItem._size currentItem) in
          scheduleItems H n
            (startUploadFile H (set_items rest s) currentItem fileToUpload)
      end
  end.

Definition scheduleSelfOrChild (H : Host) (s : State) : bool * State :=
  match items s with
  | [] => (false, s)
  | _ =>
      let s := set_state Running s in
      let s := scheduleItems H 100 s in
      (bool_decide (items s = []) && bool_decide (uploadFileParameters s = []),
       s)
  end.

Definition slotJobDestroyed (job : nat) (s : State) : State :=
  set_jobs (filter (λ j, j <> job) (jobs s)) s.

Definition startPollJob (H : Host) (s : State) (item : SyncFileItem.t)
    (fileToUpload : UploadFileInfo.t) (path : string) : State :=
  let job := nextJob s in
  let s := set_nextJob (S job) s in
  let info := mkPollInfo (SyncFileItem._file item) path
                (SyncFileItem._modtime item) (SyncFileItem._size item) in
  let s := commit "add poll info" (emit (EvSetPollInfo info) s) in
  let s := emit (EvPollStart job path) (set_jobs (jobs s ++ [job]) s) in
  match items s with
  | [] => s
  | _ => snd (scheduleSelfOrChild H s)
  end.

(** ** The result finalizer *)

(** The entries of the pending batch are changed in place: an entry whose
    item a loop has changed is stored back before the loop goes on. *)
Definition storeEntry (passed : list UploadFileParameters)
    (oneFile : UploadFileParameters) (rest : list UploadFileParameters)
    (s : State) : State :=
  set_uploadFileParameters (passed ++ oneFile :: rest) s.

(** Update the quota, if known. *)
Definition decrementQuota (oneFile : UploadFileParameters) (s : State)
    : State :=
  let parent := QFileInfo_path (SyncFileItem._file (_item oneFile)) in
  match folderQuota s !! parent with
  | Some quota =>
      set_folderQuota
        (<[parent := wrap64 (quota - UploadFileInfo._size (_fileToUpload oneFile))]>
           (folderQuota s)) s
  | None => s
  end.

(** Files that were new on the remote shouldn't have online-only pin state
    even if their parent folder is online-only. *)
Definition adjustPinState (H : Host) (item : SyncFileItem.t) (s : State)
    : State :=
  if bool_decide (SyncFileItem._instruction item = CSYNC_INSTRUCTION_NEW)
     || bool_decide (SyncFileItem._instruction item
                     = CSYNC_INSTRUCTION_TYPE_CHANGE)
  then
    match pins s !! SyncFileItem._file item with
    | Some OnlineOnly =>
        if setPinStateOk H (SyncFileItem._file item)
        then emit (EvSetPinState (SyncFileItem._file item) Unspecified true)
               (set_pins (<[SyncFileItem._file item := Unspecified]> (pins s))
                  s)
        else emit (EvSetPinState (SyncFileItem._file item) Unspecified false) s
    | _ => s
    end
  else s.

(** The body of the loop of [finalize] for one file: the state, the entry
    with its item as [done] left it, and whether the loop goes on ([false]:
    the body returned from [finalize]). *)
Definition finalizeFile (H : Host) (oneFile : UploadFileParameters)
    (s : State) : State * UploadFileParameters * bool :=
  let item := _item oneFile in
  let s := decrementQuota oneFile s in
  (* Update the database entry *)
  let s := emit (EvUpdateMetadata item) s in
  match updateMetadata H item with
  | MetadataFailed error =>
      let '(s, item) :=
        done H s item FatalError ("Error updating metadata: " +:+ error) in
      (s, with_item item oneFile, false)
  | MetadataDone PlaceholderLocked =>
      let '(s, item) :=
        done H s item SoftError
          ("The file " +:+ SyncFileItem._file item +:+ " is currently in use") in
      (s, with_item item oneFile, false)
  | MetadataDone _ =>
      let s := adjustPinState H item s in
      (* Remove from the progress database: *)
      let s := commit "upload file start"
                 (setUploadInfo (SyncFileItem._file item) UploadInfo.empty s) in
      let '(s, item) := done H s item Success EmptyString in
      (s, with_item item oneFile, true)
  end.

(** The loop of [finalize] over [_uploadFileParameters]; the flag tells
    whether the loop ran to its end ([false]: it returned from [finalize]). *)
Fixpoint finalizeFiles (H : Host) (passed todo : list UploadFileParameters)
    (s : State) : State * bool :=
  match todo with
  | [] => (s, true)
  | oneFile :: rest =>
      let '(s, oneFile, goOn) := finalizeFile H oneFile s in
      let s := storeEntry passed oneFile rest s in
      if goOn then finalizeFiles H (passed ++ [oneFile]) rest s
      else (s, false)
  end.

Definition finalize (H : Host) (s : State) : State :=
  let '(s, finished) := finalizeFiles H [] (uploadFileParameters s) s in
  if negb finished then s else
  match items s with
  | [] =>
      match jobs s, checksumsJobs s with
      | [], [] => emit EvScheduleNextJob (emit (EvFinished (finalStatus s)) s)
      | _, _ => (* just wait for the other job to finish. *) s
      end
  | _ => snd (scheduleSelfOrChild H s)
  end.

(** ** Error handling of the bulk PUT *)

Definition isResettingError (H : Host) (code : Z) : bool :=
  bool_decide (code = 412)
  || bool_decide (code ∈ httpErrorCodesThatResetFailingChunkedUploads H).

Definition checkResettingErrors (H : Host) (s : State) (item : SyncFileItem.t)
    : State :=
  if isResettingError H (SyncFileItem._httpErrorCode item) then
    let uploadInfo :=
      getUploadInfo (uploadInfo s) (SyncFileItem._file item) in
    let uploadInfo :=
      UploadInfo.with_errorCount
        (wrap32 (UploadInfo._errorCount uploadInfo + 1)) uploadInfo in
    let uploadInfo := if UploadInfo._errorCount uploadInfo >? 3
                      then UploadInfo.empty else uploadInfo in
    commit "Upload info" (setUploadInfo (SyncFileItem._file item) uploadInfo s)
  else s.

Definition commonErrorHandling (H : Host) (s : State) (item : SyncFileItem.t)
    (fileToUpload : UploadFileInfo.t) (reply : PutReply)
    : State * SyncFileItem.t :=
  let errorString := errorStringParsingBody reply in
  let s :=
    if bool_decide (SyncFileItem._httpErrorCode item = 412) then
      (* Precondition Failed: Either an etag or a checksum mismatch. *)
      set_anotherSyncNeeded true
        (emit (EvSchedulePathForRemoteDiscovery (SyncFileItem._file item)) s)
    else s in
  (* Ensure errors that should eventually reset the chunked upload are
     tracked. *)
  let s := checkResettingErrors H s item in
  let '(status, anotherSync) :=
    classifyError H (networkError reply) (SyncFileItem._httpErrorCode item)
      (replyContent reply) in
  let s := if anotherSync then set_anotherSyncNeeded true s else s in
  (* Insufficient remote storage. *)
  if bool_decide (SyncFileItem._httpErrorCode item = 507) then
    let path := QFileInfo_path (SyncFileItem._file item) in
    let guess := wrap64 (UploadFileInfo._size fileToUpload - 1) in
    let s :=
      match folderQuota s !! path with
      | Some quota =>
          set_folderQuota (<[path := Z.min quota guess]> (folderQuota s)) s
      | None => set_folderQuota (<[path := guess]> (folderQuota s)) s
      end in
    abortWithError H (emit EvInsufficientRemoteStorage s) item DetailError
      ("Upload of " +:+ octetsToString H (UploadFileInfo._size fileToUpload)
       +:+ " exceeds the quota for the folder")
  else abortWithError H s item status errorString.


Definition checkFileStillExists (H : Host) (s : State) (item : SyncFileItem.t)
    (finished : bool) (fullFilePath : string)
    : bool * State * SyncFileItem.t :=
  if negb (fileExists (fs s) fullFilePath) then
    if negb finished then
      let '(s, item) := abortWithError H s item SoftError
                          "The local file was removed during sync." in
      (false, s, item)
    else (true, set_anotherSyncNeeded true s, item)
  else (true, s, item).

Definition checkFileChanged (H : Host) (s : State) (item : SyncFileItem.t)
    (finished : bool) (fullFilePath : string)
    : bool * State * SyncFileItem.t :=
  if negb (verifyFileUnchanged (fs s) fullFilePath (SyncFileItem._size item)
             (SyncFileItem._modtime item)) then
    let s := set_anotherSyncNeeded true s in
    if negb finished then
      let '(s, item) := abortWithError H s item SoftError
                          "Local file changed during sync." in
      (false, s, item)
    else (true, s, item)
  else (true, s, item).

Definition getHeaderFromJsonReply (reply : gmap string JsonValue)
    (headerName : string) : string :=
  json_toString (reply !! headerName).

Definition getEtagFromJsonReply (H : Host) (reply : gmap string JsonValue)
    : string :=
  let ocEtag := parseEtag H (getHeaderFromJsonReply reply "OC-ETag") in
  let etag := parseEtag H (getHeaderFromJsonReply reply "ETag") in
  if isEmpty ocEtag then etag else ocEtag.

Definition computeFileId (s : State) (item : SyncFileItem.t)
    (fileReply : gmap string JsonValue) : State * SyncFileItem.t :=
  let fid := getHeaderFromJsonReply fileReply "OC-FileID" in
  if negb (isEmpty fid) then
    let s := if negb (isEmpty (SyncFileItem._fileId item))
                && bool_decide (SyncFileItem._fileId item <> fid)
             then emit (EvWarnFileIdChanged (SyncFileItem._fileId item) fid) s
             else s in
    (s, SyncFileItem.with_fileId fid item)
  else (s, item).

(** The first object of the reply array whose [X-File-Path] is the item's
    path; the empty object when there is none. *)
Fixpoint findFileReply (replyArray : list (gmap string JsonValue))
    (file : string) : gmap string JsonValue :=
  match replyArray with
  | [] => ∅
  | replyObject :: more =>
      if bool_decide (getHeaderFromJsonReply replyObject "X-File-Path" = file)
      then replyObject
      else findFileReply more file
  end.

(** The loop of [slotPutFinished] over [_uploadFileParameters]; the flag
    tells whether the loop ran to its end ([false]: it returned from
    [slotPutFinished]). *)
Fixpoint putFinishedFiles (H : Host) (job : nat) (reply : PutReply)
    (body : list (gmap string JsonValue))
    (passed todo : list UploadFileParameters) (s : State) : State * bool :=
  match todo with
  | [] => (s, true)
  | oneFile :: rest =>
      let s := slotJobDestroyed job s in (* remove it from the _jobs list *)
      let item :=
        SyncFileItem.with_response (responseTimestamp reply) (requestId reply)
          (SyncFileItem.with_httpErrorCode (to_quint16 (httpStatusCode reply))
             (_item oneFile)) in
      if bool_decide (networkError reply <> NoError) then
        let '(s, item) :=
          commonErrorHandling H s item (_fileToUpload oneFile) reply in
        (storeEntry passed (with_item item oneFile) rest s, false)
      else
        (* [job->reply()->readAll()], in the loop: the body of a reply is
           read once, so [body] is all of it in the first turn and nothing
           in the turns after it *)
        let replyArray := body in
        let fileReply := findFileReply replyArray (SyncFileItem._file item) in
        (* The server needs some time to process the request and provide us
           with a poll URL *)
        if bool_decide (SyncFileItem._httpErrorCode item = 202) then
          let path := getHeaderFromJsonReply fileReply "OC-JobStatus-Location" in
          if isEmpty path then
            let '(s, item) := done H s item NormalError "Poll URL missing" in
            (storeEntry passed (with_item item oneFile) rest s, false)
          else
            (startPollJob H (storeEntry passed (with_item item oneFile) rest s)
               item (_fileToUpload oneFile) path, false)
        else
          (* Check the file again post upload. *)
          let etag := getEtagFromJsonReply H fileReply in
          let finished := negb (isEmpty etag) in
          let fullFilePath := fullLocalPath H (SyncFileItem._file item) in
          (* Check if the file still exists *)
          let '(ok, s, item) :=
            checkFileStillExists H s item finished fullFilePath in
          if negb ok then
            (storeEntry passed (with_item item oneFile) rest s, false)
          else
            (* Check whether the file changed since discovery. *)
            let '(ok, s, item) :=
              checkFileChanged H s item finished fullFilePath in
            if negb ok then
              (storeEntry passed (with_item item oneFile) rest s, false)
            else
              (* the file id should only be empty for new files up- or
                 downloaded *)
              let '(s, item) := computeFileId s item fileReply in
              let item := SyncFileItem.with_etag etag item in
              let oneFile := with_item item oneFile in
              putFinishedFiles H job reply [] (passed ++ [oneFile]) rest
                (storeEntry passed oneFile rest s)
  end.

Definition slotPutFinished (H : Host) (s : State) (job : nat)
    (reply : PutReply) : State :=
  let '(s, finished) :=
    putFinishedFiles H job reply (replyArray reply) []
      (uploadFileParameters s) s in
  if finished then finalize H s else s.

(** ** Notions used in the statements *)

(** The condition under which [headers] sends [If-Match]. *)
Definition sendsIfMatch (item : SyncFileItem.t) : Prop :=
  SyncFileItem._etag item <> EmptyString
  /\ SyncFileItem._etag item <> "empty_etag"
  /\ SyncFileItem._instruction item <> CSYNC_INSTRUCTION_NEW
  /\ SyncFileItem._instruction item <> CSYNC_INSTRUCTION_TYPE_CHANGE.

#[export] Instance sendsIfMatch_dec item : Decision (sendsIfMatch item).
Proof. unfold sendsIfMatch. apply _. Defined.

(** What one completion does to [_finalStatus]: the status it sets, if any. *)
Definition finalStatusOf (st : Status) : option Status :=
  match st with
  | Success => None
  | DetailError => Some DetailError
  | _ => Some NormalError
  end.

(** [_finalStatus] after completions observed with the statuses [l], in
    order, starting from [init]: the last one that sets it wins. *)
Definition lastFinalStatus (init : Status) (l : list Status) : Status :=
  fold_left (λ acc st, default acc (finalStatusOf st)) l init.

(** A sequence of completions: [done] called for each triple in turn.  The
    result carries the items as [itemCompleted] announced them. *)
Fixpoint doneAll (H : Host) (s : State)
    (l : list (SyncFileItem.t * Status * string))
    : State * list SyncFileItem.t :=
  match l with
  | [] => (s, [])
  | (item, status, errorString) :: more =>
      let '(s, item) := done H s item status errorString in
      let '(s, completed) := doneAll H s more in
      (s, item :: completed)
  end.

(** The reading of "the final status is the most severe one observed": under
    a ranking of the statuses that tells [NormalError] and [DetailError]
    apart, no completion sets a status that ranks above the final one. *)
Definition finalStatusIsMostSevere (H : Host) (rank : Status -> nat) : Prop :=
  rank NormalError <> rank DetailError
  /\ forall l s item m,
       item ∈ snd (doneAll H s l) ->
       finalStatusOf (SyncFileItem._status item) = Some m ->
       (rank m <= rank (finalStatus (fst (doneAll H s l))))%nat.

(** The item as [done] hands it to [handleBlackList] once an abort request
    has turned its [NormalError] or [FatalError] into [SoftError]. *)
Definition demoted (item : SyncFileItem.t) (status : Status)
    (errorString : string) : SyncFileItem.t :=
  SyncFileItem.with_status SoftError
    (handleFileRestoration
       (SyncFileItem.with_errorString errorString
          (SyncFileItem.with_status status item)) errorString).

(** One failed upload of a file: [doStartUpload] starts it, and the error
    handling that [slotPutFinished] runs on a reply with a network error
    ends it: [commonErrorHandling], on the item with the status code of the
    reply as its [_httpErrorCode]. *)
Definition failedUpload (H : Host) (s : State) (item : SyncFileItem.t)
    (fileToUpload : UploadFileInfo.t) (transmissionChecksum : string)
    (reply : PutReply) : State :=
  fst (commonErrorHandling H
         (doStartUpload H s item fileToUpload transmissionChecksum)
         (SyncFileItem.with_httpErrorCode (to_quint16 (httpStatusCode reply))
            item)
         fileToUpload reply).


(** The record [doStartUpload] writes to the journal for [item]. *)
Definition committedRecord (item : SyncFileItem.t) : UploadInfo.t :=
  UploadInfo.mk true 0 0 (SyncFileItem._modtime item) 0
    (SyncFileItem._checksumHeader item) (SyncFileItem._size item).

(** [doStartUpload] will try to rename the file. *)
Definition wantsRename (item : SyncFileItem.t) : bool :=
  negb (isEmpty (SyncFileItem._renameTarget item))
  && bool_decide (SyncFileItem._file item <> SyncFileItem._renameTarget item).

(** The item and the file as [slotStartUpload] has them when it reaches the
    check of the file's age: the checksum header filled in if it was empty,
    modification time and sizes read again. *)
Definition itemAtAgeCheck (H : Host) (s : State) (item : SyncFileItem.t)
    (transmissionChecksumType transmissionChecksum : string)
    : SyncFileItem.t :=
  SyncFileItem.with_size
    (getSize (fs s) (fullLocalPath H (SyncFileItem._file item)))
    (SyncFileItem.with_modtime
       (getModTime (fs s) (fullLocalPath H (SyncFileItem._file item)))
       (if isEmpty (SyncFileItem._checksumHeader item)
        then SyncFileItem.with_checksumHeader
               (makeChecksumHeader H transmissionChecksumType
                  transmissionChecksum) item
        else item)).
Definition fileAtAgeCheck (s : State) (fileToUpload : UploadFileInfo.t)
    : UploadFileInfo.t :=
  UploadFileInfo.mk (UploadFileInfo._file fileToUpload)
    (UploadFileInfo._path fileToUpload)
    (getSize (fs s) (UploadFileInfo._path fileToUpload)).

(** The file is there and its modification time is the one remembered
    before hashing: [slotStartUpload] gets as far as the check of the age. *)
Definition reachesAgeCheck (H : Host) (s : State) (item : SyncFileItem.t)
    (fileToUpload : UploadFileInfo.t) : bool :=
  fileExists (fs s) (UploadFileInfo._path fileToUpload)
  && bool_decide (SyncFileItem._modtime item
                  = getModTime (fs s)
                      (fullLocalPath H (SyncFileItem._file item))).

(** All the checks of [slotStartUpload] and the abort check of
    [doStartUpload] let the item through. *)
Definition passesChecks (H : Host) (s : State) (item : SyncFileItem.t)
    (fileToUpload : UploadFileInfo.t)
    (transmissionChecksumType transmissionChecksum : string) : bool :=
  reachesAgeCheck H s item fileToUpload
  && negb (fileIsStillChanging H s
             (itemAtAgeCheck H s item transmissionChecksumType
                transmissionChecksum))
  && negb (abortRequested s).

(** One of the first three checks, those of [startUploadFile], stops the
    item: an abort request, a case clash, or the quota guess. *)
Definition stoppedAtStart (H : Host) (s : State)
    (fileToUpload : UploadFileInfo.t) : bool :=
  abortRequested s
  || hasCaseClashAccessibilityProblem H (UploadFileInfo._file fileToUpload)
  || (UploadFileInfo._size fileToUpload
      >? default qint64_max
           (folderQuota s
              !! QFileInfo_path (UploadFileInfo._file fileToUpload))).

(** The outcome of [updateMetadata] that makes [finalize] return: the status
    and the error string it completes the file with. *)
Definition metadataFailure (H : Host) (oneFile : UploadFileParameters)
    : option (Status * string) :=
  match updateMetadata H (_item oneFile) with
  | MetadataFailed error =>
      Some (FatalError, "Error updating metadata: " +:+ error)
  | MetadataDone PlaceholderLocked =>
      Some (SoftError,
            "The file " +:+ SyncFileItem._file (_item oneFile)
            +:+ " is currently in use")
  | MetadataDone _ => None
  end.

(** The files the loop of [finalize] reaches: all up to and including the
    first whose metadata update fails. *)
Fixpoint reached (H : Host) (l : list UploadFileParameters)
    : list UploadFileParameters :=
  match l with
  | [] => []
  | oneFile :: rest =>
      match metadataFailure H oneFile with
      | Some _ => [oneFile]
      | None => oneFile :: reached H rest
      end
  end.

(** The sizes of the uploads of [l] that lie in folder [parent], summed. *)
Fixpoint sizesUnder (parent : string) (l : list UploadFileParameters) : Z :=
  match l with
  | [] => 0
  | oneFile :: rest =>
      (if bool_decide (QFileInfo_path (SyncFileItem._file (_item oneFile))
                       = parent)
       then UploadFileInfo._size (_fileToUpload oneFile) else 0)
      + sizesUnder parent rest
  end.

(** [s'] has the stores of [s]: what a completion or the start of a PUT
    leaves alone.  The abort request is not among them: a completion that
    ends as [FatalError] raises it, see [abortFollowsCalls]. *)
Record keepsStores (s s' : State) : Prop := mkKeepsStores {
  keeps_anotherSyncNeeded : anotherSyncNeeded s' = anotherSyncNeeded s;
  keeps_folderQuota : folderQuota s' = folderQuota s;
  keeps_uploadInfo : uploadInfo s' = uploadInfo s;
  keeps_conflicts : conflicts s' = conflicts s;
  keeps_pins : pins s' = pins s;
  keeps_fs : fs s' = fs s;
  keeps_now : now s' = now s;
  keeps_items : items s' = items s;
  keeps_checksumsJobs : checksumsJobs s' = checksumsJobs s;
  keeps_computeChecksums : computeChecksums s' = computeChecksums s
}.

(** The abort request after [s'] is that of [s], raised if [propagator()->
    abort()] has been called since: it changes with these calls only. *)
Definition isPropagatorAbort (e : Event) : bool :=
  match e with EvPropagatorAbort => true | _ => false end.
Definition abortFollowsCalls (s s' : State) : Prop :=
  exists t,
    trace s' = trace s ++ t
    /\ abortRequested s' = abortRequested s || existsb isPropagatorAbort t.

(** Events by kind. *)
Definition isJournalWrite (e : Event) : bool :=
  match e with EvSetUploadInfo _ _ => true | _ => false end.
Definition isRename (e : Event) : bool :=
  match e with EvRename _ _ _ => true | _ => false end.
Definition isPinChange (e : Event) : bool :=
  match e with EvSetPinState _ _ _ => true | _ => false end.
Definition isCompletion (e : Event) : bool :=
  match e with EvItemCompleted _ => true | _ => false end.

(** Neither a write of an [UploadInfo] nor a rename nor a pin change. *)
Definition quiet (e : Event) : bool :=
  negb (isJournalWrite e) && negb (isRename e) && negb (isPinChange e).

(** Quiet, and not the completion of an item. *)
Definition silent (e : Event) : bool := quiet e && negb (isCompletion e).

(** [s'] continues the trace of [s] with events that satisfy [P]. *)
Definition continues (P : Event -> bool) (s s' : State) : Prop :=
  exists t, trace s' = trace s ++ t /\ forallb P t = true.

(** [s'] comes from [s] by completing items: the stores, the pending batch
    and the jobs are those of [s], and the trace went on quietly. *)
Definition completes (s s' : State) : Prop :=
  keepsStores s s'
  /\ uploadFileParameters s' = uploadFileParameters s
  /\ jobs s' = jobs s
  /\ nextJob s' = nextJob s
  /\ continues quiet s s'.

(** [s'] has the stores of [s] and went on quietly (the pending batch and
    the jobs may have changed). *)
Definition keepsQuietly (s s' : State) : Prop :=
  keepsStores s s' /\ continues quiet s s'.

(** The statuses of the items announced in a trace. *)
Definition completedStatuses (t : list Event) : list Status :=
  omap (λ e, match e with
             | EvItemCompleted item => Some (SyncFileItem._status item)
             | _ => None
             end) t.

(** The items announced in a trace, in order. *)
Definition completedItems (t : list Event) : list SyncFileItem.t :=
  omap (λ e, match e with EvItemCompleted item => Some item | _ => None end) t.

(** The job reports that it has finished. *)
Definition isFinished (e : Event) : bool :=
  match e with EvFinished _ => true | _ => false end.


(** ** Concrete values for the examples *)

Fixpoint splitAtColon (s : string) : string * string :=
  match s with
  | EmptyString => (EmptyString, EmptyString)
  | String c r =>
      if Ascii.eqb c ":" then (EmptyString, r)
      else let '(a, b) := splitAtColon r in (String c a, b)
  end.

(** A blacklist update that keeps the item as it is. *)
Definition keepItem (bl : gmap string Z) (item : SyncFileItem.t)
    : gmap string Z * Status * string :=
  (bl, SyncFileItem._status item, SyncFileItem._errorString item).

(** A blacklist update that suppresses the error of a file that already has
    a blacklist entry. *)
Definition suppressKnown (bl : gmap string Z) (item : SyncFileItem.t)
    : gmap string Z * Status * string :=
  if SyncFileItem._hasBlacklistEntry item
  then (bl, BlacklistedError, SyncFileItem._errorString item)
  else keepItem bl item.

Definition hostWith (metadata : SyncFileItem.t -> MetadataResult)
    (blacklisting :
       gmap string Z -> SyncFileItem.t -> gmap string Z * Status * string)
    : Host :=
  {| fullLocalPath := λ file, "/sync/" +:+ file;
     fullRemotePath := λ file, "/remote.php/dav/files/me/" +:+ file;
     hasCaseClashAccessibilityProblem := λ _, false;
     updateMetadata := metadata;
     blacklistUpdate := blacklisting;
     classifyError := λ _ _ _, (NormalError, false);
     minimumFileAgeForUpload := 2000;
     supportedChecksumTypes := ["MD5"];
     httpErrorCodesThatResetFailingChunkedUploads := [];
     uploadChecksumEnabled := true;
     parseChecksumHeader := splitAtColon;
     makeChecksumHeader := λ type checksum, type +:+ ":" +:+ checksum;
     parseEtag := λ etag, etag;
     octetsToString := λ n, pretty n +:+ " B";
     toNativeSeparators := λ p, p;
     lazyOps := 0;
     deviceOpen := λ _, None;
     isFileLocked := λ _, false;
     setPinStateOk := λ _, true |}.

Definition exampleHost : Host :=
  hostWith (λ _, MetadataDone PlaceholderOk) keepItem.

(** A host whose metadata update fails for the file "a/two.txt". *)
Definition failingMetadataHost : Host :=
  hostWith (λ item, if bool_decide (SyncFileItem._file item = "a/two.txt")
                    then MetadataFailed "database is locked"
                    else MetadataDone PlaceholderOk) keepItem.

Definition exampleItem (file : string) (size modtime : Z) : SyncFileItem.t :=
  SyncFileItem.mk file EmptyString file size modtime "abc" "fid0" "MD5:0cc1"
    NoStatus EmptyString 0 CSYNC_INSTRUCTION_SYNC false false EmptyString
    EmptyString.

Definition emptyState : State :=
  mkState false false ∅ ∅ ∅ ∅ ∅ ∅ 0 [] [] [] [] ∅ NoStatus NotYetStarted 0
          [].

Definition exampleEntry (file : string) (size modtime : Z)
    : UploadFileParameters :=
  mkParams (exampleItem file size modtime)
    (UploadFileInfo.mk file ("/sync/" +:+ file) size)
    ("/remote.php/dav/files/me/" +:+ file) ("/sync/" +:+ file) size ∅.

Definition replyWithoutFileId : gmap string JsonValue :=
  {["X-File-Path" := JString "a.txt"]}.
Definition replyWithFileId : gmap string JsonValue :=
  <["OC-FileID" := JString "fid1"]> replyWithoutFileId.

(** Two completions, in both orders. *)
Definition quotaThenError : list (SyncFileItem.t * Status * string) :=
  [(exampleItem "big.bin" 10485760 1000, DetailError,
    "Upload of 10 MB exceeds the quota for the folder");
   (exampleItem "a.txt" 100 1000, NormalError, "Poll URL missing")].
Definition errorThenQuota : list (SyncFileItem.t * Status * string) :=
  [(exampleItem "a.txt" 100 1000, NormalError, "Poll URL missing");
   (exampleItem "big.bin" 10485760 1000, DetailError,
    "Upload of 10 MB exceeds the quota for the folder")].

(** A host whose blacklist update suppresses the errors of known files, a
    file with a blacklist entry, and a state with an abort request. *)
Definition suppressingHost : Host :=
  hostWith (λ _, MetadataDone PlaceholderOk) suppressKnown.
Definition knownItem : SyncFileItem.t :=
  SyncFileItem.mk "a.txt" EmptyString "a.txt" 100 1000 "abc" "fid0" "MD5:0cc1"
    NoStatus EmptyString 500 CSYNC_INSTRUCTION_SYNC true false EmptyString
    EmptyString.
Definition abortingState : State := set_abortRequested true emptyState.



(** A file whose name ends in a space, to be renamed to "doc"; it is on
    disk, old enough, and its checksum is known. *)
Definition renameItem : SyncFileItem.t :=
  SyncFileItem.mk "doc " "doc" "doc " 100 1000 "abc" "fid0" "MD5:0cc1"
    NoStatus EmptyString 0 CSYNC_INSTRUCTION_SYNC false false EmptyString
    EmptyString.
Definition renameFile : UploadFileInfo.t :=
  UploadFileInfo.mk "doc " "/sync/doc " 100.
Definition stateWithFiles (files : gmap string FileMeta) (clock : Z) : State :=
  mkState false false ∅ ∅ ∅ ∅ ∅ files clock [] [] [] [] ∅ NoStatus NotYetStarted 0
          [].
Definition renameState : State :=
  stateWithFiles {["/sync/doc " := mkFileMeta 1000 100]} 10000000.
(** The same with the target of the rename taken. *)
Definition renameTakenState : State :=
  stateWithFiles (<["/sync/doc" := mkFileMeta 900 7]>
                    {["/sync/doc " := mkFileMeta 1000 100]}) 10000000.
(** The same with the file gone. *)
Definition renameGoneState : State := stateWithFiles ∅ 10000000.

(** A file modified exactly ten seconds after now. *)
Definition futureItem : SyncFileItem.t := exampleItem "a.txt" 100 1010.
Definition futureFile : UploadFileInfo.t :=
  UploadFileInfo.mk "a.txt" "/sync/a.txt" 100.
Definition futureState : State :=
  stateWithFiles {["/sync/a.txt" := mkFileMeta 1010 100]} 1000000.
(** A file modified one second ago, and one modified an hour from now. *)
Definition youngState : State :=
  stateWithFiles {["/sync/a.txt" := mkFileMeta 1010 100]} 1011000.
Definition farFutureState : State :=
  stateWithFiles {["/sync/a.txt" := mkFileMeta 1010 100]} 0.

(** A batch of three uploads into the folder "a" with a known quota; the
    metadata update of the second fails under [failingMetadataHost]. *)
Definition threeFiles : list UploadFileParameters :=
  [exampleEntry "a/one.txt" 100 1000; exampleEntry "a/two.txt" 200 1000;
   exampleEntry "a/three.txt" 300 1000].
Definition threeFilesState : State :=
  set_folderQuota {["a" := 1000]}
    (set_uploadFileParameters threeFiles (stateWithFiles ∅ 10000000)).

(** A batch of two uploads whose PUT is job 0, and the reply of a PUT that
    failed with an internal server error. *)
Definition twoFilesState : State :=
  set_jobs [0%nat]
    (set_nextJob 1%nat
       (set_uploadFileParameters
          [exampleEntry "a.txt" 100 1000; exampleEntry "b.txt" 200 1000]
          (stateWithFiles
             (<["/sync/b.txt" := mkFileMeta 1000 200]>
                {["/sync/a.txt" := mkFileMeta 1000 100]}) 10000000))).
Definition serverErrorReply : PutReply :=
  mkPutReply 500 (NetError 401) "Thu, 01 Jan 2026 00:00:00 GMT" "req-1"
    "Internal Server Error" "<d:error/>" [].

(** ** Further notions *)

(** The events [done] can make. *)
Definition isDoneEvent (e : Event) : bool :=
  match e with
  | EvBlacklistUpdate _ | EvWipeErrorBlacklistEntry _ | EvPropagatorAbort
  | EvItemCompleted _ => true
  | _ => false
  end.

Definition isPutStart (e : Event) : bool :=
  match e with EvPutStart _ _ => true | _ => false end.

(** [item'] is [item] but for its status and error string. *)
Definition sameButOutcome (item item' : SyncFileItem.t) : Prop :=
  item'
  = SyncFileItem.with_errorString (SyncFileItem._errorString item')
      (SyncFileItem.with_status (SyncFileItem._status item') item).

(** [s'] has the queue and the settings of [s]: what the steps before an
    upload leave alone. *)
Record keepsQueue (s s' : State) : Prop := mkKeepsQueue {
  queue_items : items s' = items s;
  queue_folderQuota : folderQuota s' = folderQuota s;
  queue_pins : pins s' = pins s;
  queue_conflicts : conflicts s' = conflicts s;
  queue_now : now s' = now s
}.

(** The item as [done] hands it to [handleBlackList] when no abort request
    changes its status. *)
Definition presented (item : SyncFileItem.t) (status : Status)
    (errorString : string) : SyncFileItem.t :=
  handleFileRestoration
    (SyncFileItem.with_errorString errorString
       (SyncFileItem.with_status status item)) errorString.

(** The item as [done] leaves it after the blacklist update of [s] has
    looked at [seen]. *)
Definition afterBlacklistUpdate (H : Host) (s : State) (seen : SyncFileItem.t)
    : SyncFileItem.t :=
  SyncFileItem.with_errorString (blacklistUpdate H (blacklist s) seen).2
    (SyncFileItem.with_status (blacklistUpdate H (blacklist s) seen).1.2 seen).



(** The item of an entry once [slotPutFinished] has noted the status code,
    the time stamp and the request id of the reply on it. *)
Definition respondedItem (reply : PutReply) (item : SyncFileItem.t)
    : SyncFileItem.t :=
  SyncFileItem.with_response (responseTimestamp reply) (requestId reply)
    (SyncFileItem.with_httpErrorCode (to_quint16 (httpStatusCode reply)) item).

(** The reply with [body] for its body, and the reply once its body has
    been read: the status, the error, the time stamp and the request id are
    as before, and nothing is left to read. *)
Definition withBody (body : list (gmap string JsonValue)) (reply : PutReply)
    : PutReply :=
  mkPutReply (httpStatusCode reply) (networkError reply)
    (responseTimestamp reply) (requestId reply)
    (errorStringParsingBody reply) (replyContent reply) body.
Definition drained (reply : PutReply) : PutReply := withBody [] reply.

(** The etag the reply carries for [item]. *)
Definition replyEtag (H : Host) (reply : PutReply) (item : SyncFileItem.t)
    : string :=
  getEtagFromJsonReply H
    (findFileReply (replyArray reply) (SyncFileItem._file item)).

(** The local file of [item] is gone, or is not as the item describes it. *)
Definition localFileOff (H : Host) (files : gmap string FileMeta)
    (item : SyncFileItem.t) : bool :=
  negb (fileExists files (fullLocalPath H (SyncFileItem._file item)))
  || negb (verifyFileUnchanged files
             (fullLocalPath H (SyncFileItem._file item))
             (SyncFileItem._size item) (SyncFileItem._modtime item)).

(** The two checks of [slotPutFinished] after the upload let the entry
    through: the reply carries an etag for it, or its local file is there
    and unchanged. *)
Definition replyAccepted (H : Host) (files : gmap string FileMeta)
    (reply : PutReply) (oneFile : UploadFileParameters) : bool :=
  negb (isEmpty (replyEtag H reply (_item oneFile)))
  || negb (localFileOff H files (_item oneFile)).

(** The entry as the loop of [slotPutFinished] leaves it when the reply is
    accepted: code, time stamp and request id noted, the file id of the
    reply taken if there is one, the etag of the reply taken. *)
Definition acceptedEntry (H : Host) (reply : PutReply)
    (oneFile : UploadFileParameters) : UploadFileParameters :=
  let item := respondedItem reply (_item oneFile) in
  let fileReply := findFileReply (replyArray reply) (SyncFileItem._file item) in
  let fid := getHeaderFromJsonReply fileReply "OC-FileID" in
  with_item
    (SyncFileItem.with_etag (getEtagFromJsonReply H fileReply)
       (if negb (isEmpty fid) then SyncFileItem.with_fileId fid item else item))
    oneFile.

(** The loop of [slotPutFinished] reads the body of the reply in every
    turn, and a reply is read once: the first entry of the batch is checked
    against the reply, the entries behind it against the drained reply. *)
Definition batchAccepted (H : Host) (files : gmap string FileMeta)
    (reply : PutReply) (batch : list UploadFileParameters) : bool :=
  match batch with
  | [] => true
  | first :: rest =>
      replyAccepted H files reply first
      && forallb (replyAccepted H files (drained reply)) rest
  end.
Definition acceptedBatch (H : Host) (reply : PutReply)
    (batch : list UploadFileParameters) : list UploadFileParameters :=
  match batch with
  | [] => []
  | first :: rest =>
      acceptedEntry H reply first :: map (acceptedEntry H (drained reply)) rest
  end.

(** The entry of a file behind the first, once the loop has let it through:
    code, time stamp and request id noted, and the etag an empty reply
    object gives. *)
Definition passedOver (H : Host) (reply : PutReply)
    (oneFile : UploadFileParameters) : UploadFileParameters :=
  with_item
    (SyncFileItem.with_etag (getEtagFromJsonReply H ∅)
       (respondedItem reply (_item oneFile)))
    oneFile.

(** [s1] is [s] after replies were taken in: no item was completed and the
    journal, the quota, the files and the final status are those of [s]. *)
Record repliesTakenIn (s s1 : State) : Prop := mkRepliesTakenIn {
  taken_uploadInfo : uploadInfo s1 = uploadInfo s;
  taken_folderQuota : folderQuota s1 = folderQuota s;
  taken_fs : fs s1 = fs s;
  taken_blacklist : blacklist s1 = blacklist s;
  taken_pins : pins s1 = pins s;
  taken_finalStatus : finalStatus s1 = finalStatus s;
  taken_items : items s1 = items s;
  taken_abortRequested : abortRequested s1 = abortRequested s;
  taken_checksumsJobs : checksumsJobs s1 = checksumsJobs s;
  taken_completed : completedItems (trace s1) = completedItems (trace s);
  taken_nextJob : nextJob s1 = nextJob s
}.

(** A reply that answers both files of [twoFilesState]. *)
Definition okReply : PutReply :=
  mkPutReply 200 NoError "Thu, 01 Jan 2026 00:00:00 GMT" "req-2" EmptyString
    EmptyString
    [<["OC-ETag" := JString "e-b"]> {["X-File-Path" := JString "b.txt"]};
     <["OC-FileID" := JString "fid-a"]>
       (<["OC-ETag" := JString "e-a"]> {["X-File-Path" := JString "a.txt"]})].

(** The entry as [triggerUpload] leaves it once its device is open: its
    headers name the remote path. *)
Definition stamped (oneFile : UploadFileParameters) : UploadFileParameters :=
  with_headers (<["X-File-Path" := _remotePath oneFile]> (_headers oneFile))
    oneFile.


Definition notPutStart (e : Event) : bool := negb (isPutStart e).

(** [r] comes from [s] without a PUT being started: [_jobs] is as in [s],
    the trace went on without the start of a PUT, and a content checksum is
    still registered in [_checksumsJobs]. *)
Record holdsBackUpload (s r : State) : Prop := mkHoldsBackUpload {
  held_jobs : jobs r = jobs s;
  held_trace : continues notPutStart s r;
  held_checksumsJobs : checksumsJobs r <> []
}.

(** The content checksum of "a.txt" is being computed by job 5; nothing is
    in the batch yet. *)
Definition hashingState : State :=
  set_checksumsJobs [5%nat]
    (set_computeChecksums
       {[5%nat := mkComputeChecksum ContentChecksum
                    (exampleItem "a.txt" 100 1000)
                    (UploadFileInfo.mk "a.txt" "/sync/a.txt" 100)]}
       (set_nextJob 6%nat
          (stateWithFiles {["/sync/a.txt" := mkFileMeta 1000 100]} 10000000))).

(** A reply with status 202 that names a poll URL for "a.txt". *)
Definition pollReply : PutReply :=
  mkPutReply 202 NoError "Thu, 01 Jan 2026 00:00:00 GMT" "req-3" EmptyString
    EmptyString
    [<["OC-JobStatus-Location" := JString "/poll/17"]>
       {["X-File-Path" := JString "a.txt"]}].

(** The item as [done] announces it after a successful upload: [Success],
    or [Restoration] for a restoration, and no error string. *)
Definition succeeded (item : SyncFileItem.t) : SyncFileItem.t :=
  SyncFileItem.with_errorString EmptyString
    (SyncFileItem.with_status
       (if SyncFileItem._isRestoration item then Restoration else Success)
       item).

(** The entry of the batch once [finalize] is through with it. *)
Definition finalized (oneFile : UploadFileParameters) : UploadFileParameters :=
  with_item (succeeded (_item oneFile)) oneFile.

(** The paths of the items of a batch. *)
Definition batchFiles (l : list UploadFileParameters) : list string :=
  map (λ p, SyncFileItem._file (_item p)) l.

(** Not an event of [finalize]: neither a metadata update nor the
    [finished] signal nor the call of [scheduleNextJob]. *)
Definition notFinalizing (e : Event) : bool :=
  match e with
  | EvUpdateMetadata _ | EvFinished _ | EvScheduleNextJob => false
  | _ => true
  end.


(** The headers of the part that [doStartUpload] and [triggerUpload] build
    for an upload: those of [headers], then the length, the transmission
    checksum and the remote path. *)
Definition partHeaders (s : State) (H : Host) (item : SyncFileItem.t)
    (fileToUpload : UploadFileInfo.t) (transmissionChecksum : string)
    : gmap string string :=
  <["X-File-Path" := fullRemotePath H (UploadFileInfo._file fileToUpload)]>
    (<["X-File-MD5" := transmissionChecksum]>
       (<["Content-Length" := pretty (UploadFileInfo._size fileToUpload)]>
          (headers s H item))).

(** An item whose checksum header is not an MD5 checksum. *)
Definition sha1Item : SyncFileItem.t :=
  SyncFileItem.with_checksumHeader "SHA1:9a0b" (exampleItem "a.txt" 100 1000).

(** * The job as a whole

    The signals the job answers, as far as the slots they reach are
    modelled: the call of [scheduleSelfOrChild] by the propagator, the end
    of a PUT, the result and the end of a checksum object, the end of a
    network job. *)
Inductive Signal : Type :=
  | ScheduleSelfOrChild
  | PutFinished (job : nat) (reply : PutReply)
  | ChecksumDone (job : nat) (checksumType checksum : string)
  | ChecksumDestroyed (job : nat)
  | JobDestroyed (job : nat).

Definition handle (H : Host) (s : State) (signal : Signal) : State :=
  match signal with
  | ScheduleSelfOrChild => snd (scheduleSelfOrChild H s)
  | PutFinished job reply => slotPutFinished H s job reply
  | ChecksumDone job checksumType checksum =>
      computeChecksum_done H s job checksumType checksum
  | ChecksumDestroyed job => computeChecksum_destroyed s job
  | JobDestroyed job => slotJobDestroyed job s
  end.

(** The state after a sequence of signals. *)
Definition run (H : Host) (s : State) (signals : list Signal) : State :=
  foldl (handle H) s signals.

(** [r] is further on than [s]: a request for another sync has not been
    withdrawn, [_items] has lost items at its front and gained none, and an
    abort request has not been withdrawn either. *)
Record movesOn (s r : State) : Prop := mkMovesOn {
  moves_anotherSyncNeeded :
    anotherSyncNeeded s = true -> anotherSyncNeeded r = true;
  moves_items : exists n, items r = drop n (items s);
  moves_abortRequested : abortRequested s = true -> abortRequested r = true
}.

(** The files of the batch of [s] are still in the batch of [r], at the
    same places; files may have been appended. *)
Definition extendsBatch (s r : State) : Prop :=
  exists l,
    map _fileToUpload (uploadFileParameters r)
    = map _fileToUpload (uploadFileParameters s) ++ l.

Definition carriesOn (s r : State) : Prop := movesOn s r /\ extendsBatch s r.

(** * The profile page (gui/profilepagewidget.cpp)

    The widget shows one row per action of the hovercard, an icon and a
    button.  Of the Qt objects the model keeps what the code of the file
    decides: which items [_mainLayout] holds, in order, and which pixmap
    each label of [_profilePageButtonIcons] shows.  A row holds the label
    that was pushed to the vector when the row was made; the model names
    it by its position in the vector.  Size policies and spacing are left
    out.  The hovercard is read from the connector each time, so it is an
    argument of the functions that read it. *)
Module ProfilePageWidget.

Definition Pixmap : Type := string.

(** [HovercardAction] (ocsprofileconnector.h), the fields the widget
    reads. *)
Record HovercardAction : Type := mkHovercardAction {
  _title : string;
  _link : string;
  _icon : Pixmap
}.

Inductive LayoutItem : Type :=
  | Row (icon : nat) (buttonText buttonLink : string)
  | Label (text : string).

Record t : Type := mk {
  _mainLayout : list LayoutItem;
  _profilePageButtonIcons : list Pixmap
}.

Definition resetLayout (w : t) : t := mk [] [].

Fixpoint displayHovercardActions (hovercardActions : list HovercardAction)
    (w : t) : t :=
  match hovercardActions with
  | [] => w
  | hovercardAction :: rest =>
      let icon := length (_profilePageButtonIcons w) in
      displayHovercardActions rest
        (mk (_mainLayout w
             ++ [Row icon (_title hovercardAction) (_link hovercardAction)])
            (_profilePageButtonIcons w ++ [_icon hovercardAction]))
  end.

Definition displayNoHovercardActions (w : t) : t :=
  mk (_mainLayout w ++ [Label "No profile actions available!"])
     (_profilePageButtonIcons w).

Definition createLayout (hovercard : list HovercardAction) (w : t) : t :=
  match hovercard with
  | [] => displayNoHovercardActions w
  | _ :: _ => displayHovercardActions hovercard w
  end.

Definition recreateLayout (hovercard : list HovercardAction) (w : t) : t :=
  createLayout hovercard (resetLayout w).

Definition onHovercardFetched (hovercard : list HovercardAction) (w : t) : t :=
  recreateLayout hovercard w.

(** [None]: the index is within [_profilePageButtonIcons] but not within
    the actions of the hovercard, whose vector the source then reads out of
    range. *)
Definition onIconLoaded (hovercard : list HovercardAction)
    (hovercardActionIndex : nat) (w : t) : option t :=
  if bool_decide (length (_profilePageButtonIcons w) <= hovercardActionIndex)%nat
  then Some w
  else
    match hovercard !! hovercardActionIndex with
    | Some hovercardAction =>
        Some (mk (_mainLayout w)
                (<[hovercardActionIndex := _icon hovercardAction]>
                   (_profilePageButtonIcons w)))
    | None => None
    end.

(** A hovercard of two actions, and the same once the icon of the second
    has been loaded. *)
Definition exampleHovercard : list HovercardAction :=
  [mkHovercardAction "View profile" "https://cloud.example/u/me" "blank";
   mkHovercardAction "Talk" "https://cloud.example/call/me" "blank"].
Definition loadedHovercard : list HovercardAction :=
  [mkHovercardAction "View profile" "https://cloud.example/u/me" "blank";
   mkHovercardAction "Talk" "https://cloud.example/call/me" "talk.svg"].

End ProfilePageWidget.

(** * Properties *)

(** ** What a completion leaves alone *)

Lemma keepsStores_refl s : keepsStores s s.
Proof. constructor; reflexivity. Qed.

Lemma keepsStores_trans s1 s2 s3 :
  keepsStores s1 s2 -> keepsStores s2 s3 -> keepsStores s1 s3.
Proof. intros [] []. constructor; congruence. Qed.

Lemma continues_refl P s : continues P s s.
Proof. exists []. rewrite app_nil_r. split; reflexivity. Qed.

Lemma continues_same P s s' : trace s' = trace s -> continues P s s'.
Proof. intros E. exists []. rewrite app_nil_r. split; [exact E|reflexivity]. Qed.

Lemma continues_trans P s1 s2 s3 :
  continues P s1 s2 -> continues P s2 s3 -> continues P s1 s3.
Proof.
  intros (t1 & E1 & F1) (t2 & E2 & F2). exists (t1 ++ t2).
  rewrite E2, E1, <- app_assoc. split; [reflexivity|].
  rewrite forallb_app, F1, F2. reflexivity.
Qed.

Lemma continues_emit (P : Event -> bool) e s :
  P e = true -> continues P s (emit e s).
Proof.
  intros HP. exists [e]. split; [reflexivity|]. cbn. rewrite HP. reflexivity.
Qed.

Lemma continues_weaken (P Q : Event -> bool) s s' :
  (forall e, P e = true -> Q e = true) -> continues P s s' -> continues Q s s'.
Proof.
  intros HPQ (t & E & F). exists t. split; [assumption|].
  rewrite forallb_forall in *. intros e He. apply HPQ, F, He.
Qed.

Lemma completes_refl s : completes s s.
Proof.
  repeat split; try reflexivity. apply continues_refl.
Qed.

Lemma completes_trans s1 s2 s3 :
  completes s1 s2 -> completes s2 s3 -> completes s1 s3.
Proof.
  intros (K1 & U1 & J1 & N1 & C1) (K2 & U2 & J2 & N2 & C2).
  split; [eapply keepsStores_trans; eassumption|].
  repeat split; try congruence. eapply continues_trans; eassumption.
Qed.

Lemma completes_emit e s : quiet e = true -> completes s (emit e s).
Proof.
  intros Hq. split; [constructor; reflexivity|].
  repeat split. apply continues_emit, Hq.
Qed.

Lemma completes_set_blacklist bl s : completes s (set_blacklist bl s).
Proof.
  split; [constructor; reflexivity|]. repeat split.
  apply continues_same. reflexivity.
Qed.

Lemma completes_set_abortRequested b s :
  completes s (set_abortRequested b s).
Proof.
  split; [constructor; reflexivity|]. repeat split.
  apply continues_same. reflexivity.
Qed.

Lemma completes_set_finalStatus st s : completes s (set_finalStatus st s).
Proof.
  split; [constructor; reflexivity|]. repeat split.
  apply continues_same. reflexivity.
Qed.

Lemma wipeErrorBlacklistEntry_completes file s :
  completes s (wipeErrorBlacklistEntry file s).
Proof.
  unfold wipeErrorBlacklistEntry.
  eapply completes_trans; [apply completes_set_blacklist|].
  apply completes_emit. reflexivity.
Qed.

Lemma handleBlackList_completes H s item :
  completes s (fst (handleBlackList H s item)).
Proof.
  unfold handleBlackList.
  destruct (SyncFileItem._status item);
    try destruct (blacklistUpdate H (blacklist s) item) as [[bl st] err];
    try destruct (SyncFileItem._hasBlacklistEntry item);
    try case_bool_decide; cbn [fst];
    try apply completes_refl;
    try (eapply completes_trans; [|apply completes_set_blacklist];
         apply completes_emit; reflexivity);
    try (eapply completes_trans; apply wipeErrorBlacklistEntry_completes);
    try apply wipeErrorBlacklistEntry_completes.
Qed.

Lemma handleJobDoneErrors_completes s item status :
  completes s (handleJobDoneErrors s item status).
Proof.
  unfold handleJobDoneErrors, propagator_abort.
  destruct (SyncFileItem._status item); case_bool_decide; try discriminate;
    try apply completes_refl;
    try apply completes_set_finalStatus;
    try (eapply completes_trans; [|apply completes_set_finalStatus];
         eapply completes_trans; [apply completes_set_abortRequested|];
         apply completes_emit; reflexivity).
Qed.

Lemma done_completes H s item status errorString :
  completes s (fst (done H s item status errorString)).
Proof.
  unfold done.
  match goal with
  | |- context [handleBlackList H s ?i] =>
      pose proof (handleBlackList_completes H s i) as Hb;
      destruct (handleBlackList H s i) as [s1 i1]
  end.
  cbn [fst] in *.
  eapply completes_trans; [exact Hb|].
  eapply completes_trans; [apply handleJobDoneErrors_completes|].
  apply completes_emit. reflexivity.
Qed.

(** The abort request after [done]: it is raised exactly when the item ends
    as [FatalError], which is when [propagator()->abort()] is called. *)
Lemma done_abortRequested H s item status errorString :
  abortRequested (fst (done H s item status errorString))
  = abortRequested s
    || bool_decide
         (SyncFileItem._status (snd (done H s item status errorString))
          = FatalError).
Proof.
  unfold done.
  assert (Hb : forall i, abortRequested (fst (handleBlackList H s i))
                         = abortRequested s).
  { intros i. unfold handleBlackList.
    destruct (SyncFileItem._status i);
      try destruct (blacklistUpdate H (blacklist s) i) as [[bl st] err];
      try destruct (SyncFileItem._hasBlacklistEntry i);
      try case_bool_decide; reflexivity. }
  match goal with
  | |- context [handleBlackList H s ?i] =>
      specialize (Hb i); destruct (handleBlackList H s i) as [s1 i1]
  end.
  cbn [fst snd] in *. cbn [abortRequested emit set_trace].
  unfold handleJobDoneErrors, propagator_abort.
  destruct (SyncFileItem._status i1); case_bool_decide; try discriminate;
    try contradiction; cbn; rewrite ?Hb, ?orb_true_r, ?orb_false_r;
    reflexivity.
Qed.






Lemma abortFollowsCalls_raised s r :
  abortFollowsCalls s r -> abortRequested s = true -> abortRequested r = true.
Proof. intros (t & _ & A) Hs. rewrite A, Hs. reflexivity. Qed.



(** ** What the start of an upload leaves alone *)

Lemma abortWithError_completes H s item status error :
  completes s (fst (abortWithError H s item status error)).
Proof.
  unfold abortWithError.
  eapply completes_trans; [|apply done_completes].
  apply completes_emit. reflexivity.
Qed.

Lemma keepsQuietly_refl s : keepsQuietly s s.
Proof. split; [apply keepsStores_refl|apply continues_refl]. Qed.

Lemma keepsQuietly_trans s1 s2 s3 :
  keepsQuietly s1 s2 -> keepsQuietly s2 s3 -> keepsQuietly s1 s3.
Proof.
  intros [K1 C1] [K2 C2].
  split; [eapply keepsStores_trans|eapply continues_trans]; eassumption.
Qed.

Lemma completes_keepsQuietly s s' : completes s s' -> keepsQuietly s s'.
Proof. intros (K & _ & _ & _ & C). split; assumption. Qed.

Lemma keepsQuietly_emit e s : quiet e = true -> keepsQuietly s (emit e s).
Proof. intros Hq. apply completes_keepsQuietly, completes_emit, Hq. Qed.

Lemma keepsQuietly_batch l s : keepsQuietly s (set_uploadFileParameters l s).
Proof.
  split; [constructor; reflexivity|apply continues_same; reflexivity].
Qed.

Lemma keepsQuietly_jobs l s : keepsQuietly s (set_jobs l s).
Proof.
  split; [constructor; reflexivity|apply continues_same; reflexivity].
Qed.

Lemma keepsQuietly_nextJob n s : keepsQuietly s (set_nextJob n s).
Proof.
  split; [constructor; reflexivity|apply continues_same; reflexivity].
Qed.

Lemma openDevices_files H todo :
  map _fileToUpload
    ((openDevices H todo).1.1
     ++ match (openDevices H todo).2 with
        | Some (oneFile, _, rest) => oneFile :: rest
        | None => []
        end)
  = map _fileToUpload todo.
Proof.
  induction todo as [|oneFile rest IH]; [reflexivity|].
  cbn [openDevices]. destruct (deviceOpen H (_localPath oneFile)) as [err|].
  - reflexivity.
  - destruct (openDevices H rest) as [[passed parts] failure].
    cbn [fst snd] in *. cbn [app map]. rewrite IH. reflexivity.
Qed.

Lemma triggerUpload_keeps H s :
  keepsQuietly s (triggerUpload H s)
  /\ map _fileToUpload (uploadFileParameters (triggerUpload H s))
     = map _fileToUpload (uploadFileParameters s).
Proof.
  unfold triggerUpload.
  pose proof (openDevices_files H (uploadFileParameters s)) as Hf.
  destruct (openDevices H (uploadFileParameters s))
    as [[passed parts] [[[oneFile err] rest]|]]; cbn [fst snd] in Hf.
  - match goal with
    | |- context [abortWithError H ?s0 ?i ?st ?e] =>
        pose proof (abortWithError_completes H s0 i st e) as Ha;
        destruct (abortWithError H s0 i st e) as [s1 i1]
    end.
    cbn [fst] in Ha. split.
    + eapply keepsQuietly_trans; [|apply keepsQuietly_batch].
      eapply keepsQuietly_trans; [|apply completes_keepsQuietly, Ha].
      destruct (isFileLocked H (_localPath oneFile));
        [apply keepsQuietly_emit; reflexivity|apply keepsQuietly_refl].
    + cbn [uploadFileParameters set_uploadFileParameters].
      rewrite <- Hf, !map_app. reflexivity.
  - split.
    + eapply keepsQuietly_trans; [|apply keepsQuietly_emit; reflexivity].
      eapply keepsQuietly_trans; [|apply keepsQuietly_jobs].
      eapply keepsQuietly_trans; [|apply keepsQuietly_nextJob].
      apply keepsQuietly_batch.
    + cbn. rewrite <- Hf, app_nil_r. reflexivity.
Qed.

Lemma attachFile_keeps H s item fileToUpload fileSize currentHeaders h :
  keepsQuietly s (attachFile H s item fileToUpload fileSize currentHeaders h)
  /\ map _fileToUpload
       (uploadFileParameters
          (attachFile H s item fileToUpload fileSize currentHeaders h))
     = map _fileToUpload (uploadFileParameters s) ++ [fileToUpload].
Proof.
  unfold attachFile. cbv zeta.
  match goal with
  | |- context [match checksumsJobs ?s1 with _ => _ end] => set (s1' := s1)
  end.
  assert (Hs1 : keepsQuietly s s1') by apply keepsQuietly_batch.
  assert (Hu : map _fileToUpload (uploadFileParameters s1')
               = map _fileToUpload (uploadFileParameters s) ++ [fileToUpload]).
  { subst s1'. cbn. rewrite map_app. reflexivity. }
  destruct (checksumsJobs s1').
  - destruct (triggerUpload_keeps H s1') as [Hk Hm]. split.
    + eapply keepsQuietly_trans; eassumption.
    + rewrite Hm. exact Hu.
  - split; assumption.
Qed.

Lemma continues_cons (P : Event -> bool) s s1 s' l :
  trace s1 = trace s ++ l -> continues P s1 s' ->
  exists t', forallb P t' = true /\ trace s' = trace s ++ l ++ t'.
Proof.
  intros E (t & Et & Ft). exists t. split; [exact Ft|].
  rewrite Et, E, <- app_assoc. reflexivity.
Qed.

Lemma doStartUpload_spec H s item fileToUpload h :
  abortRequested s = false ->
  let src := fullLocalPath H (SyncFileItem._file item) in
  let dst := fullLocalPath H (SyncFileItem._renameTarget item) in
  let renamed := QFile_rename (fs s) src dst in
  let r := doStartUpload H s item fileToUpload h in
  uploadInfo r
  = <[SyncFileItem._file item := committedRecord item]> (uploadInfo s)
  /\ (exists t', forallb quiet t' = true
      /\ trace r
         = trace s
           ++ [EvSetUploadInfo (SyncFileItem._file item) (committedRecord item);
               EvCommit "Upload info"]
           ++ (if wantsRename item
               then [EvRename src dst (bool_decide (is_Some renamed))]
               else [])
           ++ t')
  /\ map _fileToUpload (uploadFileParameters r)
     = map _fileToUpload (uploadFileParameters s)
       ++ (if wantsRename item
           then match renamed with
                | Some _ =>
                    [UploadFileInfo.mk (SyncFileItem._renameTarget item) dst
                       (UploadFileInfo._size fileToUpload)]
                | None => []
                end
           else [fileToUpload])
  /\ folderQuota r = folderQuota s
  /\ anotherSyncNeeded r = anotherSyncNeeded s.
Proof.
  intros Habort src dst renamed r. subst r. unfold doStartUpload.
  rewrite Habort. cbv zeta. fold (wantsRename item).
  fold (committedRecord item). fold src. fold dst.
  set (s1 := commit "Upload info"
               (setUploadInfo (SyncFileItem._file item) (committedRecord item)
                  s)).
  assert (Et : trace s1
               = trace s
                 ++ [EvSetUploadInfo (SyncFileItem._file item)
                       (committedRecord item); EvCommit "Upload info"]).
  { subst s1. cbn. rewrite <- app_assoc. reflexivity. }
  destruct (wantsRename item).
  - change (fs s1) with (fs s). fold renamed.
    destruct renamed as [files|].
    + match goal with
      | |- context [attachFile H ?s2 ?i ?f ?sz ?hd ?hh] =>
          destruct (attachFile_keeps H s2 i f sz hd hh) as [[K C] Hm];
          set (r := attachFile H s2 i f sz hd hh) in *
      end.
      split; [|split; [|split; [|split]]].
      * rewrite (keeps_uploadInfo _ _ K). reflexivity.
      * destruct C as (t & E & F). exists t. split; [exact F|].
        rewrite E. cbn [trace emit set_trace set_fs].
        rewrite Et. rewrite <- !app_assoc. reflexivity.
      * rewrite Hm. reflexivity.
      * rewrite (keeps_folderQuota _ _ K). reflexivity.
      * rewrite (keeps_anotherSyncNeeded _ _ K). reflexivity.
    + match goal with
      | |- context [done H ?s2 ?i ?st ?e] =>
          destruct (done_completes H s2 i st e) as (K & U & _ & _ & C);
          set (r := fst (done H s2 i st e)) in *
      end.
      split; [|split; [|split; [|split]]].
      * rewrite (keeps_uploadInfo _ _ K). reflexivity.
      * destruct C as (t & E & F). exists t. split; [exact F|].
        rewrite E. cbn [trace emit set_trace].
        rewrite Et. rewrite <- !app_assoc. reflexivity.
      * rewrite U, app_nil_r. reflexivity.
      * rewrite (keeps_folderQuota _ _ K). reflexivity.
      * rewrite (keeps_anotherSyncNeeded _ _ K). reflexivity.
  - match goal with
    | |- context [attachFile H ?s2 ?i ?f ?sz ?hd ?hh] =>
        destruct (attachFile_keeps H s2 i f sz hd hh) as [[K C] Hm];
        set (r := attachFile H s2 i f sz hd hh) in *
    end.
    split; [|split; [|split; [|split]]].
    + rewrite (keeps_uploadInfo _ _ K). reflexivity.
    + destruct C as (t & E & F). exists t. split; [exact F|].
      rewrite E, Et. rewrite <- !app_assoc. reflexivity.
    + rewrite Hm. reflexivity.
    + rewrite (keeps_folderQuota _ _ K). reflexivity.
    + rewrite (keeps_anotherSyncNeeded _ _ K). reflexivity.
Qed.

(** ** The pending batch is not read by a completion *)

Lemma handleBlackList_set_batch H l s item :
  handleBlackList H (set_uploadFileParameters l s) item
  = (set_uploadFileParameters l (fst (handleBlackList H s item)),
     snd (handleBlackList H s item)).
Proof.
  unfold handleBlackList.
  change (blacklist (set_uploadFileParameters l s)) with (blacklist s).
  destruct (SyncFileItem._status item);
    try destruct (blacklistUpdate H (blacklist s) item) as [[bl st] err];
    try destruct (SyncFileItem._hasBlacklistEntry item);
    try case_bool_decide; reflexivity.
Qed.

Lemma handleJobDoneErrors_set_batch l s item status :
  handleJobDoneErrors (set_uploadFileParameters l s) item status
  = set_uploadFileParameters l (handleJobDoneErrors s item status).
Proof.
  unfold handleJobDoneErrors.
  destruct (SyncFileItem._status item); case_bool_decide; reflexivity.
Qed.

Lemma done_set_batch H l s item status errorString :
  done H (set_uploadFileParameters l s) item status errorString
  = (set_uploadFileParameters l (fst (done H s item status errorString)),
     snd (done H s item status errorString)).
Proof.
  unfold done.
  change (abortRequested (set_uploadFileParameters l s))
    with (abortRequested s).
  rewrite handleBlackList_set_batch.
  match goal with
  | |- context [handleBlackList H s ?i] =>
      destruct (handleBlackList H s i) as [s1 i1]
  end.
  cbn [fst snd]. rewrite handleJobDoneErrors_set_batch. reflexivity.
Qed.

Lemma finalizeFile_set_batch H l oneFile s :
  finalizeFile H oneFile (set_uploadFileParameters l s)
  = (set_uploadFileParameters l (finalizeFile H oneFile s).1.1,
     (finalizeFile H oneFile s).1.2, (finalizeFile H oneFile s).2).
Proof.
  unfold finalizeFile. cbv zeta.
  assert (Hd : decrementQuota oneFile (set_uploadFileParameters l s)
               = set_uploadFileParameters l (decrementQuota oneFile s)).
  { unfold decrementQuota. cbn [folderQuota set_uploadFileParameters].
    destruct (folderQuota s !! _); reflexivity. }
  rewrite Hd.
  assert (Hp : forall s0, adjustPinState H (_item oneFile)
                 (set_uploadFileParameters l s0)
               = set_uploadFileParameters l
                   (adjustPinState H (_item oneFile) s0)).
  { intros s0. unfold adjustPinState.
    cbn [pins set_uploadFileParameters].
    destruct (_ || _); [|reflexivity].
    destruct (pins s0 !! _) as [[]|]; try reflexivity.
    destruct (setPinStateOk H _); reflexivity. }
  destruct (updateMetadata H (_item oneFile)) as [error|[]].
  - change (emit ?e (set_uploadFileParameters l ?s0))
      with (set_uploadFileParameters l (emit e s0)).
    rewrite done_set_batch.
    destruct (done H _ _ _ _) as [s1 i1]. reflexivity.
  - change (emit ?e (set_uploadFileParameters l ?s0))
      with (set_uploadFileParameters l (emit e s0)).
    rewrite Hp.
    change (commit ?t (setUploadInfo ?f ?u (set_uploadFileParameters l ?s0)))
      with (set_uploadFileParameters l (commit t (setUploadInfo f u s0))).
    rewrite done_set_batch.
    destruct (done H _ _ _ _) as [s1 i1]. reflexivity.
  - change (emit ?e (set_uploadFileParameters l ?s0))
      with (set_uploadFileParameters l (emit e s0)).
    rewrite Hp.
    change (commit ?t (setUploadInfo ?f ?u (set_uploadFileParameters l ?s0)))
      with (set_uploadFileParameters l (commit t (setUploadInfo f u s0))).
    rewrite done_set_batch.
    destruct (done H _ _ _ _) as [s1 i1]. reflexivity.
  - change (emit ?e (set_uploadFileParameters l ?s0))
      with (set_uploadFileParameters l (emit e s0)).
    rewrite done_set_batch.
    destruct (done H _ _ _ _) as [s1 i1]. reflexivity.
Qed.

(** ** The header assembler *)

Lemma headers_If_Match_lookup s H item :
  headers s H item !! "If-Match"
  = if decide (sendsIfMatch item)
    then Some (dquote +:+ SyncFileItem._etag item +:+ dquote) else None.
Proof.
  assert (Hc : (negb (isEmpty (SyncFileItem._etag item))
       && bool_decide (SyncFileItem._etag item <> "empty_etag")
       && bool_decide (SyncFileItem._instruction item <> CSYNC_INSTRUCTION_NEW)
       && bool_decide (SyncFileItem._instruction item
                       <> CSYNC_INSTRUCTION_TYPE_CHANGE))%bool
      = bool_decide (sendsIfMatch item)).
  { unfold sendsIfMatch, isEmpty.
    repeat case_bool_decide; cbn [negb andb]; try reflexivity; tauto. }
  unfold headers. rewrite Hc. clear Hc.
  destruct (decide (sendsIfMatch item)) as [Hs|Hs];
    [rewrite (bool_decide_eq_true_2 _ Hs)|rewrite (bool_decide_eq_false_2 _ Hs)];
  destruct (conflicts s !! SyncFileItem._file item) as [r|];
  repeat match goal with
  | |- context [if ?b then <[_ := _]> _ else _] => destruct b
  end;
  repeat (rewrite lookup_insert_ne by discriminate);
  try rewrite lookup_insert_eq; try rewrite lookup_empty; reflexivity.
Qed.

(** C7. For every item, the headers that [headers] assembles have an
    [If-Match] entry exactly when the etag is non-empty, is not the sentinel
    "empty_etag" and the instruction is neither NEW nor TYPE_CHANGE; the
    value is then the etag between double quotes.  The three headers that
    [doStartUpload] and [triggerUpload] add to the entry later leave
    [If-Match] as it is. *)
Theorem headers_If_Match_iff (s : State) (H : Host) (item : SyncFileItem.t) :
  (is_Some (headers s H item !! "If-Match") <-> sendsIfMatch item)
  /\ headers s H item !! "If-Match"
     = (if decide (sendsIfMatch item)
        then Some (dquote +:+ SyncFileItem._etag item +:+ dquote) else None)
  /\ forall len md5 path : string,
       <["X-File-Path" := path]>
         (<["X-File-MD5" := md5]>
            (<["Content-Length" := len]> (headers s H item))) !! "If-Match"
       = headers s H item !! "If-Match".
Proof.
  split; [|split].
  - rewrite headers_If_Match_lookup.
    destruct (decide (sendsIfMatch item)) as [Hs|Hs]; split; intros Hx;
      try assumption; try (eexists; reflexivity).
    destruct Hx as [v Hv]. discriminate. contradiction.
  - apply headers_If_Match_lookup.
  - intros len md5 path.
    repeat (rewrite lookup_insert_ne by discriminate). reflexivity.
Qed.

(** ** The file id of the reply *)

(** C10. [computeFileId] leaves the item (and everything else) as it is when
    the reply has no [OC-FileID], has one that is not a string, or has the
    empty string; a non-empty value replaces the file id, whatever it was,
    changes no other field of the item, and is announced by a warning exactly
    when a file id was known and differs. *)
Theorem computeFileId_frame (s : State) (item : SyncFileItem.t)
    (fileReply : gmap string JsonValue) :
  (fileReply !! "OC-FileID" = None
   \/ fileReply !! "OC-FileID" = Some JOther
   \/ fileReply !! "OC-FileID" = Some (JString EmptyString) ->
   computeFileId s item fileReply = (s, item))
  /\ (forall fid, fileReply !! "OC-FileID" = Some (JString fid) ->
      fid <> EmptyString ->
      snd (computeFileId s item fileReply) = SyncFileItem.with_fileId fid item
      /\ fst (computeFileId s item fileReply)
         = if decide (SyncFileItem._fileId item <> EmptyString
                      /\ SyncFileItem._fileId item <> fid)
           then emit (EvWarnFileIdChanged (SyncFileItem._fileId item) fid) s
           else s).
Proof.
  unfold computeFileId, getHeaderFromJsonReply. split.
  - intros [-> | [-> | ->]]; reflexivity.
  - intros fid -> Hne. cbn [json_toString].
    unfold isEmpty. rewrite (bool_decide_eq_false_2 _ Hne). cbn [negb].
    split; [reflexivity|]. cbn [fst].
    destruct (decide (SyncFileItem._fileId item <> EmptyString
                      /\ SyncFileItem._fileId item <> fid)) as [[H1 H2]|Hn].
    + rewrite (bool_decide_eq_false_2 _ H1), (bool_decide_eq_true_2 _ H2).
      reflexivity.
    + destruct (decide (SyncFileItem._fileId item = EmptyString)) as [He|He].
      * rewrite (bool_decide_eq_true_2 _ He). reflexivity.
      * rewrite (bool_decide_eq_false_2 _ He). cbn [negb andb].
        rewrite bool_decide_eq_false_2; [reflexivity|]. tauto.
Qed.

Lemma computeFileId_frame_witness :
  computeFileId emptyState (exampleItem "a.txt" 100 1000) replyWithoutFileId
  = (emptyState, exampleItem "a.txt" 100 1000)
  /\ SyncFileItem._fileId
       (snd (computeFileId emptyState (exampleItem "a.txt" 100 1000)
               replyWithFileId)) = "fid1".
Proof.
  split.
  - apply (proj1 (computeFileId_frame emptyState (exampleItem "a.txt" 100 1000)
                    replyWithoutFileId)).
    left. vm_compute. reflexivity.
  - destruct (proj2 (computeFileId_frame emptyState
                       (exampleItem "a.txt" 100 1000) replyWithFileId)
                "fid1") as [Hitem _].
    + vm_compute. reflexivity.
    + discriminate.
    + rewrite Hitem. reflexivity.
Defined.

(** ** The final status of the job *)

Lemma handleBlackList_finalStatus H s item :
  finalStatus (fst (handleBlackList H s item)) = finalStatus s.
Proof.
  unfold handleBlackList.
  destruct (SyncFileItem._status item);
    try destruct (blacklistUpdate H (blacklist s) item) as [[bl st] err];
    try destruct (SyncFileItem._hasBlacklistEntry item);
    try case_bool_decide; reflexivity.
Qed.

Lemma handleJobDoneErrors_finalStatus s item status :
  finalStatus (handleJobDoneErrors s item status)
  = default (finalStatus s) (finalStatusOf (SyncFileItem._status item)).
Proof.
  unfold handleJobDoneErrors, propagator_abort.
  destruct (SyncFileItem._status item); case_bool_decide; reflexivity.
Qed.

Lemma done_finalStatus H s item status errorString :
  finalStatus (fst (done H s item status errorString))
  = default (finalStatus s)
      (finalStatusOf
         (SyncFileItem._status (snd (done H s item status errorString)))).
Proof.
  unfold done.
  match goal with
  | |- context [handleBlackList H s ?i] =>
      pose proof (handleBlackList_finalStatus H s i) as Hb;
      destruct (handleBlackList H s i) as [s1 i1]
  end.
  cbn [fst snd] in *.
  change (finalStatus (handleJobDoneErrors s1 i1 status)
          = default (finalStatus s) (finalStatusOf (SyncFileItem._status i1))).
  rewrite handleJobDoneErrors_finalStatus, Hb. reflexivity.
Qed.

(** C5, as amended. For any sequence of per-item completions in one job,
    [_finalStatus] is what the last completion that was not a [Success] set:
    [DetailError] for a [DetailError], [NormalError] for every other status
    but [Success]; a [Success] leaves it as it is.  The statuses are those
    the items have when [handleJobDoneErrors] looks at them. *)
Theorem finalStatus_last_writer (H : Host) (s : State)
    (l : list (SyncFileItem.t * Status * string)) :
  finalStatus (fst (doneAll H s l))
  = lastFinalStatus (finalStatus s)
      (map SyncFileItem._status (snd (doneAll H s l)))
  /\ finalStatusOf Success = None
  /\ finalStatusOf DetailError = Some DetailError
  /\ Forall (λ st, finalStatusOf st = Some NormalError)
       [BlacklistedError; Conflict; FatalError; FileIgnored; FileLocked;
        FileNameInvalid; NoStatus; NormalError; Restoration; SoftError].
Proof.
  split; [|repeat split; repeat constructor].
  revert s. induction l as [|[[item status] errorString] l IH]; intros s.
  - reflexivity.
  - cbn [doneAll].
    pose proof (done_finalStatus H s item status errorString) as Hd.
    destruct (done H s item status errorString) as [s1 i1].
    specialize (IH s1). destruct (doneAll H s1 l) as [s2 completed].
    cbn [fst snd map] in *. unfold lastFinalStatus in *. cbn [fold_left].
    rewrite IH, Hd. reflexivity.
Qed.

(** C5, as stated, fails: a quota refusal followed by another error ends in
    [NormalError], the same two completions the other way round end in
    [DetailError]; so whichever of the two ranks higher, one of the runs
    ends below a status it has observed. *)
Lemma finalStatus_not_most_severe :
  ~ exists rank : Status -> nat, finalStatusIsMostSevere exampleHost rank.
Proof.
  intros (rank & Hne & Hall). apply Hne.
  assert (H1 : (rank DetailError
                <= rank (finalStatus
                           (fst (doneAll exampleHost emptyState
                                   quotaThenError))))%nat).
  { apply (Hall quotaThenError emptyState
             (snd (done exampleHost emptyState
                     (exampleItem "big.bin" 10485760 1000) DetailError
                     "Upload of 10 MB exceeds the quota for the folder"))).
    - vm_compute. constructor.
    - reflexivity. }
  assert (H2 : (rank NormalError
                <= rank (finalStatus
                           (fst (doneAll exampleHost emptyState
                                   errorThenQuota))))%nat).
  { apply (Hall errorThenQuota emptyState
             (snd (done exampleHost emptyState
                     (exampleItem "a.txt" 100 1000) NormalError
                     "Poll URL missing"))).
    - vm_compute. constructor.
    - reflexivity. }
  change (finalStatus (fst (doneAll exampleHost emptyState quotaThenError)))
    with NormalError in H1.
  change (finalStatus (fst (doneAll exampleHost emptyState errorThenQuota)))
    with DetailError in H2.
  lia.
Qed.

(** ** Completion under an abort request *)

Lemma demoted_status item status errorString :
  SyncFileItem._status (demoted item status errorString) = SoftError.
Proof. reflexivity. Qed.

Lemma handleFileRestoration_error_status item errorString :
  SyncFileItem._status item = NormalError
  \/ SyncFileItem._status item = FatalError ->
  SyncFileItem._status (handleFileRestoration item errorString)
  = SyncFileItem._status item.
Proof.
  intros Hst. unfold handleFileRestoration.
  destruct (SyncFileItem._isRestoration item).
  - destruct Hst as [E | E]; rewrite E; cbn; exact E.
  - destruct (isEmpty (SyncFileItem._errorString item)); reflexivity.
Qed.

(** C9, as amended. In [done], under an abort request, a [NormalError] or
    [FatalError] is turned into [SoftError] before [handleBlackList] and
    [handleJobDoneErrors] run: the blacklist update is called once, on the
    item with status [SoftError]; [handleJobDoneErrors] then sees the status
    the blacklist update leaves on that item, never the status [done] was
    called with, so [_finalStatus] follows that status and
    [propagator()->abort()] is called only if the blacklist update itself
    left [FatalError]. *)
Theorem done_demotes_before_blacklist (H : Host) (s : State)
    (item : SyncFileItem.t) (status : Status) (errorString : string) :
  abortRequested s = true ->
  status = NormalError \/ status = FatalError ->
  let seen := demoted item status errorString in
  let verdict := blacklistUpdate H (blacklist s) seen in
  let completed := snd (done H s item status errorString) in
  SyncFileItem._status seen = SoftError
  /\ completed
     = SyncFileItem.with_errorString verdict.2
         (SyncFileItem.with_status verdict.1.2 seen)
  /\ finalStatus (fst (done H s item status errorString))
     = default (finalStatus s) (finalStatusOf verdict.1.2)
  /\ trace (fst (done H s item status errorString))
     = trace s ++ [EvBlacklistUpdate seen]
       ++ (if decide (verdict.1.2 = FatalError) then [EvPropagatorAbort]
           else [])
       ++ [EvItemCompleted completed].
Proof.
  intros Habort Hst seen verdict completed.
  split; [reflexivity|].
  assert (Hdone : done H s item status errorString
    = let '(s1, i1) := handleBlackList H s seen in
      let s2 := handleJobDoneErrors s1 i1 status in
      (emit (EvItemCompleted i1) s2, i1)).
  { unfold done. rewrite Habort. cbn [andb].
    rewrite handleFileRestoration_error_status by exact Hst.
    cbn [SyncFileItem._status SyncFileItem.with_errorString
         SyncFileItem.with_status].
    destruct Hst as [-> | ->]; reflexivity. }
  subst completed. rewrite Hdone. clear Hdone.
  unfold handleBlackList.
  change (SyncFileItem._status seen) with SoftError. cbv iota.
  change (blacklistUpdate H (blacklist s) seen) with verdict.
  clearbody verdict. destruct verdict as [[bl st] err]. cbn [fst snd].
  split; [reflexivity|].
  unfold handleJobDoneErrors, propagator_abort.
  cbn [SyncFileItem._status SyncFileItem.with_errorString
       SyncFileItem.with_status].
  destruct st; (split; [reflexivity|]); case_bool_decide; case_decide;
    try discriminate; try congruence; cbn; rewrite <- ?app_assoc;
    reflexivity.
Qed.

Lemma done_demotes_before_blacklist_witness :
  finalStatus
    (fst (done exampleHost abortingState knownItem FatalError
            "Error updating metadata: disk full")) = NormalError.
Proof.
  pose proof (done_demotes_before_blacklist exampleHost abortingState
                knownItem FatalError "Error updating metadata: disk full"
                eq_refl (or_intror eq_refl)) as (_ & _ & Hfinal & _).
  rewrite Hfinal. reflexivity.
Defined.

(** C9, as stated, fails where the blacklist update changes the status: for
    a file that has a blacklist entry and a blacklist update that suppresses
    the error, [handleJobDoneErrors] runs on an item whose status is
    [BlacklistedError], not [SoftError]. *)
Lemma done_finalStatus_sees_blacklist_verdict :
  exists s1 item1,
    done suppressingHost abortingState knownItem FatalError
      "Error updating metadata: disk full"
    = (emit (EvItemCompleted item1) (handleJobDoneErrors s1 item1 FatalError),
       item1)
    /\ handleBlackList suppressingHost abortingState
         (demoted knownItem FatalError "Error updating metadata: disk full")
       = (s1, item1)
    /\ SyncFileItem._status item1 = BlacklistedError
    /\ SyncFileItem._status item1 <> SoftError.
Proof.
  eexists. eexists. split; [|split; [|split]].
  - reflexivity.
  - reflexivity.
  - reflexivity.
  - discriminate.
Qed.

(** ** The reset policy *)




Lemma completes_uploadInfo s s' : completes s s' -> uploadInfo s' = uploadInfo s.
Proof. intros [K _]. apply K. Qed.

Lemma checkResettingErrors_uploadInfo_ext H s1 s2 item :
  uploadInfo s1 = uploadInfo s2 ->
  uploadInfo (checkResettingErrors H s1 item)
  = uploadInfo (checkResettingErrors H s2 item).
Proof.
  intros E. unfold checkResettingErrors.
  destruct (isResettingError H (SyncFileItem._httpErrorCode item));
    cbn; rewrite E; reflexivity.
Qed.

Lemma commonErrorHandling_uploadInfo H s item fileToUpload reply :
  uploadInfo (fst (commonErrorHandling H s item fileToUpload reply))
  = uploadInfo (checkResettingErrors H s item).
Proof.
  unfold commonErrorHandling.
  destruct (classifyError H (networkError reply)
              (SyncFileItem._httpErrorCode item) (replyContent reply))
    as [status anotherSync].
  repeat case_bool_decide; destruct anotherSync;
    try destruct (folderQuota _ !! _);
    rewrite (completes_uploadInfo _ _ (abortWithError_completes _ _ _ _ _));
    cbn; apply checkResettingErrors_uploadInfo_ext; reflexivity.
Qed.

(** ** The checks before the upload *)

Lemma slotStartUpload_reaches H s item fileToUpload type checksum :
  reachesAgeCheck H s item fileToUpload = true ->
  slotStartUpload H s item fileToUpload type checksum
  = if fileIsStillChanging H s (itemAtAgeCheck H s item type checksum)
    then fst (done H (set_anotherSyncNeeded true s)
                (itemAtAgeCheck H s item type checksum) SoftError
                "Local file changed during sync.")
    else doStartUpload H s (itemAtAgeCheck H s item type checksum)
           (fileAtAgeCheck s fileToUpload) checksum.
Proof.
  unfold reachesAgeCheck. intros [He Hm]%andb_true_iff.
  apply bool_decide_eq_true_1 in Hm.
  unfold slotStartUpload, slotOnErrorStartFolderUnlock. cbv zeta.
  rewrite He. cbn [negb].
  rewrite bool_decide_eq_false_2.
  - unfold itemAtAgeCheck, fileAtAgeCheck.
    destruct (isEmpty (SyncFileItem._checksumHeader item)); reflexivity.
  - intros Hne. apply Hne.
    destruct (isEmpty (SyncFileItem._checksumHeader item)); cbn; exact Hm.
Qed.

Lemma slotStartUpload_stopped H s item fileToUpload type checksum :
  reachesAgeCheck H s item fileToUpload = false ->
  completes s (slotStartUpload H s item fileToUpload type checksum)
  \/ completes (set_anotherSyncNeeded true s)
       (slotStartUpload H s item fileToUpload type checksum).
Proof.
  unfold reachesAgeCheck, slotStartUpload, slotOnErrorStartFolderUnlock.
  cbv zeta. intros Hr.
  destruct (fileExists (fs s) (UploadFileInfo._path fileToUpload)).
  - cbn [andb negb] in *. apply bool_decide_eq_false_1 in Hr.
    rewrite bool_decide_eq_true_2.
    + right. apply done_completes.
    + intros E. apply Hr.
      destruct (isEmpty (SyncFileItem._checksumHeader item)); cbn in E;
        exact E.
  - cbn [negb]. left. apply done_completes.
Qed.

Lemma itemAtAgeCheck_modtime H s item fileToUpload type checksum :
  reachesAgeCheck H s item fileToUpload = true ->
  SyncFileItem._modtime (itemAtAgeCheck H s item type checksum)
  = SyncFileItem._modtime item.
Proof.
  unfold reachesAgeCheck. intros [_ Hm]%andb_true_iff.
  apply bool_decide_eq_true_1 in Hm. rewrite Hm. reflexivity.
Qed.

Lemma itemAtAgeCheck_file H s item type checksum :
  SyncFileItem._file (itemAtAgeCheck H s item type checksum)
  = SyncFileItem._file item
  /\ SyncFileItem._renameTarget (itemAtAgeCheck H s item type checksum)
     = SyncFileItem._renameTarget item.
Proof.
  unfold itemAtAgeCheck.
  destruct (isEmpty (SyncFileItem._checksumHeader item)); split; reflexivity.
Qed.

(** C6, as amended. For every item that reaches the check of its age (the
    file exists and its modification time is the one remembered before
    hashing): if the modification time is newer than now minus
    [minimumFileAgeForUpload] and less than 10 seconds in the future,
    [anotherSyncNeeded] is set and the item is completed with [SoftError]
    "Local file changed during sync.", nothing joins the batch and no PUT
    starts; if it is 10 seconds or more in the future, the item goes on to
    [doStartUpload], which, unless an abort is requested or the rename of the
    file fails, adds it to the batch. *)
Theorem too_young_guard (H : Host) (s : State) (item : SyncFileItem.t)
    (fileToUpload : UploadFileInfo.t) (type checksum : string) :
  reachesAgeCheck H s item fileToUpload = true ->
  let age := now s - SyncFileItem._modtime item * 1000 in
  let item' := itemAtAgeCheck H s item type checksum in
  let r := slotStartUpload H s item fileToUpload type checksum in
  (age < minimumFileAgeForUpload H /\ -10000 < age ->
   r = fst (done H (set_anotherSyncNeeded true s) item' SoftError
              "Local file changed during sync.")
   /\ anotherSyncNeeded r = true
   /\ uploadFileParameters r = uploadFileParameters s
   /\ jobs r = jobs s)
  /\ (age <= -10000 ->
      r = doStartUpload H s item' (fileAtAgeCheck s fileToUpload) checksum
      /\ (abortRequested s = false ->
          map _fileToUpload (uploadFileParameters r)
          = map _fileToUpload (uploadFileParameters s)
            ++ (if wantsRename item
                then match QFile_rename (fs s)
                             (fullLocalPath H (SyncFileItem._file item))
                             (fullLocalPath H (SyncFileItem._renameTarget item))
                     with
                     | Some _ =>
                         [UploadFileInfo.mk (SyncFileItem._renameTarget item)
                            (fullLocalPath H (SyncFileItem._renameTarget item))
                            (getSize (fs s)
                               (UploadFileInfo._path fileToUpload))]
                     | None => []
                     end
                else [fileAtAgeCheck s fileToUpload])
          /\ anotherSyncNeeded r = anotherSyncNeeded s)).
Proof.
  intros Hr age item' r.
  assert (Hage : msSinceMod s item' = age).
  { unfold msSinceMod. subst item' age.
    rewrite (itemAtAgeCheck_modtime H s item fileToUpload) by exact Hr.
    reflexivity. }
  subst r. rewrite slotStartUpload_reaches by exact Hr.
  fold item'. unfold fileIsStillChanging. rewrite Hage. split.
  - intros [Hyoung Hnear].
    replace (age <? minimumFileAgeForUpload H) with true
      by (symmetry; apply Z.ltb_lt; exact Hyoung).
    replace (age >? -10000) with true
      by (symmetry; apply Z.gtb_gt; lia).
    cbn [andb]. split; [reflexivity|].
    destruct (done_completes H (set_anotherSyncNeeded true s) item' SoftError
                "Local file changed during sync.") as (K & U & J & _ & _).
    rewrite (keeps_anotherSyncNeeded _ _ K), U, J. repeat split.
  - intros Hfar.
    replace (age >? -10000) with false
      by (symmetry; rewrite Z.gtb_ltb; apply Z.ltb_ge; lia).
    rewrite andb_false_r. split; [reflexivity|].
    intros Habort.
    destruct (doStartUpload_spec H s item' (fileAtAgeCheck s fileToUpload)
                checksum Habort) as (_ & _ & Hm & _ & Ha).
    destruct (itemAtAgeCheck_file H s item type checksum) as [Hf Hrt].
    fold item' in Hf, Hrt.
    assert (Hw : wantsRename item' = wantsRename item).
    { unfold wantsRename. rewrite Hf, Hrt. reflexivity. }
    rewrite Hw, Hf, Hrt in Hm. split; assumption.
Qed.

Lemma too_young_guard_witness :
  anotherSyncNeeded
    (slotStartUpload exampleHost youngState futureItem futureFile "MD5" "0cc1")
  = true
  /\ map _fileToUpload
       (uploadFileParameters
          (slotStartUpload exampleHost farFutureState futureItem futureFile
             "MD5" "0cc1"))
     = [fileAtAgeCheck farFutureState futureFile].
Proof.
  split.
  - destruct (too_young_guard exampleHost youngState futureItem futureFile
                "MD5" "0cc1" eq_refl) as [Hyoung _].
    destruct Hyoung as (_ & Ha & _).
    + vm_compute. split; reflexivity.
    + exact Ha.
  - destruct (too_young_guard exampleHost farFutureState futureItem futureFile
                "MD5" "0cc1" eq_refl) as [_ Hfar].
    destruct Hfar as (_ & Hb).
    + vm_compute. discriminate.
    + destruct (Hb eq_refl) as [Hm _]. exact Hm.
Defined.

(** C6, as stated, fails at the bound: a file modified exactly 10 seconds
    after now is not more than 10 seconds in the future and newer than now
    minus the minimum age, yet it is not refused: it joins the batch, the PUT
    starts, no item is completed and [anotherSyncNeeded] stays unset. *)
Lemma too_young_bound_is_accepted :
  let r := slotStartUpload exampleHost futureState futureItem futureFile
             "MD5" "0cc1" in
  reachesAgeCheck exampleHost futureState futureItem futureFile = true
  /\ SyncFileItem._modtime futureItem * 1000 - now futureState = 10000
  /\ now futureState - minimumFileAgeForUpload exampleHost
     < SyncFileItem._modtime futureItem * 1000
  /\ anotherSyncNeeded r = false
  /\ completedStatuses (trace r) = []
  /\ map _fileToUpload (uploadFileParameters r) = [futureFile]
  /\ jobs r = [0%nat].
Proof. vm_compute. repeat split; reflexivity. Qed.

Lemma completes_from_anotherSync s r :
  completes (set_anotherSyncNeeded true s) r ->
  uploadInfo r = uploadInfo s /\ continues quiet s r
  /\ uploadFileParameters r = uploadFileParameters s.
Proof.
  intros (K & U & _ & _ & C). split; [|split].
  - rewrite (keeps_uploadInfo _ _ K). reflexivity.
  - exact C.
  - rewrite U. reflexivity.
Qed.

Lemma completes_quietly s r :
  completes s r ->
  uploadInfo r = uploadInfo s /\ continues quiet s r
  /\ uploadFileParameters r = uploadFileParameters s.
Proof.
  intros (K & U & _ & _ & C). split; [|split]; try assumption.
  apply (keeps_uploadInfo _ _ K).
Qed.

(** C1, as amended. For every item the steps before the upload come in this
    order: abort request, case clash, quota guess ([startUploadFile]); file
    still there, modification time as before hashing, file old enough
    ([slotStartUpload]); abort request, commit of the journal record
    [UploadInfo{valid=true, chunk 0, transferId 0, modtime, errorCount 0,
    contentChecksum, size}], and only then the local rename
    ([doStartUpload]).  So the record is committed only when all the checks
    have passed, and before the rename is tried: it is stored under the path
    the item has before the rename, with the modification time read from
    that path, and it stays when the rename fails.  When a check fails,
    nothing is written to the journal, no rename is tried and nothing joins
    the batch. *)
Theorem journal_commit_precedes_rename (H : Host) (s : State)
    (item : SyncFileItem.t) (fileToUpload : UploadFileInfo.t)
    (type checksum : string) :
  let item' := itemAtAgeCheck H s item type checksum in
  let src := fullLocalPath H (SyncFileItem._file item) in
  let dst := fullLocalPath H (SyncFileItem._renameTarget item) in
  let r := slotStartUpload H s item fileToUpload type checksum in
  (if passesChecks H s item fileToUpload type checksum
   then uploadInfo r
        = <[SyncFileItem._file item := committedRecord item']> (uploadInfo s)
        /\ UploadInfo._modtime (committedRecord item')
           = getModTime (fs s) src
        /\ exists t', forallb quiet t' = true
           /\ trace r
              = trace s
                ++ [EvSetUploadInfo (SyncFileItem._file item)
                      (committedRecord item'); EvCommit "Upload info"]
                ++ (if wantsRename item
                    then [EvRename src dst
                            (bool_decide
                               (is_Some (QFile_rename (fs s) src dst)))]
                    else [])
                ++ t'
   else uploadInfo r = uploadInfo s /\ continues quiet s r
        /\ uploadFileParameters r = uploadFileParameters s)
  /\ (if stoppedAtStart H s fileToUpload
      then uploadInfo (startUploadFile H s item fileToUpload) = uploadInfo s
           /\ continues quiet s (startUploadFile H s item fileToUpload)
           /\ uploadFileParameters (startUploadFile H s item fileToUpload)
              = uploadFileParameters s
      else startUploadFile H s item fileToUpload
           = slotComputeContentChecksum H s item fileToUpload)
  /\ forall existing,
       abortRequested s = false ->
       parseChecksumHeader H (SyncFileItem._checksumHeader item)
       = ("MD5", existing) ->
       "MD5" ∈ supportedChecksumTypes H ->
       slotComputeContentChecksum H s item fileToUpload
       = slotStartUpload H s
           (SyncFileItem.with_checksumHeader
              (makeChecksumHeader H "MD5" existing)
              (SyncFileItem.with_modtime (getModTime (fs s) src) item))
           fileToUpload "MD5" existing.
Proof.
  intros item' src dst r. split; [|split].
  - unfold passesChecks. fold item'.
    destruct (reachesAgeCheck H s item fileToUpload) eqn:Hr.
    + subst r. rewrite slotStartUpload_reaches by exact Hr. fold item'.
      destruct (fileIsStillChanging H s item').
      * cbn [andb negb].
        apply completes_from_anotherSync, done_completes.
      * cbn [andb negb]. destruct (abortRequested s) eqn:Ha.
        -- cbn [negb]. unfold doStartUpload. rewrite Ha.
           split; [reflexivity|split; [apply continues_refl|reflexivity]].
        -- cbn [negb].
           destruct (doStartUpload_spec H s item' (fileAtAgeCheck s fileToUpload)
                       checksum Ha) as (Hu & Ht & _).
           destruct (itemAtAgeCheck_file H s item type checksum) as [Hf Hrt].
           fold item' in Hf, Hrt.
           assert (Hw : wantsRename item' = wantsRename item).
           { unfold wantsRename. rewrite Hf, Hrt. reflexivity. }
           rewrite Hf, Hrt, Hw in Ht. rewrite Hf in Hu.
           split; [exact Hu|]. split; [|exact Ht]. reflexivity.
    + cbn [andb].
      destruct (slotStartUpload_stopped H s item fileToUpload type checksum Hr)
        as [Hc|Hc].
      * apply completes_quietly, Hc.
      * apply completes_from_anotherSync, Hc.
  - unfold stoppedAtStart, startUploadFile.
    destruct (abortRequested s).
    + cbn [orb]. split; [reflexivity|split; [apply continues_refl|reflexivity]].
    + cbn [orb].
      destruct (hasCaseClashAccessibilityProblem H
                  (UploadFileInfo._file fileToUpload)).
      * cbn [orb]. apply completes_quietly, done_completes.
      * cbn [orb]. destruct (_ >? _).
        -- destruct (done_completes H (emit EvInsufficientRemoteStorage s)
                       (SyncFileItem.with_httpErrorCode 507 item) DetailError
                       ("Upload of "
                        +:+ octetsToString H (UploadFileInfo._size fileToUpload)
                        +:+ " exceeds the quota for the folder"))
             as (K & U & _ & _ & C).
           split; [apply (keeps_uploadInfo _ _ K)|split; [|exact U]].
           eapply continues_trans; [|exact C].
           apply continues_emit. reflexivity.
        -- reflexivity.
  - intros existing Ha Hp Hs. unfold slotComputeContentChecksum.
    rewrite Ha. cbn [SyncFileItem._checksumHeader SyncFileItem.with_modtime].
    rewrite Hp. rewrite bool_decide_eq_true_2 by reflexivity.
    unfold slotComputeTransmissionChecksum.
    rewrite bool_decide_eq_true_2 by exact Hs. reflexivity.
Qed.

(** C1, as stated, fails.  A file to be renamed from "doc " to "doc" that
    passes every check: the journal record is committed first, under the
    path "doc ", and the rename follows; no record exists under "doc", the
    path the batch then uploads.  With the target taken, the rename fails
    after the record was committed, and the record stays.  With the file
    gone, the item fails at the check of its existence and no rename was
    tried before. *)
Lemma rename_follows_journal_commit :
  let r := startUploadFile exampleHost renameState renameItem renameFile in
  let taken :=
    startUploadFile exampleHost renameTakenState renameItem renameFile in
  let gone :=
    startUploadFile exampleHost renameGoneState renameItem renameFile in
  (take 3 (trace r)
   = [EvSetUploadInfo "doc " (UploadInfo.mk true 0 0 1000 0 "MD5:0cc1" 100);
      EvCommit "Upload info"; EvRename "/sync/doc " "/sync/doc" true]
   /\ uploadInfo r !! "doc" = None
   /\ map (λ p, SyncFileItem._file (_item p)) (uploadFileParameters r)
      = ["doc"])
  /\ (take 3 (trace taken)
      = [EvSetUploadInfo "doc " (UploadInfo.mk true 0 0 1000 0 "MD5:0cc1" 100);
         EvCommit "Upload info"; EvRename "/sync/doc " "/sync/doc" false]
      /\ completedStatuses (trace taken) = [NormalError]
      /\ uploadInfo taken !! "doc "
         = Some (UploadInfo.mk true 0 0 1000 0 "MD5:0cc1" 100))
  /\ (forallb (λ e, negb (isRename e)) (trace gone) = true
      /\ completedStatuses (trace gone) = [SoftError]).
Proof. vm_compute. repeat split; reflexivity. Qed.

(** ** The result finalizer *)

Lemma set_batch_twice l l' s :
  set_uploadFileParameters l (set_uploadFileParameters l' s)
  = set_uploadFileParameters l s.
Proof. reflexivity. Qed.

Lemma finalizeFiles_set_batch H l passed oneFile rest s :
  finalizeFiles H passed (oneFile :: rest) (set_uploadFileParameters l s)
  = finalizeFiles H passed (oneFile :: rest) s.
Proof.
  cbn [finalizeFiles]. rewrite finalizeFile_set_batch.
  destruct (finalizeFile H oneFile s) as [[s1 oneFile'] goOn].
  cbn [fst snd]. unfold storeEntry. rewrite set_batch_twice. reflexivity.
Qed.

Lemma finalizeFile_failure H oneFile s status msg :
  metadataFailure H oneFile = Some (status, msg) ->
  finalizeFile H oneFile s
  = (fst (done H (emit (EvUpdateMetadata (_item oneFile))
                    (decrementQuota oneFile s)) (_item oneFile) status msg),
     with_item
       (snd (done H (emit (EvUpdateMetadata (_item oneFile))
                       (decrementQuota oneFile s)) (_item oneFile) status msg))
       oneFile,
     false).
Proof.
  unfold metadataFailure, finalizeFile. cbv zeta.
  destruct (updateMetadata H (_item oneFile)) as [error|[]]; intros E;
    try discriminate; injection E as <- <-;
    destruct (done H _ _ _ _) as [s1 i1]; reflexivity.
Qed.

Lemma finalizeFile_success_done H oneFile s :
  metadataFailure H oneFile = None ->
  let cleared :=
    commit "upload file start"
      (setUploadInfo (SyncFileItem._file (_item oneFile)) UploadInfo.empty
         (adjustPinState H (_item oneFile)
            (emit (EvUpdateMetadata (_item oneFile))
               (decrementQuota oneFile s)))) in
  finalizeFile H oneFile s
  = (fst (done H cleared (_item oneFile) Success EmptyString),
     with_item (snd (done H cleared (_item oneFile) Success EmptyString))
       oneFile,
     true).
Proof.
  unfold metadataFailure, finalizeFile. cbv zeta.
  destruct (updateMetadata H (_item oneFile)) as [error|[]]; intros E;
    try discriminate; destruct (done H _ _ _ _) as [s1 i1]; reflexivity.
Qed.

Lemma finalizeFile_success H oneFile s :
  metadataFailure H oneFile = None ->
  (finalizeFile H oneFile s).2 = true.
Proof.
  unfold metadataFailure, finalizeFile. cbv zeta.
  destruct (updateMetadata H (_item oneFile)) as [error|[]]; intros E;
    try discriminate; destruct (done H _ _ _ _) as [s1 i1]; reflexivity.
Qed.

Lemma finalizeFile_goOn H oneFile s :
  (finalizeFile H oneFile s).2
  = bool_decide (metadataFailure H oneFile = None).
Proof.
  unfold metadataFailure, finalizeFile. cbv zeta.
  destruct (updateMetadata H (_item oneFile)) as [error|[]];
    destruct (done H _ _ _ _) as [s1 i1]; reflexivity.
Qed.

(** The loop of [finalize] on a batch whose first failing entry is
    [oneFile]: it runs over the entries before it, completes [oneFile] and
    returns; the entries after it come back as they were. *)
Lemma finalizeFiles_stops H pre : forall passed s oneFile post,
  Forall (λ p, metadataFailure H p = None) pre ->
  (finalizeFile H oneFile s).2 = false ->
  (forall s0, (finalizeFile H oneFile s0).2 = false) ->
  let mid := fst (finalizeFiles H passed pre
                    (set_uploadFileParameters (passed ++ pre) s)) in
  finalizeFiles H passed (pre ++ oneFile :: post) s
  = (set_uploadFileParameters
       (uploadFileParameters mid
        ++ (finalizeFile H oneFile mid).1.2 :: post)
       (finalizeFile H oneFile mid).1.1, false).
Proof.
  induction pre as [|p pre IH]; intros passed s oneFile post Hok _ Hfail.
  - cbn [app finalizeFiles fst]. rewrite finalizeFile_set_batch.
    specialize (Hfail s).
    destruct (finalizeFile H oneFile s) as [[s1 oneFile'] goOn].
    cbn [fst snd] in *. subst goOn. unfold storeEntry.
    cbn [uploadFileParameters set_uploadFileParameters].
    rewrite app_nil_r. reflexivity.
  - apply Forall_cons in Hok as [Hp Hok].
    cbn zeta. rewrite <- app_comm_cons.
    rewrite finalizeFiles_set_batch.
    cbn [finalizeFiles].
    pose proof (finalizeFile_success H p s Hp) as Hgo.
    destruct (finalizeFile H p s) as [[s1 p'] goOn]. cbn [snd] in Hgo.
    subst goOn.
    rewrite (IH (passed ++ [p']) _ oneFile post Hok (Hfail _) Hfail).
    cbn zeta. unfold storeEntry. rewrite !set_batch_twice.
    rewrite <- !app_assoc. cbn [app].
    destruct pre as [|q pre].
    + reflexivity.
    + rewrite !finalizeFiles_set_batch. reflexivity.
Qed.

Lemma handleBlackList_silent H s item :
  continues silent s (fst (handleBlackList H s item)).
Proof.
  unfold handleBlackList, wipeErrorBlacklistEntry.
  destruct (SyncFileItem._status item);
    try destruct (blacklistUpdate H (blacklist s) item) as [[bl st] err];
    try destruct (SyncFileItem._hasBlacklistEntry item);
    try case_bool_decide; cbn [fst];
    try apply continues_refl;
    try (eexists [_]; split; reflexivity);
    try (eexists [_; _]; split; [cbn; rewrite <- app_assoc|]; reflexivity).
Qed.

Lemma handleJobDoneErrors_silent s item status :
  continues silent s (handleJobDoneErrors s item status).
Proof.
  unfold handleJobDoneErrors, propagator_abort.
  destruct (SyncFileItem._status item); case_bool_decide; try discriminate;
    try (apply continues_same; reflexivity);
    try (eexists [_]; split; reflexivity).
Qed.

(** [done] announces its item once, at the end, and no other. *)
Lemma done_trace H s item status errorString :
  exists t, forallb silent t = true
    /\ trace (fst (done H s item status errorString))
       = trace s ++ t
         ++ [EvItemCompleted (snd (done H s item status errorString))].
Proof.
  unfold done.
  match goal with
  | |- context [handleBlackList H s ?i] =>
      pose proof (handleBlackList_silent H s i) as Hb;
      destruct (handleBlackList H s i) as [s1 i1]
  end.
  cbn [fst snd] in *.
  destruct (continues_trans _ _ _ _ Hb
              (handleJobDoneErrors_silent s1 i1 status)) as (t & E & F).
  exists t. split; [exact F|]. cbn [trace emit set_trace].
  rewrite E, <- app_assoc. reflexivity.
Qed.

(** C8. If [updateMetadata] fails (an error, or Locked) for a file of the
    batch and for none before it, [finalize] stops at that file: the file is
    completed through [done] with [FatalError] (with [SoftError] for Locked)
    after its folder quota was decremented, and [finalize] returns.  The
    files after it stay in the pending list as they were, and the state is
    the one reached with the files before it plus this completion: no quota
    adjustment, no clearing of an [UploadInfo], no pin-state change and no
    completion signal is made for a later file. *)
Theorem finalize_stops_at_metadata_failure (H : Host) (s : State)
    (pre post : list UploadFileParameters) (oneFile : UploadFileParameters)
    (status : Status) (msg : string) :
  uploadFileParameters s = pre ++ oneFile :: post ->
  Forall (λ p, metadataFailure H p = None) pre ->
  metadataFailure H oneFile = Some (status, msg) ->
  let mid := fst (finalizeFiles H [] pre (set_uploadFileParameters pre s)) in
  let failing :=
    emit (EvUpdateMetadata (_item oneFile)) (decrementQuota oneFile mid) in
  let completed := done H failing (_item oneFile) status msg in
  (forall error, updateMetadata H (_item oneFile) = MetadataFailed error ->
     status = FatalError /\ msg = "Error updating metadata: " +:+ error)
  /\ (updateMetadata H (_item oneFile) = MetadataDone PlaceholderLocked ->
      status = SoftError
      /\ msg = "The file " +:+ SyncFileItem._file (_item oneFile)
               +:+ " is currently in use")
  /\ finalize H s
     = set_uploadFileParameters
         (uploadFileParameters mid ++ with_item (snd completed) oneFile :: post)
         (fst completed)
  /\ folderQuota (finalize H s) = folderQuota (decrementQuota oneFile mid)
  /\ uploadInfo (finalize H s) = uploadInfo mid
  /\ pins (finalize H s) = pins mid
  /\ exists t, forallb silent t = true
     /\ trace (finalize H s)
        = trace mid ++ EvUpdateMetadata (_item oneFile) :: t
          ++ [EvItemCompleted (snd completed)].
Proof.
  intros Hl Hok Hfail mid failing completed.
  split; [|split].
  { intros error E. unfold metadataFailure in Hfail. rewrite E in Hfail.
    injection Hfail as <- <-. split; reflexivity. }
  { intros E. unfold metadataFailure in Hfail. rewrite E in Hfail.
    injection Hfail as <- <-. split; reflexivity. }
  assert (Hstop : forall s0, (finalizeFile H oneFile s0).2 = false).
  { intros s0. rewrite finalizeFile_goOn, Hfail. reflexivity. }
  assert (Hfin : finalize H s
     = set_uploadFileParameters
         (uploadFileParameters mid ++ with_item (snd completed) oneFile :: post)
         (fst completed)).
  { unfold finalize. rewrite Hl.
    rewrite (finalizeFiles_stops H pre [] s oneFile post Hok (Hstop s) Hstop).
    cbn zeta. cbn [app negb]. fold mid.
    rewrite (finalizeFile_failure H oneFile mid status msg Hfail).
    reflexivity. }
  split; [exact Hfin|]. rewrite Hfin.
  destruct (done_completes H failing (_item oneFile) status msg)
    as (K & _ & _ & _ & _). fold completed in K.
  cbn [folderQuota uploadInfo pins trace set_uploadFileParameters].
  rewrite (keeps_folderQuota _ _ K), (keeps_uploadInfo _ _ K),
    (keeps_pins _ _ K).
  repeat split.
  - subst failing. unfold decrementQuota.
    destruct (folderQuota mid !! _); reflexivity.
  - subst failing. unfold decrementQuota.
    destruct (folderQuota mid !! _); reflexivity.
  - destruct (done_trace H failing (_item oneFile) status msg)
      as (t & F & E).
    exists t. split; [exact F|]. fold completed in E. rewrite E.
    subst failing. cbn [trace emit set_trace].
    assert (Ht : trace (decrementQuota oneFile mid) = trace mid).
    { unfold decrementQuota. destruct (folderQuota mid !! _); reflexivity. }
    rewrite Ht, <- app_assoc. reflexivity.
Qed.

(** ** The folder quota *)

Lemma wrap64_in_range x : in_qint64 (wrap64 x).
Proof.
  unfold in_qint64, qint64_max, wrap64, wrap_signed.
  change (2 ^ (64 - 1)) with (2 ^ 63).
  pose proof (Z.mod_pos_bound (x + 2 ^ 63) (2 ^ 64) ltac:(lia)) as Hb.
  change (2 ^ 64) with (2 * 2 ^ 63) in *. lia.
Qed.

Lemma wrap64_id x : in_qint64 x -> wrap64 x = x.
Proof.
  unfold in_qint64, qint64_max, wrap64, wrap_signed. intros Hx.
  change (2 ^ (64 - 1)) with (2 ^ 63).
  rewrite Z.mod_small; [lia|].
  change (2 ^ 64) with (2 * 2 ^ 63). lia.
Qed.

Lemma wrap64_sub x a b : wrap64 (wrap64 (x - a) - b) = wrap64 (x - (a + b)).
Proof.
  unfold wrap64, wrap_signed. f_equal.
  replace ((x - a + 2 ^ (64 - 1)) mod 2 ^ 64 - 2 ^ (64 - 1) - b
           + 2 ^ (64 - 1))
    with ((x - a + 2 ^ (64 - 1)) mod 2 ^ 64 - b) by lia.
  rewrite Zminus_mod_idemp_l. f_equal. lia.
Qed.

Lemma decrementQuota_lookup oneFile s parent quota :
  folderQuota s !! parent = Some quota ->
  folderQuota (decrementQuota oneFile s) !! parent
  = Some (if bool_decide
               (QFileInfo_path (SyncFileItem._file (_item oneFile)) = parent)
          then wrap64 (quota - UploadFileInfo._size (_fileToUpload oneFile))
          else quota).
Proof.
  intros Hq. unfold decrementQuota. case_bool_decide as Hp.
  - rewrite Hp, Hq. cbn [folderQuota set_folderQuota].
    rewrite lookup_insert_eq. reflexivity.
  - destruct (folderQuota s !! QFileInfo_path _) eqn:Ho; [|exact Hq].
    cbn [folderQuota set_folderQuota].
    rewrite lookup_insert_ne by exact Hp. exact Hq.
Qed.

Lemma adjustPinState_folderQuota H item s :
  folderQuota (adjustPinState H item s) = folderQuota s.
Proof.
  unfold adjustPinState. destruct (_ || _); [|reflexivity].
  destruct (pins s !! _) as [[]|]; try reflexivity.
  destruct (setPinStateOk H _); reflexivity.
Qed.

Lemma finalizeFile_folderQuota H oneFile s :
  folderQuota (finalizeFile H oneFile s).1.1
  = folderQuota (decrementQuota oneFile s).
Proof.
  unfold finalizeFile. cbv zeta.
  destruct (updateMetadata H (_item oneFile)) as [error|[]];
    match goal with
    | |- context [done H ?s0 ?i ?st ?e] =>
        destruct (done_completes H s0 i st e) as (K & _);
        destruct (done H s0 i st e) as [s1 i1]
    end; cbn [fst snd] in *; rewrite (keeps_folderQuota _ _ K);
    cbn [folderQuota commit setUploadInfo emit set_trace set_uploadInfo];
    rewrite ?adjustPinState_folderQuota; reflexivity.
Qed.

Lemma finalizeFiles_folderQuota H parent todo : forall passed s quota,
  folderQuota s !! parent = Some quota -> in_qint64 quota ->
  folderQuota (fst (finalizeFiles H passed todo s)) !! parent
  = Some (wrap64 (quota - sizesUnder parent (reached H todo))).
Proof.
  induction todo as [|oneFile rest IH]; intros passed s quota Hq Hr.
  - cbn. rewrite Z.sub_0_r, wrap64_id by exact Hr. exact Hq.
  - cbn [finalizeFiles reached].
    pose proof (finalizeFile_folderQuota H oneFile s) as Hf.
    pose proof (finalizeFile_goOn H oneFile s) as Hg.
    pose proof (decrementQuota_lookup oneFile s parent quota Hq) as Hd.
    destruct (finalizeFile H oneFile s) as [[s1 oneFile'] goOn].
    cbn [fst snd] in *. rewrite <- Hf in Hd. subst goOn.
    destruct (metadataFailure H oneFile) as [[status msg]|].
    + rewrite bool_decide_eq_false_2 by discriminate.
      cbn [fst folderQuota storeEntry set_uploadFileParameters sizesUnder].
      rewrite Hd, Z.add_0_r. case_bool_decide; [reflexivity|].
      rewrite Z.sub_0_r, wrap64_id by exact Hr. reflexivity.
    + rewrite bool_decide_eq_true_2 by reflexivity.
      cbn [sizesUnder].
      rewrite (IH _ (storeEntry passed oneFile' rest s1) _ Hd).
      * case_bool_decide.
        -- rewrite wrap64_sub. reflexivity.
        -- rewrite Z.add_0_l. reflexivity.
      * case_bool_decide; [apply wrap64_in_range|exact Hr].
Qed.

Lemma doStartUpload_folderQuota H s item fileToUpload h :
  folderQuota (doStartUpload H s item fileToUpload h) = folderQuota s.
Proof.
  destruct (abortRequested s) eqn:Ha.
  - unfold doStartUpload. rewrite Ha. reflexivity.
  - apply (doStartUpload_spec H s item fileToUpload h Ha).
Qed.

Lemma slotStartUpload_folderQuota H s item fileToUpload type checksum :
  folderQuota (slotStartUpload H s item fileToUpload type checksum)
  = folderQuota s.
Proof.
  destruct (reachesAgeCheck H s item fileToUpload) eqn:Hr.
  - rewrite slotStartUpload_reaches by exact Hr.
    destruct (fileIsStillChanging H s _).
    + destruct (done_completes H (set_anotherSyncNeeded true s)
                  (itemAtAgeCheck H s item type checksum) SoftError
                  "Local file changed during sync.") as (K & _).
      rewrite (keeps_folderQuota _ _ K). reflexivity.
    + apply doStartUpload_folderQuota.
  - destruct (slotStartUpload_stopped H s item fileToUpload type checksum Hr)
      as [(K & _)|(K & _)]; rewrite (keeps_folderQuota _ _ K); reflexivity.
Qed.

Lemma startComputeChecksum_folderQuota s tracked cc type path :
  folderQuota (startComputeChecksum s tracked cc type path) = folderQuota s.
Proof. unfold startComputeChecksum. destruct tracked; reflexivity. Qed.

Lemma slotComputeTransmissionChecksum_folderQuota H s item fileToUpload
    type checksum :
  folderQuota
    (slotComputeTransmissionChecksum H s item fileToUpload type checksum)
  = folderQuota s.
Proof.
  unfold slotComputeTransmissionChecksum. case_bool_decide.
  - apply slotStartUpload_folderQuota.
  - apply startComputeChecksum_folderQuota.
Qed.

Lemma slotComputeContentChecksum_folderQuota H s item fileToUpload :
  folderQuota (slotComputeContentChecksum H s item fileToUpload)
  = folderQuota s.
Proof.
  unfold slotComputeContentChecksum.
  destruct (abortRequested s); [reflexivity|].
  destruct (parseChecksumHeader H _) as [existingType existing].
  case_bool_decide.
  - apply slotComputeTransmissionChecksum_folderQuota.
  - apply startComputeChecksum_folderQuota.
Qed.

Lemma startUploadFile_folderQuota H s item fileToUpload :
  folderQuota (startUploadFile H s item fileToUpload) = folderQuota s.
Proof.
  unfold startUploadFile. destruct (abortRequested s); [reflexivity|].
  destruct (hasCaseClashAccessibilityProblem H _).
  - match goal with
    | |- context [done H ?s0 ?i ?st ?e] =>
        destruct (done_completes H s0 i st e) as (K & _)
    end.
    rewrite (keeps_folderQuota _ _ K). reflexivity.
  - destruct (_ >? _).
    + match goal with
      | |- context [done H ?s0 ?i ?st ?e] =>
          destruct (done_completes H s0 i st e) as (K & _)
      end.
      rewrite (keeps_folderQuota _ _ K). reflexivity.
    + apply slotComputeContentChecksum_folderQuota.
Qed.

Lemma scheduleItems_folderQuota H n : forall s,
  folderQuota (scheduleItems H n s) = folderQuota s.
Proof.
  induction n as [|n IH]; intros s; [reflexivity|].
  cbn [scheduleItems]. destruct (items s) as [|currentItem rest];
    [reflexivity|].
  rewrite IH, startUploadFile_folderQuota. reflexivity.
Qed.

Lemma finalize_folderQuota H s :
  folderQuota (finalize H s)
  = folderQuota (fst (finalizeFiles H [] (uploadFileParameters s) s)).
Proof.
  unfold finalize.
  destruct (finalizeFiles H [] (uploadFileParameters s) s) as [s1 finished].
  cbn [fst]. destruct finished; [|reflexivity]. cbn [negb].
  destruct (items s1) eqn:Hi.
  - destruct (jobs s1), (checksumsJobs s1); reflexivity.
  - unfold scheduleSelfOrChild. rewrite Hi. cbn [snd].
    rewrite scheduleItems_folderQuota. reflexivity.
Qed.

Lemma reached_all H l :
  Forall (λ p, metadataFailure H p = None) l -> reached H l = l.
Proof.
  induction 1 as [|p l Hp _ IH]; [reflexivity|].
  cbn [reached]. rewrite Hp, IH. reflexivity.
Qed.

Lemma reached_until H pre oneFile post verdict :
  Forall (λ p, metadataFailure H p = None) pre ->
  metadataFailure H oneFile = Some verdict ->
  reached H (pre ++ oneFile :: post) = pre ++ [oneFile].
Proof.
  intros Hok Hfail. induction Hok as [|p l Hp _ IH].
  - cbn [app reached]. rewrite Hfail. reflexivity.
  - cbn [app reached]. rewrite Hp, IH. reflexivity.
Qed.

(** C4, as amended. If [folderQuota[p]] is defined when [finalize] starts,
    it decreases (in 64-bit arithmetic) by exactly the sum of the sizes of
    the uploads under [p] that the loop of [finalize] reaches: the files it
    completes with [Success], all of the batch when every metadata update
    succeeds, and also the file whose metadata update fails, which is
    completed with [FatalError] or [SoftError] after its size was taken off;
    the files after that one are not counted. *)
Theorem quota_decreases_per_reached_file (H : Host) (s : State)
    (parent : string) (quota : Z) :
  folderQuota s !! parent = Some quota ->
  in_qint64 quota ->
  let total := sizesUnder parent (reached H (uploadFileParameters s)) in
  folderQuota (finalize H s) !! parent = Some (wrap64 (quota - total))
  /\ (in_qint64 (quota - total) ->
      folderQuota (finalize H s) !! parent = Some (quota - total))
  /\ (Forall (λ p, metadataFailure H p = None) (uploadFileParameters s) ->
      reached H (uploadFileParameters s) = uploadFileParameters s)
  /\ (forall pre oneFile post verdict,
        uploadFileParameters s = pre ++ oneFile :: post ->
        Forall (λ p, metadataFailure H p = None) pre ->
        metadataFailure H oneFile = Some verdict ->
        reached H (uploadFileParameters s) = pre ++ [oneFile])
  /\ (forall oneFile s0,
        metadataFailure H oneFile = None ->
        exists s1,
          finalizeFile H oneFile s0
          = (fst (done H s1 (_item oneFile) Success EmptyString),
             with_item (snd (done H s1 (_item oneFile) Success EmptyString))
               oneFile,
             true))
  /\ (forall oneFile s0 status msg,
        metadataFailure H oneFile = Some (status, msg) ->
        status <> Success
        /\ exists s1,
             folderQuota s1 = folderQuota (decrementQuota oneFile s0)
             /\ finalizeFile H oneFile s0
                = (fst (done H s1 (_item oneFile) status msg),
                   with_item (snd (done H s1 (_item oneFile) status msg))
                     oneFile,
                   false)).
Proof.
  intros Hq Hr total.
  assert (Hf : folderQuota (finalize H s) !! parent
               = Some (wrap64 (quota - total))).
  { rewrite finalize_folderQuota.
    apply finalizeFiles_folderQuota; assumption. }
  split; [exact Hf|]. split; [|split; [|split; [|split]]].
  - intros Ht. rewrite Hf, wrap64_id by exact Ht. reflexivity.
  - apply reached_all.
  - intros pre oneFile post verdict -> Hok Hfail.
    eapply reached_until; eassumption.
  - intros oneFile s0 Hok. eexists.
    apply (finalizeFile_success_done H oneFile s0 Hok).
  - intros oneFile s0 status msg Hfail. split.
    + unfold metadataFailure in Hfail.
      destruct (updateMetadata H (_item oneFile)) as [error|[]];
        try discriminate; injection Hfail as <- _; discriminate.
    + eexists. split; [|apply (finalizeFile_failure H oneFile s0 _ _ Hfail)].
      reflexivity.
Qed.

Lemma quota_decreases_per_reached_file_witness :
  folderQuota (finalize exampleHost threeFilesState) !! "a" = Some 400.
Proof.
  destruct (quota_decreases_per_reached_file exampleHost threeFilesState "a"
              1000) as (_ & Hexact & _).
  - vm_compute. reflexivity.
  - vm_compute. split; discriminate.
  - rewrite Hexact; [reflexivity|]. vm_compute. split; discriminate.
Defined.

(** C4, as stated, fails: of three uploads into a folder with quota 1000,
    the metadata update of the second fails.  One file ends as [Success]
    (100 bytes), yet the quota went down by 300: the 200 bytes of the second
    file were taken off although it ends as [FatalError]. *)
Lemma quota_decremented_for_failed_file :
  let r := finalize failingMetadataHost threeFilesState in
  map (λ p, SyncFileItem._status (_item p)) (uploadFileParameters r)
  = [Success; FatalError; NoStatus]
  /\ folderQuota threeFilesState !! "a" = Some 1000
  /\ folderQuota r !! "a" = Some 700.
Proof. vm_compute. repeat split; reflexivity. Qed.

Lemma finalize_stops_at_metadata_failure_witness :
  folderQuota (finalize failingMetadataHost threeFilesState) !! "a" = Some 700
  /\ drop 2 (uploadFileParameters
               (finalize failingMetadataHost threeFilesState))
     = [exampleEntry "a/three.txt" 300 1000].
Proof.
  destruct (finalize_stops_at_metadata_failure failingMetadataHost
              threeFilesState [exampleEntry "a/one.txt" 100 1000]
              [exampleEntry "a/three.txt" 300 1000]
              (exampleEntry "a/two.txt" 200 1000) FatalError
              "Error updating metadata: database is locked")
    as (_ & _ & Hfin & Hquota & _).
  - reflexivity.
  - repeat constructor.
  - reflexivity.
  - split.
    + rewrite Hquota. vm_compute. reflexivity.
    + rewrite Hfin. vm_compute. reflexivity.
Defined.

(** ** A failed bulk PUT *)

(** On a reply with a network error, [slotPutFinished] handles the first
    entry of the batch and returns: the other entries stay as they were. *)
Lemma slotPutFinished_first_error H s job reply first rest :
  uploadFileParameters s = first :: rest ->
  networkError reply <> NoError ->
  let item :=
    SyncFileItem.with_response (responseTimestamp reply) (requestId reply)
      (SyncFileItem.with_httpErrorCode (to_quint16 (httpStatusCode reply))
         (_item first)) in
  let handled :=
    commonErrorHandling H (slotJobDestroyed job s) item (_fileToUpload first)
      reply in
  slotPutFinished H s job reply
  = set_uploadFileParameters (with_item (snd handled) first :: rest)
      (fst handled).
Proof.
  intros Hl Herr item handled. unfold slotPutFinished. rewrite Hl.
  cbn [putFinishedFiles]. rewrite (bool_decide_eq_true_2 _ Herr).
  fold item. fold handled. destruct handled as [s1 item1]. reflexivity.
Qed.

(** C2 does not hold of the code. A batch of two files whose PUT fails with
    a server error: the first file is classified and completed, the PUT job
    is forgotten, and [slotPutFinished] returns; the second file keeps
    [NoStatus], is never completed, and the job never reports that it has
    finished. *)
Theorem slotPutFinished_abandons_rest_of_batch :
  let r := slotPutFinished exampleHost twoFilesState 0 serverErrorReply in
  map (λ p, (SyncFileItem._file (_item p), SyncFileItem._status (_item p)))
    (uploadFileParameters r)
  = [("a.txt", NormalError); ("b.txt", NoStatus)]
  /\ map SyncFileItem._file (completedItems (trace r)) = ["a.txt"]
  /\ jobs r = []
  /\ forallb (λ e, negb (isFinished e)) (trace r) = true.
Proof. vm_compute. repeat split; reflexivity. Qed.

(** ** The reset policy, over failed PUTs *)

(** An upload that starts with nothing else pending: the file is alone in
    the batch that [doStartUpload] sends. *)
Lemma doStartUpload_alone H s item fileToUpload h :
  abortRequested s = false ->
  wantsRename item = false ->
  uploadFileParameters s = [] ->
  checksumsJobs s = [] ->
  deviceOpen H (UploadFileInfo._path fileToUpload) = None ->
  exists entry,
    uploadFileParameters (doStartUpload H s item fileToUpload h) = [entry]
    /\ _item entry = item
    /\ _fileToUpload entry = fileToUpload.
Proof.
  intros Ha Hw Hu Hc Ho.
  unfold doStartUpload. rewrite Ha. cbv zeta. fold (wantsRename item).
  rewrite Hw. unfold attachFile. cbv zeta.
  cbn [checksumsJobs set_uploadFileParameters commit setUploadInfo emit
       set_trace set_uploadInfo uploadFileParameters].
  rewrite Hc, Hu. unfold triggerUpload.
  cbn [uploadFileParameters set_uploadFileParameters app openDevices
       _localPath].
  rewrite Ho. eexists. split; [reflexivity|]. split; reflexivity.
Qed.

(** [failedUpload] has the journal that the slots leave: [doStartUpload],
    which sends the PUT when nothing else is pending, then [slotPutFinished]
    on a reply with a network error. *)
Lemma failedUpload_through_slots H s item fileToUpload h reply job :
  abortRequested s = false ->
  wantsRename item = false ->
  uploadFileParameters s = [] ->
  checksumsJobs s = [] ->
  deviceOpen H (UploadFileInfo._path fileToUpload) = None ->
  networkError reply <> NoError ->
  uploadInfo
    (slotPutFinished H (doStartUpload H s item fileToUpload h) job reply)
  = uploadInfo (failedUpload H s item fileToUpload h reply).
Proof.
  intros Ha Hw Hu Hc Ho Hn.
  destruct (doStartUpload_alone H s item fileToUpload h Ha Hw Hu Hc Ho)
    as (entry & Hu1 & Hi & Hf).
  unfold failedUpload. rewrite commonErrorHandling_uploadInfo.
  set (s1 := doStartUpload H s item fileToUpload h) in *. clearbody s1.
  rewrite (slotPutFinished_first_error H s1 job reply entry [] Hu1 Hn).
  cbv zeta. cbn [uploadInfo set_uploadFileParameters].
  rewrite commonErrorHandling_uploadInfo, Hi.
  unfold checkResettingErrors.
  cbn [SyncFileItem._httpErrorCode SyncFileItem._file
       SyncFileItem.with_response SyncFileItem.with_httpErrorCode].
  destruct (isResettingError H _); reflexivity.
Qed.




(** * Further properties *)

(** ** The events and the item of a completion *)

Lemma handleBlackList_events H s item :
  continues isDoneEvent s (fst (handleBlackList H s item)).
Proof.
  unfold handleBlackList, wipeErrorBlacklistEntry.
  destruct (SyncFileItem._status item);
    try destruct (blacklistUpdate H (blacklist s) item) as [[bl st] err];
    try destruct (SyncFileItem._hasBlacklistEntry item);
    try case_bool_decide; cbn [fst];
    try apply continues_refl;
    try (eexists [_]; split; reflexivity);
    try (eexists [_; _]; split; [cbn; rewrite <- app_assoc|]; reflexivity).
Qed.

Lemma handleJobDoneErrors_events s item status :
  continues isDoneEvent s (handleJobDoneErrors s item status).
Proof.
  unfold handleJobDoneErrors, propagator_abort.
  destruct (SyncFileItem._status item); case_bool_decide; try discriminate;
    try (apply continues_same; reflexivity);
    try (eexists [_]; split; reflexivity).
Qed.

Lemma done_events H s item status errorString :
  continues isDoneEvent s (fst (done H s item status errorString)).
Proof.
  unfold done.
  match goal with
  | |- context [handleBlackList H s ?i] =>
      pose proof (handleBlackList_events H s i) as Hb;
      destruct (handleBlackList H s i) as [s1 i1]
  end.
  cbn [fst] in *.
  eapply continues_trans; [exact Hb|].
  eapply continues_trans; [apply handleJobDoneErrors_events|].
  apply continues_emit. reflexivity.
Qed.

Lemma sameButOutcome_refl item : sameButOutcome item item.
Proof. unfold sameButOutcome. destruct item. reflexivity. Qed.

Lemma sameButOutcome_status st item : sameButOutcome item
  (SyncFileItem.with_status st item).
Proof. unfold sameButOutcome. destruct item. reflexivity. Qed.

Lemma sameButOutcome_errorString e item : sameButOutcome item
  (SyncFileItem.with_errorString e item).
Proof. unfold sameButOutcome. destruct item. reflexivity. Qed.

Lemma sameButOutcome_trans i1 i2 i3 :
  sameButOutcome i1 i2 -> sameButOutcome i2 i3 -> sameButOutcome i1 i3.
Proof.
  unfold sameButOutcome. intros E1 E2. rewrite E2 at 1. rewrite E1 at 1.
  destruct i1. reflexivity.
Qed.

Lemma handleFileRestoration_item item errorString :
  sameButOutcome item (handleFileRestoration item errorString).
Proof.
  unfold handleFileRestoration.
  destruct (SyncFileItem._isRestoration item).
  - destruct (_ || _);
      [apply sameButOutcome_status|apply sameButOutcome_errorString].
  - destruct (isEmpty _);
      [apply sameButOutcome_errorString|apply sameButOutcome_refl].
Qed.

Lemma handleBlackList_item H s item :
  sameButOutcome item (snd (handleBlackList H s item)).
Proof.
  unfold handleBlackList.
  destruct (SyncFileItem._status item);
    try destruct (blacklistUpdate H (blacklist s) item) as [[bl st] err];
    try destruct (SyncFileItem._hasBlacklistEntry item);
    try case_bool_decide; cbn [snd];
    try apply sameButOutcome_refl;
    (eapply sameButOutcome_trans;
      [apply sameButOutcome_status|apply sameButOutcome_errorString]).
Qed.

(** [done] changes the status and the error string of its item, nothing
    else of it. *)
Lemma done_item H s item status errorString :
  sameButOutcome item (snd (done H s item status errorString)).
Proof.
  unfold done.
  match goal with
  | |- context [handleBlackList H s ?i] =>
      pose proof (handleBlackList_item H s i) as Hb;
      assert (Hi : sameButOutcome item i);
      [|destruct (handleBlackList H s i) as [s1 i1]]
  end.
  - destruct (_ && _).
    + eapply sameButOutcome_trans; [|apply sameButOutcome_status].
      eapply sameButOutcome_trans; [|apply handleFileRestoration_item].
      eapply sameButOutcome_trans;
        [apply sameButOutcome_status|apply sameButOutcome_errorString].
    + eapply sameButOutcome_trans; [|apply handleFileRestoration_item].
      eapply sameButOutcome_trans;
        [apply sameButOutcome_status|apply sameButOutcome_errorString].
  - cbn [snd] in *. eapply sameButOutcome_trans; eassumption.
Qed.

(** ** The queue through the steps before an upload *)

Lemma keepsQueue_refl s : keepsQueue s s.
Proof. constructor; reflexivity. Qed.

Lemma keepsQueue_trans s1 s2 s3 :
  keepsQueue s1 s2 -> keepsQueue s2 s3 -> keepsQueue s1 s3.
Proof. intros [] []. constructor; congruence. Qed.

Lemma keepsStores_keepsQueue s s' : keepsStores s s' -> keepsQueue s s'.
Proof. intros []. constructor; assumption. Qed.

Lemma done_keepsQueue H s item status errorString :
  keepsQueue s (fst (done H s item status errorString)).
Proof. apply keepsStores_keepsQueue, done_completes. Qed.

Lemma attachFile_keepsQueue H s item fileToUpload fileSize currentHeaders h :
  keepsQueue s (attachFile H s item fileToUpload fileSize currentHeaders h).
Proof. apply keepsStores_keepsQueue, attachFile_keeps. Qed.

Lemma doStartUpload_keepsQueue H s item fileToUpload h :
  keepsQueue s (doStartUpload H s item fileToUpload h).
Proof.
  unfold doStartUpload. destruct (abortRequested s); [apply keepsQueue_refl|].
  cbv zeta. destruct (_ && _).
  - destruct (QFile_rename _ _ _) as [files|].
    + eapply keepsQueue_trans; [|apply attachFile_keepsQueue].
      constructor; reflexivity.
    + eapply keepsQueue_trans; [|apply done_keepsQueue].
      constructor; reflexivity.
  - eapply keepsQueue_trans; [|apply attachFile_keepsQueue].
    constructor; reflexivity.
Qed.

Lemma slotStartUpload_keepsQueue H s item fileToUpload type checksum :
  keepsQueue s (slotStartUpload H s item fileToUpload type checksum).
Proof.
  unfold slotStartUpload, slotOnErrorStartFolderUnlock. cbv zeta.
  destruct (negb _); [apply done_keepsQueue|].
  case_bool_decide.
  - eapply keepsQueue_trans; [|apply done_keepsQueue]. constructor; reflexivity.
  - destruct (fileIsStillChanging H s _).
    + eapply keepsQueue_trans; [|apply done_keepsQueue].
      constructor; reflexivity.
    + apply doStartUpload_keepsQueue.
Qed.

Lemma startComputeChecksum_keepsQueue s tracked cc type path :
  keepsQueue s (startComputeChecksum s tracked cc type path).
Proof.
  unfold startComputeChecksum. destruct tracked; constructor; reflexivity.
Qed.

Lemma slotComputeTransmissionChecksum_keepsQueue H s item fileToUpload
    type checksum :
  keepsQueue s
    (slotComputeTransmissionChecksum H s item fileToUpload type checksum).
Proof.
  unfold slotComputeTransmissionChecksum. case_bool_decide.
  - apply slotStartUpload_keepsQueue.
  - apply startComputeChecksum_keepsQueue.
Qed.

Lemma slotComputeContentChecksum_keepsQueue H s item fileToUpload :
  keepsQueue s (slotComputeContentChecksum H s item fileToUpload).
Proof.
  unfold slotComputeContentChecksum.
  destruct (abortRequested s); [apply keepsQueue_refl|].
  destruct (parseChecksumHeader H _) as [existingType existing].
  case_bool_decide.
  - apply slotComputeTransmissionChecksum_keepsQueue.
  - apply startComputeChecksum_keepsQueue.
Qed.

Lemma startUploadFile_keepsQueue H s item fileToUpload :
  keepsQueue s (startUploadFile H s item fileToUpload).
Proof.
  unfold startUploadFile. destruct (abortRequested s); [apply keepsQueue_refl|].
  destruct (hasCaseClashAccessibilityProblem H _); [apply done_keepsQueue|].
  destruct (_ >? _).
  - eapply keepsQueue_trans; [|apply done_keepsQueue]. constructor; reflexivity.
  - apply slotComputeContentChecksum_keepsQueue.
Qed.

Lemma scheduleItems_items H n : forall s,
  items (scheduleItems H n s) = drop n (items s).
Proof.
  induction n as [|n IH]; intros s; [reflexivity|].
  cbn [scheduleItems]. destruct (items s) as [|currentItem rest] eqn:Hi.
  - rewrite Hi. reflexivity.
  - rewrite IH.
    rewrite (queue_items _ _ (startUploadFile_keepsQueue H _ _ _)).
    reflexivity.
Qed.

(** X1. One call of [scheduleSelfOrChild] takes the first 100 items off the
    queue, all of them when there are fewer, and leaves the others in their
    order; on an empty queue it answers [false] and changes nothing. *)
Theorem scheduleSelfOrChild_takes_100 (H : Host) (s : State) :
  items (snd (scheduleSelfOrChild H s)) = drop 100 (items s)
  /\ (length (items (snd (scheduleSelfOrChild H s)))
      = length (items s) - Nat.min 100 (length (items s)))%nat
  /\ (if bool_decide (items s = [])
      then scheduleSelfOrChild H s = (false, s)
      else fst (scheduleSelfOrChild H s)
           = bool_decide (length (items s) <= 100)%nat
             && bool_decide
                  (uploadFileParameters (snd (scheduleSelfOrChild H s)) = [])).
Proof.
  assert (Hd : items (snd (scheduleSelfOrChild H s)) = drop 100 (items s)).
  { unfold scheduleSelfOrChild.
    destruct (items s) eqn:Hi; [cbn; rewrite Hi; reflexivity|].
    cbn [snd]. rewrite scheduleItems_items. cbn [items set_state].
    rewrite Hi. reflexivity. }
  split; [exact Hd|]. split.
  - rewrite Hd, length_drop. lia.
  - case_bool_decide as He.
    + unfold scheduleSelfOrChild. rewrite He. reflexivity.
    + unfold scheduleSelfOrChild in *. destruct (items s) eqn:Hi; [done|].
      cbn [fst snd] in *. rewrite Hd. f_equal.
      apply bool_decide_ext. rewrite <- Hi.
      rewrite <- length_zero_iff_nil, length_drop. lia.
Qed.

Lemma set_items_same s : set_items (items s) s = s.
Proof. destruct s. reflexivity. Qed.

Lemma scheduleItems_aborted H n : forall s,
  abortRequested s = true ->
  scheduleItems H n s = set_items (drop n (items s)) s.
Proof.
  induction n as [|n IH]; intros s Ha.
  - cbn. symmetry. apply set_items_same.
  - cbn [scheduleItems]. destruct (items s) as [|currentItem rest] eqn:Hi.
    + cbn. rewrite <- Hi. symmetry. apply set_items_same.
    + unfold startUploadFile.
      change (abortRequested (set_items rest s)) with (abortRequested s).
      rewrite Ha, IH by exact Ha. reflexivity.
Qed.

(** X2. Under an abort request [scheduleSelfOrChild] still marks the job
    as [Running] and takes up to 100 items off the queue, and drops them:
    on a queue that is not empty [_state] becomes [Running] and [_items]
    loses its first 100 items, and nothing else of the state changes; no
    call is made, no item is announced as completed and nothing joins the
    batch.  On an empty queue nothing changes at all. *)
Theorem scheduleSelfOrChild_aborted_drops_items (H : Host) (s : State) :
  abortRequested s = true ->
  snd (scheduleSelfOrChild H s)
  = (if bool_decide (items s = []) then s
     else set_items (drop 100 (items s)) (set_state Running s))
  /\ trace (snd (scheduleSelfOrChild H s)) = trace s
  /\ uploadFileParameters (snd (scheduleSelfOrChild H s))
     = uploadFileParameters s
  /\ (items s <> [] -> _state (snd (scheduleSelfOrChild H s)) = Running).
Proof.
  intros Ha.
  assert (E : snd (scheduleSelfOrChild H s)
              = if bool_decide (items s = []) then s
                else set_items (drop 100 (items s)) (set_state Running s)).
  { unfold scheduleSelfOrChild. destruct (items s) eqn:Hi.
    - reflexivity.
    - cbn [snd]. rewrite scheduleItems_aborted by exact Ha.
      rewrite bool_decide_eq_false_2 by discriminate.
      cbn [items set_state]. rewrite Hi. reflexivity. }
  rewrite E. case_bool_decide; repeat split; try reflexivity. contradiction.
Qed.

Lemma scheduleSelfOrChild_aborted_drops_items_witness :
  items (snd (scheduleSelfOrChild exampleHost
                (set_items [exampleItem "a.txt" 100 1000;
                            exampleItem "b.txt" 200 1000] abortingState)))
  = []
  /\ trace (snd (scheduleSelfOrChild exampleHost
                   (set_items [exampleItem "a.txt" 100 1000;
                               exampleItem "b.txt" 200 1000] abortingState)))
     = [].
Proof.
  destruct (scheduleSelfOrChild_aborted_drops_items exampleHost
              (set_items [exampleItem "a.txt" 100 1000;
                          exampleItem "b.txt" 200 1000] abortingState)
              eq_refl) as (E & T & _).
  split; [rewrite E; reflexivity|exact T].
Defined.

(** ** Completion with an error status *)

Lemma handleFileRestoration_keeps_status item errorString :
  SyncFileItem._status item <> Success ->
  SyncFileItem._status item <> Conflict ->
  SyncFileItem._status (handleFileRestoration item errorString)
  = SyncFileItem._status item.
Proof.
  intros Hs Hc. unfold handleFileRestoration.
  destruct (SyncFileItem._isRestoration item).
  - rewrite (bool_decide_eq_false_2 _ Hs), (bool_decide_eq_false_2 _ Hc).
    reflexivity.
  - destruct (isEmpty _); reflexivity.
Qed.

(** [done] with one of the four error statuses, where no abort request
    turns the status into [SoftError]: the blacklist update sees the item
    with that status, and [propagator()->abort()] is called exactly when the
    status is [FatalError] afterwards. *)
Lemma done_error H s item status errorString :
  status = SoftError \/ status = DetailError
  \/ (abortRequested s = false
      /\ (status = NormalError \/ status = FatalError)) ->
  let seen := presented item status errorString in
  let completed := afterBlacklistUpdate H s seen in
  SyncFileItem._status seen = status
  /\ snd (done H s item status errorString) = completed
  /\ trace (fst (done H s item status errorString))
     = trace s ++ [EvBlacklistUpdate seen]
       ++ (if decide (SyncFileItem._status completed = FatalError)
           then [EvPropagatorAbort] else [])
       ++ [EvItemCompleted completed].
Proof.
  intros Hst seen completed.
  assert (Hseen : SyncFileItem._status seen = status).
  { subst seen. unfold presented.
    rewrite handleFileRestoration_keeps_status; cbn;
      destruct Hst as [->|[->|[_ [->| ->]]]]; done. }
  split; [exact Hseen|].
  assert (Hdone : done H s item status errorString
    = let '(s1, i1) := handleBlackList H s seen in
      let s2 := handleJobDoneErrors s1 i1 status in
      (emit (EvItemCompleted i1) s2, i1)).
  { unfold done. fold (presented item status errorString). fold seen.
    rewrite Hseen.
    destruct Hst as [->|[->|[-> [->| ->]]]]; cbn [andb orb];
      rewrite ?andb_false_r; reflexivity. }
  rewrite Hdone. clear Hdone. unfold handleBlackList. rewrite Hseen.
  subst completed. unfold afterBlacklistUpdate.
  destruct (blacklistUpdate H (blacklist s) seen) as [[bl st] err].
  cbn [fst snd].
  destruct Hst as [->|[->|[_ [->| ->]]]]; cbn [fst snd];
    (split; [reflexivity|]);
    unfold handleJobDoneErrors, propagator_abort;
    cbn [SyncFileItem._status SyncFileItem.with_errorString
         SyncFileItem.with_status];
    destruct st; case_bool_decide; case_decide; try discriminate;
    try congruence; cbn; rewrite <- ?app_assoc; reflexivity.
Qed.

Lemma sameButOutcome_fields item item' :
  sameButOutcome item item' ->
  SyncFileItem._file item' = SyncFileItem._file item
  /\ SyncFileItem._httpErrorCode item' = SyncFileItem._httpErrorCode item
  /\ SyncFileItem._etag item' = SyncFileItem._etag item
  /\ SyncFileItem._fileId item' = SyncFileItem._fileId item
  /\ SyncFileItem._modtime item' = SyncFileItem._modtime item
  /\ SyncFileItem._size item' = SyncFileItem._size item.
Proof. intros ->. repeat split. Qed.


(** ** Refusals before the checksum *)





(** ** Completions *)

(** X5. Without an abort request, a completion with [FatalError] reaches the
    blacklist update as [FatalError], and [propagator()->abort()] is called,
    once and before the item is announced, exactly when the status is still
    [FatalError] after the blacklist update; [_finalStatus] then becomes
    [NormalError]. *)
Theorem done_fatal_aborts_propagation (H : Host) (s : State)
    (item : SyncFileItem.t) (errorString : string) :
  abortRequested s = false ->
  let seen := presented item FatalError errorString in
  let completed := afterBlacklistUpdate H s seen in
  let r := fst (done H s item FatalError errorString) in
  SyncFileItem._status seen = FatalError
  /\ snd (done H s item FatalError errorString) = completed
  /\ trace r
     = trace s ++ [EvBlacklistUpdate seen]
       ++ (if decide (SyncFileItem._status completed = FatalError)
           then [EvPropagatorAbort] else [])
       ++ [EvItemCompleted completed]
  /\ finalStatus r
     = default (finalStatus s) (finalStatusOf (SyncFileItem._status completed))
  /\ (SyncFileItem._status completed = FatalError ->
      finalStatus r = NormalError).
Proof.
  intros Ha seen completed r.
  destruct (done_error H s item FatalError errorString) as (Hs & Hc & Ht);
    [auto|].
  fold seen in Hs, Hc, Ht. fold completed in Hc, Ht.
  pose proof (done_finalStatus H s item FatalError errorString) as Hf.
  rewrite Hc in Hf. fold r in Hf, Ht.
  repeat split; try assumption.
  intros E. rewrite Hf, E. reflexivity.
Qed.

Lemma done_fatal_aborts_propagation_witness :
  trace (fst (done exampleHost emptyState (exampleItem "a.txt" 100 1000)
                FatalError "Error updating metadata: disk full"))
  = [EvBlacklistUpdate
       (presented (exampleItem "a.txt" 100 1000) FatalError
          "Error updating metadata: disk full");
     EvPropagatorAbort;
     EvItemCompleted
       (presented (exampleItem "a.txt" 100 1000) FatalError
          "Error updating metadata: disk full")].
Proof.
  destruct (done_fatal_aborts_propagation exampleHost emptyState
              (exampleItem "a.txt" 100 1000)
              "Error updating metadata: disk full" eq_refl)
    as (_ & _ & Ht & _).
  rewrite Ht. reflexivity.
Defined.

(** X6. A completion with [Success] never calls the blacklist update nor
    [propagator()->abort()]: if the item has a blacklist entry, the entries
    of its path and of its original path are wiped, and no other.  The item
    is announced as [Success] and [_finalStatus] stays; but an item that is
    a restoration is announced as [Restoration], and [_finalStatus] becomes
    [NormalError]. *)
Theorem done_success_wipes_blacklist (H : Host) (s : State)
    (item : SyncFileItem.t) (errorString : string) :
  let r := fst (done H s item Success errorString) in
  let completed := snd (done H s item Success errorString) in
  SyncFileItem._status completed
  = (if SyncFileItem._isRestoration item then Restoration else Success)
  /\ SyncFileItem._errorString completed = errorString
  /\ blacklist r
     = (if SyncFileItem._hasBlacklistEntry item
        then delete (SyncFileItem._originalFile item)
               (delete (SyncFileItem._file item) (blacklist s))
        else blacklist s)
  /\ finalStatus r
     = (if SyncFileItem._isRestoration item then NormalError
        else finalStatus s)
  /\ trace r
     = trace s
       ++ (if SyncFileItem._hasBlacklistEntry item
           then EvWipeErrorBlacklistEntry (SyncFileItem._file item)
                :: (if decide (SyncFileItem._originalFile item
                               <> SyncFileItem._file item)
                    then [EvWipeErrorBlacklistEntry
                            (SyncFileItem._originalFile item)]
                    else [])
           else [])
       ++ [EvItemCompleted completed].
Proof.
  cbv zeta.
  assert (Hi : handleFileRestoration
                 (SyncFileItem.with_errorString errorString
                    (SyncFileItem.with_status Success item)) errorString
               = SyncFileItem.with_errorString errorString
                   (SyncFileItem.with_status
                      (if SyncFileItem._isRestoration item then Restoration
                       else Success) item)).
  { unfold handleFileRestoration.
    cbn [SyncFileItem._isRestoration SyncFileItem._status
         SyncFileItem._errorString SyncFileItem.with_errorString
         SyncFileItem.with_status].
    destruct (SyncFileItem._isRestoration item).
    - rewrite (bool_decide_eq_true_2 (Success = Success)) by reflexivity.
      reflexivity.
    - destruct (isEmpty errorString); reflexivity. }
  unfold done. rewrite Hi. clear Hi.
  cbn [SyncFileItem._status SyncFileItem.with_errorString
       SyncFileItem.with_status].
  assert (Hn : forall b : bool,
            bool_decide ((if b then Restoration else Success) = NormalError)
            || bool_decide ((if b then Restoration else Success) = FatalError)
            = false).
  { intros []; rewrite !bool_decide_eq_false_2 by discriminate; reflexivity. }
  rewrite Hn, andb_false_r. clear Hn.
  unfold handleBlackList, handleJobDoneErrors, propagator_abort,
    wipeErrorBlacklistEntry.
  cbn [SyncFileItem._status SyncFileItem.with_errorString
       SyncFileItem.with_status SyncFileItem._hasBlacklistEntry
       SyncFileItem._originalFile SyncFileItem._file
       SyncFileItem._errorString].
  destruct (SyncFileItem._isRestoration item);
    destruct (SyncFileItem._hasBlacklistEntry item);
    repeat case_bool_decide; repeat case_decide; try discriminate;
    try contradiction; cbn; rewrite <- ?app_assoc;
    repeat split; try reflexivity;
    (replace (SyncFileItem._originalFile item)
       with (SyncFileItem._file item) by (symmetry; tauto));
    rewrite delete_delete_eq; reflexivity.
Qed.

(** ** The reply of the bulk PUT *)

(** X7. The reply taken for a file is the first object of the reply array
    whose [X-File-Path] is the path of the file; when no object of the array
    has that path it is the empty object.  So a reply that is not the empty
    object always carries the path it was looked up for. *)
Theorem findFileReply_first_match (replyArray : list (gmap string JsonValue))
    (file : string) :
  (Forall (λ o, getHeaderFromJsonReply o "X-File-Path" <> file) replyArray ->
   findFileReply replyArray file = ∅)
  /\ (forall before o after,
        replyArray = before ++ o :: after ->
        Forall (λ o, getHeaderFromJsonReply o "X-File-Path" <> file) before ->
        getHeaderFromJsonReply o "X-File-Path" = file ->
        findFileReply replyArray file = o)
  /\ (findFileReply replyArray file <> ∅ ->
      getHeaderFromJsonReply (findFileReply replyArray file) "X-File-Path"
      = file).
Proof.
  split; [|split].
  - induction 1 as [|o l Ho _ IH]; [reflexivity|].
    cbn [findFileReply]. rewrite (bool_decide_eq_false_2 _ Ho). exact IH.
  - intros before o after -> Hb Ho. induction Hb as [|o' l Ho' _ IH].
    + cbn [app findFileReply]. rewrite (bool_decide_eq_true_2 _ Ho).
      reflexivity.
    + cbn [app findFileReply]. rewrite (bool_decide_eq_false_2 _ Ho').
      exact IH.
  - induction replyArray as [|o l IH]; [intros Hne; contradiction|].
    cbn [findFileReply]. case_bool_decide as Ho; [intros _; exact Ho|exact IH].
Qed.

Lemma repliesTakenIn_refl s : repliesTakenIn s s.
Proof. constructor; reflexivity. Qed.

Lemma repliesTakenIn_trans s1 s2 s3 :
  repliesTakenIn s1 s2 -> repliesTakenIn s2 s3 -> repliesTakenIn s1 s3.
Proof. intros [] []. constructor; congruence. Qed.

Lemma computeFileId_item s item fileReply :
  snd (computeFileId s item fileReply)
  = (if negb (isEmpty (getHeaderFromJsonReply fileReply "OC-FileID"))
     then SyncFileItem.with_fileId
            (getHeaderFromJsonReply fileReply "OC-FileID") item
     else item).
Proof. unfold computeFileId. destruct (negb _); reflexivity. Qed.

Lemma computeFileId_takenIn s item fileReply :
  repliesTakenIn s (fst (computeFileId s item fileReply))
  /\ anotherSyncNeeded (fst (computeFileId s item fileReply))
     = anotherSyncNeeded s
  /\ jobs (fst (computeFileId s item fileReply)) = jobs s
  /\ uploadFileParameters (fst (computeFileId s item fileReply))
     = uploadFileParameters s.
Proof.
  unfold computeFileId. destruct (negb _); cbn [fst].
  - destruct (_ && _); repeat split.
    cbn. unfold completedItems. rewrite omap_app, app_nil_r. reflexivity.
  - repeat split.
Qed.

Lemma computeFileId_notFinalizing s item fileReply :
  continues notFinalizing s (fst (computeFileId s item fileReply)).
Proof.
  unfold computeFileId. destruct (negb _); cbn [fst];
    [|apply continues_refl].
  destruct (_ && _); [|apply continues_refl].
  apply continues_emit. reflexivity.
Qed.

Lemma filter_twice {A} (P : A -> Prop) `{!forall x, Decision (P x)}
    (l : list A) :
  filter P (filter P l) = filter P l.
Proof.
  induction l as [|x l IH]; [reflexivity|].
  rewrite filter_cons. case_decide as Hx.
  - rewrite filter_cons. rewrite decide_True by exact Hx. rewrite IH.
    reflexivity.
  - exact IH.
Qed.

Lemma checkFileStillExists_pass H s item finished path :
  finished || fileExists (fs s) path = true ->
  checkFileStillExists H s item finished path
  = (true,
     if fileExists (fs s) path then s else set_anotherSyncNeeded true s,
     item).
Proof.
  unfold checkFileStillExists. destruct (fileExists _ _), finished; cbn;
    intros; try discriminate; reflexivity.
Qed.

Lemma checkFileChanged_pass H s item finished path :
  finished
  || verifyFileUnchanged (fs s) path (SyncFileItem._size item)
       (SyncFileItem._modtime item) = true ->
  checkFileChanged H s item finished path
  = (true,
     if verifyFileUnchanged (fs s) path (SyncFileItem._size item)
          (SyncFileItem._modtime item)
     then s else set_anotherSyncNeeded true s,
     item).
Proof.
  unfold checkFileChanged. destruct (verifyFileUnchanged _ _ _ _), finished;
    cbn; intros; try discriminate; reflexivity.
Qed.

(** One turn of the loop of [slotPutFinished] for an entry that is let
    through; [body] is what the turn reads. *)
Lemma putFinishedFiles_step H job reply body passed oneFile rest s :
  networkError reply = NoError ->
  to_quint16 (httpStatusCode reply) <> 202 ->
  replyAccepted H (fs s) (withBody body reply) oneFile = true ->
  exists s1,
    putFinishedFiles H job reply body passed (oneFile :: rest) s
    = putFinishedFiles H job reply []
        (passed ++ [acceptedEntry H (withBody body reply) oneFile]) rest
        (storeEntry passed (acceptedEntry H (withBody body reply) oneFile)
           rest s1)
    /\ repliesTakenIn s s1
    /\ jobs s1 = filter (λ j, j <> job) (jobs s)
    /\ anotherSyncNeeded s1
       = anotherSyncNeeded s || localFileOff H (fs s) (_item oneFile)
    /\ continues notFinalizing s s1.
Proof.
  intros Hne Hcode Hacc. cbn [putFinishedFiles]. cbv zeta.
  fold (respondedItem reply (_item oneFile)).
  rewrite Hne. rewrite (bool_decide_eq_false_2 (NoError <> NoError)) by tauto.
  rewrite (bool_decide_eq_false_2
             (SyncFileItem._httpErrorCode (respondedItem reply (_item oneFile))
              = 202)) by exact Hcode.
  change (SyncFileItem._file (respondedItem reply (_item oneFile)))
    with (SyncFileItem._file (_item oneFile)).
  change (getEtagFromJsonReply H
            (findFileReply body (SyncFileItem._file (_item oneFile))))
    with (replyEtag H (withBody body reply) (_item oneFile)).
  unfold replyAccepted, localFileOff in *.
  set (path := fullLocalPath H (SyncFileItem._file (_item oneFile))) in *.
  set (fin := negb (isEmpty
                      (replyEtag H (withBody body reply) (_item oneFile))))
    in *.
  set (s0 := slotJobDestroyed job s).
  assert (Hfs0 : fs s0 = fs s) by reflexivity.
  set (ex := fileExists (fs s) path) in *.
  set (un := verifyFileUnchanged (fs s) path (SyncFileItem._size (_item oneFile))
               (SyncFileItem._modtime (_item oneFile))) in *.
  assert (Hex : fin || ex = true).
  { destruct fin, ex; cbn in *; try discriminate; reflexivity. }
  assert (Hun : fin || un = true).
  { destruct fin, ex, un; cbn in *; try discriminate; reflexivity. }
  rewrite checkFileStillExists_pass by (rewrite Hfs0; exact Hex).
  cbn [negb]. rewrite Hfs0. fold ex.
  set (sA := if ex then s0 else set_anotherSyncNeeded true s0).
  assert (HfsA : fs sA = fs s) by (subst sA; destruct ex; reflexivity).
  rewrite checkFileChanged_pass by (rewrite HfsA; exact Hun).
  cbn [negb]. rewrite HfsA.
  change (SyncFileItem._size (respondedItem reply (_item oneFile)))
    with (SyncFileItem._size (_item oneFile)).
  change (SyncFileItem._modtime (respondedItem reply (_item oneFile)))
    with (SyncFileItem._modtime (_item oneFile)).
  fold un.
  set (sB := if un then sA else set_anotherSyncNeeded true sA).
  set (fileReply := findFileReply body (SyncFileItem._file (_item oneFile))).
  exists (fst (computeFileId sB (respondedItem reply (_item oneFile)) fileReply)).
  pose proof (computeFileId_item sB (respondedItem reply (_item oneFile))
                fileReply) as Hi.
  destruct (computeFileId_takenIn sB (respondedItem reply (_item oneFile))
              fileReply) as (T & A & J & _).
  pose proof (computeFileId_notFinalizing sB
                (respondedItem reply (_item oneFile)) fileReply) as Q.
  destruct (computeFileId sB _ _) as [s1 item1]. cbn [fst snd] in *.
  subst item1.
  split; [reflexivity|].
  split.
  { eapply repliesTakenIn_trans; [|exact T].
    subst sB sA s0. destruct un, ex; constructor; reflexivity. }
  split.
  { rewrite J. subst sB sA s0. destruct un, ex; reflexivity. }
  split.
  { rewrite A. subst sB sA s0.
    destruct un, ex; cbn; rewrite ?orb_true_r, ?orb_false_r; reflexivity. }
  eapply continues_trans; [|exact Q].
  apply continues_same. subst sB sA s0. destruct un, ex; reflexivity.
Qed.

Lemma repliesTakenIn_storeEntry s s1 passed oneFile rest :
  repliesTakenIn s s1 -> repliesTakenIn s (storeEntry passed oneFile rest s1).
Proof. intros []. constructor; cbn; assumption. Qed.

(** The turns of the loop behind the first, over entries that are let
    through: they read a drained reply. *)
Lemma putFinishedFiles_drained H job reply :
  networkError reply = NoError ->
  to_quint16 (httpStatusCode reply) <> 202 ->
  forall before passed s todo,
    forallb (replyAccepted H (fs s) (drained reply)) before = true ->
    exists s1,
      putFinishedFiles H job reply [] passed (before ++ todo) s
      = putFinishedFiles H job reply []
          (passed ++ map (acceptedEntry H (drained reply)) before) todo s1
      /\ repliesTakenIn s s1
      /\ jobs s1 = match before with
                   | [] => jobs s
                   | _ :: _ => filter (λ j, j <> job) (jobs s)
                   end
      /\ anotherSyncNeeded s1
         = anotherSyncNeeded s
           || existsb (λ f, localFileOff H (fs s) (_item f)) before
      /\ continues notFinalizing s s1
      /\ uploadFileParameters s1
         = match before with
           | [] => uploadFileParameters s
           | _ :: _ =>
               passed ++ map (acceptedEntry H (drained reply)) before ++ todo
           end.
Proof.
  intros Hne Hcode. induction before as [|oneFile before IH];
    intros passed s todo Hacc.
  - exists s. cbn [app map existsb]. rewrite app_nil_r, orb_false_r.
    split; [reflexivity|]. split; [apply repliesTakenIn_refl|].
    split; [reflexivity|]. split; [reflexivity|].
    split; [apply continues_refl|reflexivity].
  - change (forallb ?f (oneFile :: ?l))
      with (f oneFile && forallb f l) in Hacc.
    apply andb_true_iff in Hacc as [Hacc Hrest].
    cbn [app].
    destruct (putFinishedFiles_step H job reply [] passed oneFile
                (before ++ todo) s Hne Hcode Hacc)
      as (s1 & E & T & J & A & Q).
    rewrite E. fold (drained reply).
    set (s2 := storeEntry passed (acceptedEntry H (drained reply) oneFile)
                 (before ++ todo) s1).
    assert (T2 : repliesTakenIn s s2)
      by (apply repliesTakenIn_storeEntry; exact T).
    assert (Hfs : fs s2 = fs s) by exact (taken_fs _ _ T2).
    destruct (IH (passed ++ [acceptedEntry H (drained reply) oneFile]) s2 todo)
      as (s3 & E3 & T3 & J3 & A3 & Q3 & U3).
    { rewrite Hfs. exact Hrest. }
    exists s3. split.
    { rewrite E3. cbn [map]. rewrite <- app_assoc. reflexivity. }
    split; [eapply repliesTakenIn_trans; eassumption|].
    split.
    { rewrite J3. change (jobs s2) with (jobs s1). rewrite J.
      destruct before; [reflexivity|apply filter_twice]. }
    split.
    { rewrite A3, Hfs. change (anotherSyncNeeded s2)
        with (anotherSyncNeeded s1).
      rewrite A. cbn [existsb]. rewrite orb_assoc. reflexivity. }
    split.
    { eapply continues_trans; [exact Q|].
      eapply continues_trans; [|exact Q3]. apply continues_same. reflexivity. }
    rewrite U3. destruct before; [reflexivity|].
    cbn [map app]. rewrite <- app_assoc. reflexivity.
Qed.

(** The loop of [slotPutFinished] over a first part of the batch that is
    let through: the first entry against the reply, the others against the
    drained reply. *)
Lemma putFinishedFiles_prefix H job reply :
  networkError reply = NoError ->
  to_quint16 (httpStatusCode reply) <> 202 ->
  forall before s todo,
    batchAccepted H (fs s) reply before = true ->
    exists s1,
      putFinishedFiles H job reply (replyArray reply) [] (before ++ todo) s
      = putFinishedFiles H job reply
          (match before with [] => replyArray reply | _ :: _ => [] end)
          (acceptedBatch H reply before) todo s1
      /\ repliesTakenIn s s1
      /\ jobs s1 = match before with
                   | [] => jobs s
                   | _ :: _ => filter (λ j, j <> job) (jobs s)
                   end
      /\ anotherSyncNeeded s1
         = anotherSyncNeeded s
           || existsb (λ f, localFileOff H (fs s) (_item f)) before
      /\ continues notFinalizing s s1
      /\ uploadFileParameters s1
         = match before with
           | [] => uploadFileParameters s
           | _ :: _ => acceptedBatch H reply before ++ todo
           end.
Proof.
  intros Hne Hcode [|first before] s todo Hacc.
  - exists s. cbn [app existsb acceptedBatch]. rewrite orb_false_r.
    split; [reflexivity|]. split; [apply repliesTakenIn_refl|].
    split; [reflexivity|]. split; [reflexivity|].
    split; [apply continues_refl|reflexivity].
  - cbn [batchAccepted] in Hacc.
    apply andb_true_iff in Hacc as [Hacc Hrest]. cbn [app].
    destruct (putFinishedFiles_step H job reply (replyArray reply) [] first
                (before ++ todo) s Hne Hcode Hacc)
      as (s1 & E & T & J & A & Q).
    rewrite E.
    change (acceptedEntry H (withBody (replyArray reply) reply) first)
      with (acceptedEntry H reply first).
    set (s2 := storeEntry [] (acceptedEntry H reply first) (before ++ todo) s1).
    assert (T2 : repliesTakenIn s s2)
      by (apply repliesTakenIn_storeEntry; exact T).
    assert (Hfs : fs s2 = fs s) by exact (taken_fs _ _ T2).
    destruct (putFinishedFiles_drained H job reply Hne Hcode before
                ([] ++ [acceptedEntry H reply first]) s2 todo)
      as (s3 & E3 & T3 & J3 & A3 & Q3 & U3).
    { rewrite Hfs. exact Hrest. }
    exists s3. split; [exact E3|].
    split; [eapply repliesTakenIn_trans; eassumption|].
    split.
    { rewrite J3. change (jobs s2) with (jobs s1). rewrite J.
      destruct before; [reflexivity|apply filter_twice]. }
    split.
    { rewrite A3, Hfs. change (anotherSyncNeeded s2)
        with (anotherSyncNeeded s1).
      rewrite A. cbn [existsb]. rewrite orb_assoc. reflexivity. }
    split.
    { eapply continues_trans; [exact Q|].
      eapply continues_trans; [|exact Q3]. apply continues_same. reflexivity. }
    rewrite U3. destruct before; reflexivity.
Qed.

Lemma acceptedEntry_drained H reply oneFile :
  acceptedEntry H (drained reply) oneFile = passedOver H reply oneFile.
Proof.
  unfold acceptedEntry, passedOver, drained, withBody. cbn [replyArray].
  cbn [findFileReply]. unfold getHeaderFromJsonReply at 1 2.
  rewrite lookup_empty. reflexivity.
Qed.

(** X8. [slotPutFinished], reply let through.  The loop reads the body of
    the reply in every turn, and a reply is read once, so only the first
    file of the batch is checked against the reply: the files behind it
    find no object, hence no etag and no file id.  When the PUT ended
    without a network error, its status code is not 202, the reply carries
    an etag for the first file or that file is there and as discovered, and
    every file behind it is there and as discovered (or [parseEtag] gives an
    etag for the empty text), then the loop runs over the whole batch and
    [finalize] is entered.  The first entry has taken the code, the time
    stamp, the request id, the file id and the etag of the reply; every
    entry behind it has taken the code, the time stamp and the request id,
    and has its etag replaced by what an empty reply object gives.  The PUT
    job is off the job list, another sync is asked for when some local file
    is gone or changed, and no item was completed, nor the journal, the
    quota, the blacklist or the final status touched, before [finalize]. *)
Theorem slotPutFinished_accepted_reply_reaches_finalize
    (H : Host) (s : State) (job : nat) (reply : PutReply) :
  networkError reply = NoError ->
  to_quint16 (httpStatusCode reply) <> 202 ->
  batchAccepted H (fs s) reply (uploadFileParameters s) = true ->
  exists s1,
    slotPutFinished H s job reply = finalize H s1
    /\ uploadFileParameters s1 = acceptedBatch H reply (uploadFileParameters s)
    /\ tail (uploadFileParameters s1)
       = map (passedOver H reply) (tail (uploadFileParameters s))
    /\ jobs s1
       = match uploadFileParameters s with
         | [] => jobs s
         | _ :: _ => filter (λ j, j <> job) (jobs s)
         end
    /\ anotherSyncNeeded s1
       = anotherSyncNeeded s
         || existsb (λ f, localFileOff H (fs s) (_item f))
              (uploadFileParameters s)
    /\ repliesTakenIn s s1.
Proof.
  intros Hne Hcode Hacc. unfold slotPutFinished.
  destruct (putFinishedFiles_prefix H job reply Hne Hcode
              (uploadFileParameters s) s [] Hacc)
    as (s1 & E & T & J & A & _ & U).
  rewrite app_nil_r in E. rewrite E. cbn [putFinishedFiles].
  exists s1. split; [reflexivity|].
  assert (U1 : uploadFileParameters s1
               = acceptedBatch H reply (uploadFileParameters s)).
  { rewrite U. destruct (uploadFileParameters s); [reflexivity|].
    apply app_nil_r. }
  split; [exact U1|].
  split.
  { rewrite U1. destruct (uploadFileParameters s) as [|first rest];
      [reflexivity|].
    cbn [acceptedBatch tail]. apply map_ext. intros p.
    apply acceptedEntry_drained. }
  split; [exact J|]. split; [exact A|exact T].
Qed.

Lemma slotPutFinished_accepted_reply_reaches_finalize_witness :
  exists s1,
    slotPutFinished exampleHost twoFilesState 0 okReply
    = finalize exampleHost s1
    /\ map (λ p, SyncFileItem._etag (_item p)) (uploadFileParameters s1)
       = ["e-a"; EmptyString].
Proof.
  destruct (slotPutFinished_accepted_reply_reaches_finalize exampleHost
              twoFilesState 0 okReply)
    as (s1 & E & U & _).
  - reflexivity.
  - vm_compute. discriminate.
  - vm_compute. reflexivity.
  - exists s1. split; [exact E|]. rewrite U. vm_compute. reflexivity.
Defined.

(** ** The bulk PUT is all or nothing *)

Lemma openDevices_all H todo :
  Forall (λ p, deviceOpen H (_localPath p) = None) todo ->
  openDevices H todo
  = (map stamped todo, map (λ p, _headers (stamped p)) todo, None).
Proof.
  induction 1 as [|oneFile rest Ho _ IH]; [reflexivity|].
  cbn [openDevices]. rewrite Ho, IH. reflexivity.
Qed.


(** X9. When the device of every file of the batch opens, [triggerUpload]
    starts one PUT for the whole batch: one part per entry, in the order of
    the batch, each part being the headers of its entry with [X-File-Path]
    set to the remote path of the entry.  The job is appended to [_jobs],
    the entries keep the stamped headers, and nothing else changes: no item
    is completed, no store is written and the abort request is as before. *)
Theorem triggerUpload_sends_whole_batch (H : Host) (s : State) :
  Forall (λ p, deviceOpen H (_localPath p) = None) (uploadFileParameters s) ->
  let r := triggerUpload H s in
  trace r
  = trace s
    ++ [EvPutStart (nextJob s)
          (map (λ p, <["X-File-Path" := _remotePath p]> (_headers p))
             (uploadFileParameters s))]
  /\ jobs r = jobs s ++ [nextJob s]
  /\ nextJob r = S (nextJob s)
  /\ uploadFileParameters r = map stamped (uploadFileParameters s)
  /\ Forall (λ p, _headers p !! "X-File-Path" = Some (_remotePath p))
       (uploadFileParameters r)
  /\ keepsStores s r
  /\ abortRequested r = abortRequested s.
Proof.
  intros Ho r. subst r. unfold triggerUpload.
  rewrite (openDevices_all _ _ Ho).
  split; [reflexivity|]. split; [reflexivity|]. split; [reflexivity|].
  split; [reflexivity|].
  split; [|split; [constructor; reflexivity|reflexivity]].
  cbn [uploadFileParameters set_uploadFileParameters emit set_jobs set_nextJob
       set_trace].
  induction (uploadFileParameters s) as [|p l IH]; constructor.
  - cbn. apply lookup_insert_eq.
  - apply IH. inversion Ho; assumption.
Qed.

Lemma triggerUpload_sends_whole_batch_witness :
  jobs (triggerUpload exampleHost twoFilesState) = [0; 1]%nat.
Proof.
  destruct (triggerUpload_sends_whole_batch exampleHost twoFilesState)
    as (_ & J & _).
  - repeat constructor.
  - exact J.
Defined.



(** ** Content checksums hold the PUT back *)

Lemma holdsBackUpload_refl s : checksumsJobs s <> [] -> holdsBackUpload s s.
Proof. intros Hc. constructor; [reflexivity|apply continues_refl|exact Hc]. Qed.

Lemma holdsBackUpload_trans s1 s2 s3 :
  holdsBackUpload s1 s2 -> holdsBackUpload s2 s3 -> holdsBackUpload s1 s3.
Proof.
  intros [J1 T1 _] [J2 T2 C2]. constructor; [congruence| |exact C2].
  eapply continues_trans; eassumption.
Qed.

Lemma holdsBackUpload_emit e s :
  notPutStart e = true -> checksumsJobs s <> [] ->
  holdsBackUpload s (emit e s).
Proof.
  intros He Hc. constructor; [reflexivity| |exact Hc].
  apply continues_emit, He.
Qed.

Lemma holdsBackUpload_same s r :
  jobs r = jobs s -> trace r = trace s -> checksumsJobs r = checksumsJobs s ->
  checksumsJobs s <> [] -> holdsBackUpload s r.
Proof.
  intros J T C Hc. constructor; [exact J| |rewrite C; exact Hc].
  apply continues_same, T.
Qed.

Lemma done_holdsBackUpload H s item status errorString :
  checksumsJobs s <> [] ->
  holdsBackUpload s (fst (done H s item status errorString)).
Proof.
  intros Hc.
  destruct (done_completes H s item status errorString) as (K & _ & J & _).
  constructor; [exact J| |rewrite (keeps_checksumsJobs _ _ K); exact Hc].
  eapply continues_weaken; [|apply done_events].
  intros []; cbn; intros; try discriminate; reflexivity.
Qed.

Lemma attachFile_holdsBackUpload H s item fileToUpload fileSize
    currentHeaders h :
  checksumsJobs s <> [] ->
  holdsBackUpload s
    (attachFile H s item fileToUpload fileSize currentHeaders h).
Proof.
  intros Hc. unfold attachFile. cbv zeta.
  cbn [checksumsJobs set_uploadFileParameters].
  destruct (checksumsJobs s) eqn:E; [contradiction|].
  apply holdsBackUpload_same; try reflexivity. rewrite E. exact Hc.
Qed.

Lemma doStartUpload_holdsBackUpload H s item fileToUpload h :
  checksumsJobs s <> [] ->
  holdsBackUpload s (doStartUpload H s item fileToUpload h).
Proof.
  intros Hc. unfold doStartUpload.
  destruct (abortRequested s); [apply holdsBackUpload_refl, Hc|].
  cbv zeta.
  assert (Hw : holdsBackUpload s
                 (commit "Upload info"
                    (setUploadInfo (SyncFileItem._file item)
                       (UploadInfo.mk true 0 0 (SyncFileItem._modtime item) 0
                          (SyncFileItem._checksumHeader item)
                          (SyncFileItem._size item)) s))).
  { constructor; [reflexivity| |exact Hc].
    exists [EvSetUploadInfo (SyncFileItem._file item)
              (UploadInfo.mk true 0 0 (SyncFileItem._modtime item) 0
                 (SyncFileItem._checksumHeader item) (SyncFileItem._size item));
            EvCommit "Upload info"].
    split; [|reflexivity]. cbn. rewrite <- app_assoc. reflexivity. }
  destruct (_ && _).
  - destruct (QFile_rename _ _ _) as [files|].
    + eapply holdsBackUpload_trans; [exact Hw|].
      eapply holdsBackUpload_trans;
        [|apply attachFile_holdsBackUpload; exact Hc].
      eapply holdsBackUpload_trans;
        [|apply holdsBackUpload_emit; [reflexivity|exact Hc]].
      apply holdsBackUpload_same; try reflexivity. exact Hc.
    + eapply holdsBackUpload_trans; [exact Hw|].
      eapply holdsBackUpload_trans;
        [|apply done_holdsBackUpload; exact Hc].
      apply holdsBackUpload_emit; [reflexivity|exact Hc].
  - eapply holdsBackUpload_trans; [exact Hw|].
    apply attachFile_holdsBackUpload. exact Hc.
Qed.

Lemma slotStartUpload_holdsBackUpload H s item fileToUpload type checksum :
  checksumsJobs s <> [] ->
  holdsBackUpload s (slotStartUpload H s item fileToUpload type checksum).
Proof.
  intros Hc. unfold slotStartUpload, slotOnErrorStartFolderUnlock. cbv zeta.
  destruct (negb _); [apply done_holdsBackUpload, Hc|].
  case_bool_decide.
  - eapply holdsBackUpload_trans; [|apply done_holdsBackUpload; exact Hc].
    apply holdsBackUpload_same; try reflexivity. exact Hc.
  - destruct (fileIsStillChanging H s _).
    + eapply holdsBackUpload_trans; [|apply done_holdsBackUpload; exact Hc].
      apply holdsBackUpload_same; try reflexivity. exact Hc.
    + apply doStartUpload_holdsBackUpload, Hc.
Qed.

Lemma startComputeChecksum_holdsBackUpload s tracked cc type path :
  checksumsJobs s <> [] ->
  holdsBackUpload s (startComputeChecksum s tracked cc type path).
Proof.
  intros Hc. unfold startComputeChecksum.
  constructor; [destruct tracked; reflexivity| |].
  - exists [EvComputeChecksum (nextJob s) type path].
    split; [destruct tracked; reflexivity|reflexivity].
  - destruct tracked; cbn; [|exact Hc].
    destruct (checksumsJobs s); [contradiction|discriminate].
Qed.

Lemma slotComputeTransmissionChecksum_holdsBackUpload H s item fileToUpload
    type checksum :
  checksumsJobs s <> [] ->
  holdsBackUpload s
    (slotComputeTransmissionChecksum H s item fileToUpload type checksum).
Proof.
  intros Hc. unfold slotComputeTransmissionChecksum. case_bool_decide.
  - apply slotStartUpload_holdsBackUpload, Hc.
  - apply startComputeChecksum_holdsBackUpload, Hc.
Qed.

Lemma startUploadFile_holdsBackUpload H s item fileToUpload :
  checksumsJobs s <> [] ->
  holdsBackUpload s (startUploadFile H s item fileToUpload).
Proof.
  intros Hc. unfold startUploadFile.
  destruct (abortRequested s) eqn:Ha; [apply holdsBackUpload_refl, Hc|].
  destruct (hasCaseClashAccessibilityProblem H _);
    [apply done_holdsBackUpload, Hc|].
  destruct (_ >? _).
  - eapply holdsBackUpload_trans; [|apply done_holdsBackUpload; exact Hc].
    apply holdsBackUpload_emit; [reflexivity|exact Hc].
  - unfold slotComputeContentChecksum. rewrite Ha.
    destruct (parseChecksumHeader H _) as [existingType existing].
    case_bool_decide.
    + apply slotComputeTransmissionChecksum_holdsBackUpload, Hc.
    + apply startComputeChecksum_holdsBackUpload, Hc.
Qed.

Lemma scheduleItems_holdsBackUpload H n : forall s,
  checksumsJobs s <> [] -> holdsBackUpload s (scheduleItems H n s).
Proof.
  induction n as [|n IH]; intros s Hc; [apply holdsBackUpload_refl, Hc|].
  cbn [scheduleItems]. destruct (items s) as [|currentItem rest];
    [apply holdsBackUpload_refl, Hc|].
  match goal with
  | |- context [startUploadFile H ?s0 ?i ?f] =>
      assert (Hs : holdsBackUpload s0 (startUploadFile H s0 i f))
        by (apply startUploadFile_holdsBackUpload; exact Hc)
  end.
  eapply holdsBackUpload_trans; [|apply IH, (held_checksumsJobs _ _ Hs)].
  eapply holdsBackUpload_trans; [|exact Hs].
  apply holdsBackUpload_same; try reflexivity. exact Hc.
Qed.

(** X11. While a content checksum is registered in [_checksumsJobs], no
    PUT is started: neither the result of a checksum, content or
    transmission, nor a further round of [scheduleSelfOrChild] appends to
    [_jobs] or starts a PUT, and the list is still not empty afterwards.
    An entry that passes the checks of [slotStartUpload], the slot the
    results of both checksums end in, joins the batch and waits: with no
    rename to do, its journal record is committed, the entry is appended to
    the batch, and that is all.  An object is erased from the list on its
    [destroyed] signal only, which [deleteLater] raises after the slot of
    its result has returned. *)
Theorem no_put_while_content_checksum_registered (H : Host) (s : State) :
  checksumsJobs s <> [] ->
  (forall job checksumType checksum,
     holdsBackUpload s (computeChecksum_done H s job checksumType checksum))
  /\ holdsBackUpload s (snd (scheduleSelfOrChild H s))
  /\ (forall item fileToUpload checksumType checksum,
        passesChecks H s item fileToUpload checksumType checksum = true ->
        wantsRename item = false ->
        let item' := itemAtAgeCheck H s item checksumType checksum in
        let r := slotStartUpload H s item fileToUpload checksumType checksum in
        exists entry,
          uploadFileParameters r = uploadFileParameters s ++ [entry]
          /\ _item entry = item'
          /\ _fileToUpload entry = fileAtAgeCheck s fileToUpload
          /\ jobs r = jobs s
          /\ trace r
             = trace s
               ++ [EvSetUploadInfo (SyncFileItem._file item)
                     (committedRecord item');
                   EvCommit "Upload info"]).
Proof.
  intros Hc. split; [|split].
  - intros job checksumType checksum. unfold computeChecksum_done.
    destruct (computeChecksums s !! job) as [cc|];
      [|apply holdsBackUpload_refl, Hc].
    destruct (cc_stage cc).
    + apply slotComputeTransmissionChecksum_holdsBackUpload, Hc.
    + apply slotStartUpload_holdsBackUpload, Hc.
  - unfold scheduleSelfOrChild. destruct (items s) eqn:Hi;
      [apply holdsBackUpload_refl, Hc|].
    cbn [snd]. eapply holdsBackUpload_trans;
      [|apply scheduleItems_holdsBackUpload; exact Hc].
    apply holdsBackUpload_same; try reflexivity. exact Hc.
  - intros item fileToUpload checksumType checksum Hp Hw item' r.
    unfold passesChecks in Hp.
    apply andb_true_iff in Hp as [Hp Ha].
    apply andb_true_iff in Hp as [Hreach Hage].
    apply negb_true_iff in Ha. apply negb_true_iff in Hage.
    subst r. rewrite slotStartUpload_reaches by exact Hreach.
    rewrite Hage. fold item'. unfold doStartUpload. rewrite Ha. cbv zeta.
    assert (Hw' : wantsRename item' = false).
    { unfold wantsRename in *. subst item'.
      destruct (itemAtAgeCheck_file H s item checksumType checksum)
        as [-> ->]. exact Hw. }
    unfold wantsRename in Hw'. rewrite Hw'.
    unfold attachFile. cbv zeta.
    cbn [checksumsJobs set_uploadFileParameters commit setUploadInfo emit
         set_trace set_uploadInfo].
    destruct (checksumsJobs s) eqn:Ec; [contradiction|].
    eexists. split; [reflexivity|].
    cbn [_item _fileToUpload jobs trace set_uploadFileParameters commit
         setUploadInfo emit set_trace set_uploadInfo].
    split; [reflexivity|]. split; [reflexivity|]. split; [reflexivity|].
    rewrite <- app_assoc.
    destruct (itemAtAgeCheck_file H s item checksumType checksum) as [Hf _].
    fold item' in Hf. rewrite Hf. reflexivity.
Qed.

Lemma no_put_while_content_checksum_registered_witness :
  jobs (computeChecksum_done exampleHost hashingState 5 "MD5" "0cc1") = []
  /\ exists entry,
       uploadFileParameters
         (slotStartUpload exampleHost hashingState
            (exampleItem "a.txt" 100 1000)
            (UploadFileInfo.mk "a.txt" "/sync/a.txt" 100) "MD5" "0cc1")
       = [entry]
       /\ _fileToUpload entry = UploadFileInfo.mk "a.txt" "/sync/a.txt" 100.
Proof.
  destruct (no_put_while_content_checksum_registered exampleHost hashingState)
    as (Hd & _ & Hs).
  - discriminate.
  - split; [exact (held_jobs _ _ (Hd 5%nat "MD5" "0cc1"))|].
    destruct (Hs (exampleItem "a.txt" 100 1000)
                (UploadFileInfo.mk "a.txt" "/sync/a.txt" 100) "MD5" "0cc1")
      as (entry & U & _ & F & _).
    + vm_compute. reflexivity.
    + reflexivity.
    + exists entry. split; [exact U|]. rewrite F. vm_compute. reflexivity.
Defined.

(** ** Insufficient storage *)






(** ** A reply with status 202 *)

(** X13. A reply with status 202 and no network error is handled for the
    first file of the batch only, and [finalize] is not entered.  When the
    reply names no [OC-JobStatus-Location] for that file, the file is
    completed through [done] with [NormalError] and "Poll URL missing".
    Otherwise the poll info of the file (path, URL, modification time and
    size) is written to the journal and committed, a poll job is started
    and appended to [_jobs], from which the PUT job was removed, no item is
    completed, the stores and the abort request are as before, and
    [scheduleSelfOrChild] goes on when items are left.  In both cases the
    other entries of the batch are as before. *)
Theorem slotPutFinished_status_202 (H : Host) (s : State) (job : nat)
    (reply : PutReply) (first : UploadFileParameters)
    (rest : list UploadFileParameters) :
  uploadFileParameters s = first :: rest ->
  networkError reply = NoError ->
  to_quint16 (httpStatusCode reply) = 202 ->
  let item := respondedItem reply (_item first) in
  let path :=
    getHeaderFromJsonReply
      (findFileReply (replyArray reply) (SyncFileItem._file (_item first)))
      "OC-JobStatus-Location" in
  let r := slotPutFinished H s job reply in
  if isEmpty path then
    r = set_uploadFileParameters
          (with_item
             (snd (done H (slotJobDestroyed job s) item NormalError
                     "Poll URL missing")) first :: rest)
          (fst (done H (slotJobDestroyed job s) item NormalError
                  "Poll URL missing"))
    /\ jobs r = filter (λ j, j <> job) (jobs s)
  else
    exists r0,
      r = match items s with
          | [] => r0
          | _ :: _ => snd (scheduleSelfOrChild H r0)
          end
      /\ trace r0
         = trace s
           ++ [EvSetPollInfo
                 (mkPollInfo (SyncFileItem._file (_item first)) path
                    (SyncFileItem._modtime (_item first))
                    (SyncFileItem._size (_item first)));
               EvCommit "add poll info"; EvPollStart (nextJob s) path]
      /\ jobs r0 = filter (λ j, j <> job) (jobs s) ++ [nextJob s]
      /\ nextJob r0 = S (nextJob s)
      /\ uploadFileParameters r0 = with_item item first :: rest
      /\ keepsStores s r0
      /\ abortRequested r0 = abortRequested s.
Proof.
  intros Hu Hne Hcode item path r. subst r. unfold slotPutFinished.
  rewrite Hu. cbn [putFinishedFiles].
  fold (respondedItem reply (_item first)). fold item.
  rewrite Hne. rewrite (bool_decide_eq_false_2 (NoError <> NoError)) by tauto.
  rewrite (bool_decide_eq_true_2 (SyncFileItem._httpErrorCode item = 202))
    by exact Hcode.
  change (SyncFileItem._file item) with (SyncFileItem._file (_item first)).
  fold path. destruct (isEmpty path).
  - destruct (done_completes H (slotJobDestroyed job s) item NormalError
                "Poll URL missing") as (_ & _ & J & _).
    destruct (done H (slotJobDestroyed job s) item NormalError
                "Poll URL missing") as [s1 item1].
    cbn [fst snd] in *. split; [reflexivity|]. exact J.
  - unfold startPollJob, storeEntry. cbv zeta.
    cbn [items set_jobs set_nextJob emit commit set_trace
         set_uploadFileParameters slotJobDestroyed app].
    eexists. split; [reflexivity|].
    split; [cbn; rewrite <- !app_assoc; reflexivity|].
    split; [reflexivity|]. split; [reflexivity|].
    split; [reflexivity|]. split; [constructor; reflexivity|reflexivity].
Qed.

Lemma slotPutFinished_status_202_witness :
  jobs (slotPutFinished exampleHost twoFilesState 0 pollReply) = [1%nat]
  /\ completedItems (trace (slotPutFinished exampleHost twoFilesState 0
                              pollReply)) = [].
Proof.
  pose proof (slotPutFinished_status_202 exampleHost twoFilesState 0 pollReply
                (exampleEntry "a.txt" 100 1000)
                [exampleEntry "b.txt" 200 1000]
                eq_refl eq_refl eq_refl) as Hp.
  cbv zeta in Hp.
  replace (isEmpty _) with false in Hp by (vm_compute; reflexivity).
  destruct Hp as (r0 & E & T & J & _).
  change (items twoFilesState) with (@nil SyncFileItem.t) in E.
  rewrite E. split; [exact J|]. rewrite T. vm_compute. reflexivity.
Defined.

(** ** A batch that is finalized as a whole *)

Lemma done_success H s item :
  snd (done H s item Success EmptyString) = succeeded item
  /\ finalStatus (fst (done H s item Success EmptyString))
     = (if SyncFileItem._isRestoration item then NormalError
        else finalStatus s).
Proof.
  assert (Hi : handleFileRestoration
                 (SyncFileItem.with_errorString EmptyString
                    (SyncFileItem.with_status Success item)) EmptyString
               = succeeded item).
  { unfold handleFileRestoration, succeeded.
    cbn [SyncFileItem._isRestoration SyncFileItem._status
         SyncFileItem._errorString SyncFileItem.with_errorString
         SyncFileItem.with_status].
    destruct (SyncFileItem._isRestoration item).
    - rewrite (bool_decide_eq_true_2 (Success = Success)) by reflexivity.
      reflexivity.
    - reflexivity. }
  unfold done. rewrite Hi. clear Hi. unfold succeeded.
  cbn [SyncFileItem._status SyncFileItem.with_errorString
       SyncFileItem.with_status].
  assert (Hn : forall b : bool,
            bool_decide ((if b then Restoration else Success) = NormalError)
            || bool_decide ((if b then Restoration else Success) = FatalError)
            = false).
  { intros []; rewrite !bool_decide_eq_false_2 by discriminate; reflexivity. }
  rewrite Hn, andb_false_r. clear Hn.
  unfold handleBlackList, handleJobDoneErrors, propagator_abort,
    wipeErrorBlacklistEntry.
  cbn [SyncFileItem._status SyncFileItem.with_errorString
       SyncFileItem.with_status SyncFileItem._hasBlacklistEntry
       SyncFileItem._originalFile SyncFileItem._file
       SyncFileItem._errorString].
  destruct (SyncFileItem._isRestoration item);
    destruct (SyncFileItem._hasBlacklistEntry item);
    repeat case_bool_decide; try discriminate; split; reflexivity.
Qed.

Lemma completedItems_app t1 t2 :
  completedItems (t1 ++ t2) = completedItems t1 ++ completedItems t2.
Proof. unfold completedItems. apply omap_app. Qed.

Lemma completedItems_silent t :
  forallb silent t = true -> completedItems t = [].
Proof.
  induction t as [|e t IH]; [reflexivity|]. cbn [forallb].
  intros Hs. apply andb_true_iff in Hs as [He Ht].
  destruct e; try (apply IH, Ht). discriminate He.
Qed.

Lemma adjustPinState_frame H item s :
  uploadInfo (adjustPinState H item s) = uploadInfo s
  /\ completedItems (trace (adjustPinState H item s))
     = completedItems (trace s)
  /\ items (adjustPinState H item s) = items s
  /\ jobs (adjustPinState H item s) = jobs s
  /\ checksumsJobs (adjustPinState H item s) = checksumsJobs s
  /\ finalStatus (adjustPinState H item s) = finalStatus s.
Proof.
  unfold adjustPinState. destruct (_ || _); [|repeat split].
  destruct (pins s !! SyncFileItem._file item) as [[]|]; try (repeat split).
  all: destruct (setPinStateOk H _); try reflexivity;
    cbn [trace emit set_trace set_pins];
    rewrite completedItems_app; apply app_nil_r.
Qed.

Lemma decrementQuota_frame oneFile s :
  uploadInfo (decrementQuota oneFile s) = uploadInfo s
  /\ trace (decrementQuota oneFile s) = trace s
  /\ items (decrementQuota oneFile s) = items s
  /\ jobs (decrementQuota oneFile s) = jobs s
  /\ checksumsJobs (decrementQuota oneFile s) = checksumsJobs s
  /\ finalStatus (decrementQuota oneFile s) = finalStatus s.
Proof.
  unfold decrementQuota. destruct (folderQuota s !! _); repeat split.
Qed.

(** One turn of the loop of [finalize] for a file whose metadata update
    succeeds. *)
Lemma finalizeFile_succeeds H oneFile s :
  metadataFailure H oneFile = None ->
  exists s1,
    finalizeFile H oneFile s = (s1, finalized oneFile, true)
    /\ uploadInfo s1
       = <[SyncFileItem._file (_item oneFile) := UploadInfo.empty]>
           (uploadInfo s)
    /\ completedItems (trace s1)
       = completedItems (trace s) ++ [succeeded (_item oneFile)]
    /\ finalStatus s1
       = (if SyncFileItem._isRestoration (_item oneFile) then NormalError
          else finalStatus s)
    /\ items s1 = items s /\ jobs s1 = jobs s
    /\ checksumsJobs s1 = checksumsJobs s
    /\ uploadFileParameters s1 = uploadFileParameters s.
Proof.
  intros Hm. rewrite (finalizeFile_success_done H oneFile s Hm). cbv zeta.
  set (s0 := emit (EvUpdateMetadata (_item oneFile))
               (decrementQuota oneFile s)).
  set (cleared := commit "upload file start"
                    (setUploadInfo (SyncFileItem._file (_item oneFile))
                       UploadInfo.empty (adjustPinState H (_item oneFile) s0))).
  destruct (decrementQuota_frame oneFile s) as (Du & Dt & Di & Dj & Dc & Df).
  destruct (adjustPinState_frame H (_item oneFile) s0)
    as (Au & At & Ai & Aj & Ac & Af).
  destruct (done_success H cleared (_item oneFile)) as [Hi Hf].
  destruct (done_completes H cleared (_item oneFile) Success EmptyString)
    as (K & U & J & _).
  destruct (done_trace H cleared (_item oneFile) Success EmptyString)
    as (t & Ft & Et).
  rewrite Hi in Et. unfold finalized. rewrite Hi.
  eexists. split; [reflexivity|].
  split. { rewrite (keeps_uploadInfo _ _ K). subst cleared. cbn.
           rewrite Au. subst s0. cbn. rewrite Du. reflexivity. }
  split. { rewrite Et, !completedItems_app, (completedItems_silent _ Ft).
           subst cleared. cbn [trace commit setUploadInfo emit set_trace
                               set_uploadInfo].
           rewrite !completedItems_app, At. subst s0.
           cbn [trace emit set_trace]. rewrite completedItems_app, Dt.
           cbn. rewrite !app_nil_r. reflexivity. }
  split. { rewrite Hf. subst cleared. cbn. rewrite Af. subst s0. cbn.
           rewrite Df. reflexivity. }
  split. { rewrite (keeps_items _ _ K). subst cleared. cbn. rewrite Ai.
           subst s0. cbn. exact Di. }
  split. { rewrite J. subst cleared. cbn. rewrite Aj. subst s0. cbn.
           exact Dj. }
  split. { rewrite (keeps_checksumsJobs _ _ K). subst cleared. cbn.
           rewrite Ac. subst s0. cbn. exact Dc. }
  rewrite U. subst cleared. cbn.
  unfold adjustPinState. subst s0. unfold decrementQuota.
  destruct (_ || _); [|destruct (folderQuota s !! _); reflexivity].
  destruct (folderQuota s !! _); cbn;
    destruct (pins s !! _) as [[]|]; try reflexivity;
    destruct (setPinStateOk H _); reflexivity.
Qed.

Lemma finalizeFiles_succeed H : forall todo passed s,
  Forall (λ p, metadataFailure H p = None) todo ->
  exists s1,
    finalizeFiles H passed todo s = (s1, true)
    /\ (forall file,
          uploadInfo s1 !! file
          = if decide (file ∈ batchFiles todo) then Some UploadInfo.empty
            else uploadInfo s !! file)
    /\ completedItems (trace s1)
       = completedItems (trace s) ++ map (λ p, succeeded (_item p)) todo
    /\ finalStatus s1
       = (if existsb (λ p, SyncFileItem._isRestoration (_item p)) todo
          then NormalError else finalStatus s)
    /\ items s1 = items s /\ jobs s1 = jobs s
    /\ checksumsJobs s1 = checksumsJobs s
    /\ uploadFileParameters s1
       = match todo with
         | [] => uploadFileParameters s
         | _ :: _ => passed ++ map finalized todo
         end.
Proof.
  induction todo as [|oneFile rest IH]; intros passed s Hok.
  - exists s. cbn. rewrite app_nil_r.
    repeat split; try reflexivity.
  - inversion Hok as [|? ? Hone Hrest]; subst.
    destruct (finalizeFile_succeeds H oneFile s Hone)
      as (s1 & E & U & C & F & I & J & K & P).
    cbn [finalizeFiles]. rewrite E.
    destruct (IH (passed ++ [finalized oneFile])
                (storeEntry passed (finalized oneFile) rest s1) Hrest)
      as (s2 & E2 & U2 & C2 & F2 & I2 & J2 & K2 & P2).
    rewrite E2. exists s2. split; [reflexivity|].
    split.
    { intros file. rewrite U2. cbn [uploadInfo storeEntry
                                    set_uploadFileParameters]. rewrite U.
      change (batchFiles (oneFile :: rest))
        with (SyncFileItem._file (_item oneFile) :: batchFiles rest).
      destruct (decide (file ∈ batchFiles rest)) as [Hin|Hout].
      - rewrite decide_True by (right; exact Hin). reflexivity.
      - destruct (decide (file = SyncFileItem._file (_item oneFile)))
          as [->|Hne].
        + rewrite decide_True by left. apply lookup_insert_eq.
        + rewrite decide_False.
          * apply lookup_insert_ne. congruence.
          * intros Hin. apply elem_of_cons in Hin as [?|?]; contradiction. }
    split.
    { rewrite C2. cbn [trace storeEntry set_uploadFileParameters].
      rewrite C, <- app_assoc. reflexivity. }
    split.
    { rewrite F2. cbn [finalStatus storeEntry set_uploadFileParameters
                       existsb]. rewrite F.
      destruct (SyncFileItem._isRestoration (_item oneFile));
        destruct (existsb _ rest); reflexivity. }
    split; [rewrite I2; exact I|]. split; [rewrite J2; exact J|].
    split; [rewrite K2; exact K|].
    rewrite P2. destruct rest; [reflexivity|].
    rewrite <- app_assoc. reflexivity.
Qed.

(** X14. When the metadata update succeeds for every file of the batch,
    the loop of [finalize] runs through the whole batch: the journal entry
    of every file of the batch is replaced by an empty [UploadInfo] and the
    other entries are as before; the items are announced in the order of the
    batch, each as [Success] without error string, or as [Restoration] if it
    is a restoration; [_finalStatus] becomes [NormalError] if some item is a
    restoration and stays otherwise.  The loop changes neither [_items] nor
    [_jobs] nor [_checksumsJobs]: if items are left [scheduleSelfOrChild]
    goes on, else [finished] is signalled with that final status, and then
    [scheduleNextJob] is called, exactly when no job and no checksum is
    outstanding. *)
Theorem finalize_whole_batch_succeeds (H : Host) (s : State) :
  Forall (λ p, metadataFailure H p = None) (uploadFileParameters s) ->
  exists r1,
    finalizeFiles H [] (uploadFileParameters s) s = (r1, true)
    /\ (forall file,
          uploadInfo r1 !! file
          = if decide (file ∈ batchFiles (uploadFileParameters s))
            then Some UploadInfo.empty else uploadInfo s !! file)
    /\ completedItems (trace r1)
       = completedItems (trace s)
         ++ map (λ p, succeeded (_item p)) (uploadFileParameters s)
    /\ uploadFileParameters r1 = map finalized (uploadFileParameters s)
    /\ finalStatus r1
       = (if existsb (λ p, SyncFileItem._isRestoration (_item p))
               (uploadFileParameters s)
          then NormalError else finalStatus s)
    /\ finalize H s
       = match items s with
         | [] =>
             match jobs s, checksumsJobs s with
             | [], [] =>
                 emit EvScheduleNextJob (emit (EvFinished (finalStatus r1)) r1)
             | _, _ => r1
             end
         | _ :: _ => snd (scheduleSelfOrChild H r1)
         end.
Proof.
  intros Hok.
  destruct (finalizeFiles_succeed H (uploadFileParameters s) [] s Hok)
    as (r1 & E & U & C & F & I & J & K & P).
  exists r1. split; [exact E|]. split; [exact U|]. split; [exact C|].
  split. { rewrite P. destruct (uploadFileParameters s); reflexivity. }
  split; [exact F|].
  unfold finalize. rewrite E. cbn [negb]. rewrite I, J, K. reflexivity.
Qed.

Lemma finalize_whole_batch_succeeds_witness :
  exists r1,
    finalizeFiles exampleHost [] (uploadFileParameters threeFilesState)
      threeFilesState = (r1, true)
    /\ completedItems (trace r1)
       = map (λ p, succeeded (_item p)) threeFiles
    /\ finalize exampleHost threeFilesState
       = emit EvScheduleNextJob (emit (EvFinished (finalStatus r1)) r1).
Proof.
  destruct (finalize_whole_batch_succeeds exampleHost threeFilesState)
    as (r1 & L & _ & C & _ & _ & E).
  - repeat constructor.
  - exists r1. split; [exact L|]. split; [exact C|exact E].
Defined.

(** ** The journal record of a renamed upload *)

Lemma batchFiles_app l1 l2 :
  batchFiles (l1 ++ l2) = batchFiles l1 ++ batchFiles l2.
Proof. unfold batchFiles. apply map_app. Qed.

Lemma openDevices_batchFiles H todo :
  batchFiles
    ((openDevices H todo).1.1
     ++ match (openDevices H todo).2 with
        | Some (oneFile, _, rest) => oneFile :: rest
        | None => []
        end)
  = batchFiles todo.
Proof.
  induction todo as [|oneFile rest IH]; [reflexivity|].
  cbn [openDevices]. destruct (deviceOpen H (_localPath oneFile)) as [err|].
  - reflexivity.
  - destruct (openDevices H rest) as [[passed parts] failure].
    cbn [fst snd] in *. cbn [app]. unfold batchFiles in *. cbn [map].
    rewrite IH. reflexivity.
Qed.

Lemma triggerUpload_batchFiles H s :
  batchFiles (uploadFileParameters (triggerUpload H s))
  = batchFiles (uploadFileParameters s).
Proof.
  unfold triggerUpload.
  pose proof (openDevices_batchFiles H (uploadFileParameters s)) as Hf.
  destruct (openDevices H (uploadFileParameters s))
    as [[passed parts] [[[oneFile err] rest]|]]; cbn [fst snd] in Hf.
  - unfold abortWithError.
    match goal with
    | |- context [done H ?s0 ?i ?st ?e] =>
        destruct (sameButOutcome_fields _ _ (done_item H s0 i st e))
          as (Hfile & _);
        destruct (done H s0 i st e) as [s1 i1]
    end.
    cbn [snd] in Hfile. cbn [uploadFileParameters set_uploadFileParameters].
    rewrite <- Hf, !batchFiles_app. unfold batchFiles. cbn [map _item with_item].
    rewrite Hfile. reflexivity.
  - cbn. rewrite <- Hf, app_nil_r. reflexivity.
Qed.

Lemma attachFile_batchFiles H s item fileToUpload fileSize currentHeaders h :
  batchFiles
    (uploadFileParameters
       (attachFile H s item fileToUpload fileSize currentHeaders h))
  = batchFiles (uploadFileParameters s) ++ [SyncFileItem._file item].
Proof.
  unfold attachFile. cbv zeta.
  match goal with
  | |- context [match checksumsJobs ?s1 with _ => _ end] => set (s1' := s1)
  end.
  assert (Hu : batchFiles (uploadFileParameters s1')
               = batchFiles (uploadFileParameters s)
                 ++ [SyncFileItem._file item]).
  { subst s1'. cbn. rewrite batchFiles_app. reflexivity. }
  destruct (checksumsJobs s1'); [|exact Hu].
  rewrite triggerUpload_batchFiles. exact Hu.
Qed.

(** X15. When [doStartUpload] renames the file, the journal record of the
    upload has been committed under the path the item had before, and the
    entry joins the batch under the rename target.  The loop of [finalize]
    clears the journal entry under the path each item has in the batch: for
    the renamed upload that is the entry of the rename target, and the
    record committed under the original path is still in the journal when
    the whole batch has been finalized. *)
Theorem renamed_upload_keeps_journal_record (H : Host) (s : State)
    (item : SyncFileItem.t) (fileToUpload : UploadFileInfo.t) (h : string)
    (files : gmap string FileMeta) :
  abortRequested s = false ->
  wantsRename item = true ->
  QFile_rename (fs s) (fullLocalPath H (SyncFileItem._file item))
    (fullLocalPath H (SyncFileItem._renameTarget item)) = Some files ->
  let r := doStartUpload H s item fileToUpload h in
  uploadInfo r
  = <[SyncFileItem._file item := committedRecord item]> (uploadInfo s)
  /\ batchFiles (uploadFileParameters r)
     = batchFiles (uploadFileParameters s) ++ [SyncFileItem._renameTarget item]
  /\ forall r',
       uploadInfo r' = uploadInfo r ->
       batchFiles (uploadFileParameters r')
       = batchFiles (uploadFileParameters r) ->
       SyncFileItem._file item ∉ batchFiles (uploadFileParameters s) ->
       Forall (λ p, metadataFailure H p = None) (uploadFileParameters r') ->
       let r1 := fst (finalizeFiles H [] (uploadFileParameters r') r') in
       uploadInfo r1 !! SyncFileItem._file item = Some (committedRecord item)
       /\ uploadInfo r1 !! SyncFileItem._renameTarget item
          = Some UploadInfo.empty.
Proof.
  intros Ha Hw Hr r.
  destruct (doStartUpload_spec H s item fileToUpload h Ha) as (Hu & _).
  fold r in Hu.
  assert (Hb : batchFiles (uploadFileParameters r)
               = batchFiles (uploadFileParameters s)
                 ++ [SyncFileItem._renameTarget item]).
  { subst r. unfold doStartUpload. rewrite Ha. cbv zeta.
    unfold wantsRename in Hw. rewrite Hw.
    cbn [fs commit setUploadInfo emit set_trace set_uploadInfo]. rewrite Hr.
    rewrite attachFile_batchFiles. reflexivity. }
  split; [exact Hu|]. split; [exact Hb|].
  intros r' Eu Eb Hnot Hok r1.
  destruct (finalizeFiles_succeed H (uploadFileParameters r') [] r' Hok)
    as (s1 & E & U & _).
  subst r1. rewrite E. cbn [fst]. rewrite !U, Eb, Hb.
  assert (Hne : SyncFileItem._file item <> SyncFileItem._renameTarget item).
  { unfold wantsRename in Hw. apply andb_true_iff in Hw as [_ Hw].
    apply bool_decide_eq_true in Hw. exact Hw. }
  split.
  - rewrite decide_False.
    + rewrite Eu, Hu. apply lookup_insert_eq.
    + intros Hin. apply elem_of_app in Hin as [Hin|Hin]; [contradiction|].
      apply list_elem_of_singleton in Hin. contradiction.
  - rewrite decide_True; [reflexivity|].
    apply elem_of_app. right. apply list_elem_of_singleton. reflexivity.
Qed.

Lemma renamed_upload_keeps_journal_record_witness :
  uploadInfo (doStartUpload exampleHost renameState renameItem renameFile
                "0cc1")
  = <["doc " := committedRecord renameItem]> (uploadInfo renameState)
  /\ batchFiles
       (uploadFileParameters
          (doStartUpload exampleHost renameState renameItem renameFile "0cc1"))
     = ["doc"].
Proof.
  destruct (renamed_upload_keeps_journal_record exampleHost renameState
              renameItem renameFile "0cc1"
              {["/sync/doc" := mkFileMeta 1000 100]})
    as (Hu & Hb & _).
  - reflexivity.
  - vm_compute. reflexivity.
  - vm_compute. reflexivity.
  - split; [exact Hu|exact Hb].
Defined.

(** ** A failed PUT *)

Lemma done_announces H s item status errorString :
  completedItems (trace (fst (done H s item status errorString)))
  = completedItems (trace s) ++ [snd (done H s item status errorString)].
Proof.
  destruct (done_trace H s item status errorString) as (t & Ft & Et).
  rewrite Et, !completedItems_app, (completedItems_silent _ Ft). reflexivity.
Qed.

Lemma done_notFinalizing H s item status errorString :
  continues notFinalizing s (fst (done H s item status errorString)).
Proof.
  eapply continues_weaken; [|apply done_events].
  intros []; cbn; intros; try discriminate; reflexivity.
Qed.

Lemma checkResettingErrors_frame H s item :
  continues notFinalizing s (checkResettingErrors H s item)
  /\ completedItems (trace (checkResettingErrors H s item))
     = completedItems (trace s)
  /\ jobs (checkResettingErrors H s item) = jobs s
  /\ uploadFileParameters (checkResettingErrors H s item)
     = uploadFileParameters s.
Proof.
  unfold checkResettingErrors. destruct (isResettingError H _).
  - split; [|split; [|split; reflexivity]].
    + eexists [_; _].
      split; [cbn; rewrite <- app_assoc; reflexivity|reflexivity].
    + cbn [trace commit setUploadInfo emit set_trace set_uploadInfo].
      rewrite !completedItems_app. cbn. rewrite !app_nil_r. reflexivity.
  - split; [apply continues_refl|repeat split].
Qed.

Lemma commonErrorHandling_frame H s item fileToUpload reply :
  let r := commonErrorHandling H s item fileToUpload reply in
  continues notFinalizing s (fst r)
  /\ completedItems (trace (fst r)) = completedItems (trace s) ++ [snd r]
  /\ jobs (fst r) = jobs s
  /\ uploadFileParameters (fst r) = uploadFileParameters s
  /\ sameButOutcome item (snd r)
  /\ In EvJobAbort (trace (fst r)).
Proof.
  cbv zeta. unfold commonErrorHandling. cbv zeta.
  set (s0 := if bool_decide (SyncFileItem._httpErrorCode item = 412)
             then set_anotherSyncNeeded true
                    (emit (EvSchedulePathForRemoteDiscovery
                             (SyncFileItem._file item)) s)
             else s).
  assert (H0 : continues notFinalizing s s0
               /\ completedItems (trace s0) = completedItems (trace s)
               /\ jobs s0 = jobs s
               /\ uploadFileParameters s0 = uploadFileParameters s).
  { subst s0. case_bool_decide.
    - split; [|split; [|split; reflexivity]].
      + eexists [_]. split; reflexivity.
      + cbn [trace set_anotherSyncNeeded emit set_trace].
        rewrite completedItems_app. apply app_nil_r.
    - split; [apply continues_refl|repeat split]. }
  destruct H0 as (T0 & C0 & J0 & U0).
  destruct (checkResettingErrors_frame H s0 item) as (T1 & C1 & J1 & U1).
  set (s1 := checkResettingErrors H s0 item) in *.
  destruct (classifyError H (networkError reply)
              (SyncFileItem._httpErrorCode item) (replyContent reply))
    as [status anotherSync].
  set (s2 := if anotherSync then set_anotherSyncNeeded true s1 else s1).
  assert (H2 : trace s2 = trace s1 /\ jobs s2 = jobs s1
               /\ uploadFileParameters s2 = uploadFileParameters s1)
    by (subst s2; destruct anotherSync; repeat split).
  destruct H2 as (T2 & J2 & U2).
  assert (Hgen : forall s3 status errorString item3,
            continues notFinalizing s2 s3 ->
            completedItems (trace s3) = completedItems (trace s2) ->
            jobs s3 = jobs s2 ->
            uploadFileParameters s3 = uploadFileParameters s2 ->
            sameButOutcome item item3 ->
            let r := abortWithError H s3 item3 status errorString in
            continues notFinalizing s (fst r)
            /\ completedItems (trace (fst r))
               = completedItems (trace s) ++ [snd r]
            /\ jobs (fst r) = jobs s
            /\ uploadFileParameters (fst r) = uploadFileParameters s
            /\ sameButOutcome item (snd r)
            /\ In EvJobAbort (trace (fst r))).
  { intros s3 st err item3 T3 C3 J3 U3 S3. cbv zeta. unfold abortWithError.
    destruct (done_completes H (emit EvJobAbort s3) item3 st err)
      as (_ & U & J & _ & (t & Et & _)).
    split.
    { eapply continues_trans; [exact T0|].
      eapply continues_trans; [exact T1|].
      eapply continues_trans; [apply continues_same; exact T2|].
      eapply continues_trans; [exact T3|].
      eapply continues_trans; [|apply done_notFinalizing].
      apply continues_emit. reflexivity. }
    split.
    { rewrite done_announces. cbn [trace emit set_trace].
      rewrite completedItems_app, app_nil_r, C3, T2, C1, C0. reflexivity. }
    split; [rewrite J; cbn; rewrite J3, J2, J1, J0; reflexivity|].
    split; [rewrite U; cbn; rewrite U3, U2, U1, U0; reflexivity|].
    split; [eapply sameButOutcome_trans; [exact S3|apply done_item]|].
    rewrite Et. apply in_or_app. left. cbn [trace emit set_trace].
    apply in_or_app. right. left. reflexivity. }
  case_bool_decide.
  - match goal with
    | |- context [abortWithError H (emit EvInsufficientRemoteStorage ?sq)
                    item ?st ?e] =>
        apply (Hgen (emit EvInsufficientRemoteStorage sq) st e item)
    end.
    + destruct (folderQuota s2 !! _); eexists [_]; split; reflexivity.
    + destruct (folderQuota s2 !! _); cbn [trace emit set_trace set_folderQuota];
        rewrite completedItems_app; apply app_nil_r.
    + destruct (folderQuota s2 !! _); reflexivity.
    + destruct (folderQuota s2 !! _); reflexivity.
    + apply sameButOutcome_refl.
  - apply (Hgen s2 status (errorStringParsingBody reply) item);
      try reflexivity; [apply continues_refl|apply sameButOutcome_refl].
Qed.

(** X16. When the PUT ended with a network error, [slotPutFinished]
    handles the first file of the batch and returns: the PUT job is taken
    off [_jobs] and aborted, that file alone is completed, with its item
    changed in status and error string only beyond the code, time stamp and
    request id of the reply; the other entries of the batch are as before,
    and [finalize] is not entered: no metadata is updated and [finished] is
    not signalled. *)
Theorem slotPutFinished_network_error (H : Host) (s : State) (job : nat)
    (reply : PutReply) (first : UploadFileParameters)
    (rest : list UploadFileParameters) :
  uploadFileParameters s = first :: rest ->
  networkError reply <> NoError ->
  let r := slotPutFinished H s job reply in
  exists completed,
    uploadFileParameters r = with_item completed first :: rest
    /\ sameButOutcome (respondedItem reply (_item first)) completed
    /\ completedItems (trace r) = completedItems (trace s) ++ [completed]
    /\ jobs r = filter (λ j, j <> job) (jobs s)
    /\ continues notFinalizing s r
    /\ In EvJobAbort (trace r).
Proof.
  intros Hu Hne r. subst r.
  rewrite (slotPutFinished_first_error H s job reply first rest Hu Hne).
  cbv zeta. fold (respondedItem reply (_item first)).
  destruct (commonErrorHandling_frame H (slotJobDestroyed job s)
              (respondedItem reply (_item first)) (_fileToUpload first) reply)
    as (T & C & J & _ & S & A).
  exists (snd (commonErrorHandling H (slotJobDestroyed job s)
                 (respondedItem reply (_item first)) (_fileToUpload first)
                 reply)).
  split; [reflexivity|]. split; [exact S|]. split; [exact C|].
  split; [exact J|]. split; [exact T|exact A].
Qed.

Lemma slotPutFinished_network_error_witness :
  exists completed,
    uploadFileParameters
      (slotPutFinished exampleHost twoFilesState 0 serverErrorReply)
    = [with_item completed (exampleEntry "a.txt" 100 1000);
       exampleEntry "b.txt" 200 1000]
    /\ jobs (slotPutFinished exampleHost twoFilesState 0 serverErrorReply)
       = [].
Proof.
  destruct (slotPutFinished_network_error exampleHost twoFilesState 0
              serverErrorReply (exampleEntry "a.txt" 100 1000)
              [exampleEntry "b.txt" 200 1000])
    as (completed & U & _ & _ & J & _).
  - reflexivity.
  - discriminate.
  - exists completed. split; [exact U|exact J].
Defined.

(** ** A file that fails the checks after the upload *)




(** ** What a PUT carries *)

Lemma headers_fixed s H item :
  headers s H item !! "Content-Type" = Some "application/octet-stream"
  /\ headers s H item !! "X-File-Mtime"
     = Some (pretty (SyncFileItem._modtime item)).
Proof.
  unfold headers. cbv zeta.
  destruct (conflicts s !! SyncFileItem._file item) as [r|];
    repeat match goal with
    | |- context [if ?b then <[_ := _]> _ else _] => destruct b
    end;
    split;
    repeat (rewrite lookup_insert_ne by discriminate);
    apply lookup_insert_eq.
Qed.

(** X18. With no content checksum registered and every device opening,
    [doStartUpload] of a file that needs no rename commits the journal
    record, appends the entry to the batch and at once starts a PUT that
    carries the whole batch: a part for every entry that was in the batch
    already, and last the part of the new entry.  That part has the headers
    of [headers], and [Content-Type], [X-File-Mtime] (the modification time
    of the item), [Content-Length] (the size of the file to upload),
    [X-File-MD5] (the transmission checksum as passed) and [X-File-Path]
    (the remote path) are all set in it. *)
Theorem doStartUpload_sends_pending_batch (H : Host) (s : State)
    (item : SyncFileItem.t) (fileToUpload : UploadFileInfo.t) (h : string) :
  abortRequested s = false ->
  wantsRename item = false ->
  checksumsJobs s = [] ->
  Forall (λ p, deviceOpen H (_localPath p) = None) (uploadFileParameters s) ->
  deviceOpen H (UploadFileInfo._path fileToUpload) = None ->
  let part := partHeaders s H item fileToUpload h in
  let r := doStartUpload H s item fileToUpload h in
  trace r
  = trace s
    ++ [EvSetUploadInfo (SyncFileItem._file item) (committedRecord item);
        EvCommit "Upload info";
        EvPutStart (nextJob s)
          (map (λ p, <["X-File-Path" := _remotePath p]> (_headers p))
             (uploadFileParameters s) ++ [part])]
  /\ jobs r = jobs s ++ [nextJob s]
  /\ uploadFileParameters r
     = map stamped (uploadFileParameters s)
       ++ [mkParams item fileToUpload
             (fullRemotePath H (UploadFileInfo._file fileToUpload))
             (UploadFileInfo._path fileToUpload)
             (UploadFileInfo._size fileToUpload) part]
  /\ part !! "Content-Type" = Some "application/octet-stream"
  /\ part !! "X-File-Mtime" = Some (pretty (SyncFileItem._modtime item))
  /\ part !! "Content-Length" = Some (pretty (UploadFileInfo._size fileToUpload))
  /\ part !! "X-File-MD5" = Some h
  /\ part !! "X-File-Path"
     = Some (fullRemotePath H (UploadFileInfo._file fileToUpload)).
Proof.
  intros Ha Hw Hc Ho Hn part r.
  assert (Hr : r
    = triggerUpload H
        (set_uploadFileParameters
           (uploadFileParameters s
            ++ [mkParams item fileToUpload
                  (fullRemotePath H (UploadFileInfo._file fileToUpload))
                  (UploadFileInfo._path fileToUpload)
                  (UploadFileInfo._size fileToUpload)
                  (<["X-File-MD5" := h]>
                     (<["Content-Length" :=
                          pretty (UploadFileInfo._size fileToUpload)]>
                        (headers s H item)))])
           (commit "Upload info"
              (setUploadInfo (SyncFileItem._file item) (committedRecord item)
                 s)))).
  { subst r. unfold doStartUpload. rewrite Ha. cbv zeta.
    unfold wantsRename in Hw. rewrite Hw. unfold attachFile. cbv zeta.
    cbn [checksumsJobs set_uploadFileParameters commit setUploadInfo emit
         set_trace set_uploadInfo]. rewrite Hc. reflexivity. }
  match type of Hr with
  | _ = triggerUpload H ?s1 =>
      assert (Ho1 : Forall (λ p, deviceOpen H (_localPath p) = None)
                      (uploadFileParameters s1))
  end.
  { cbn [uploadFileParameters set_uploadFileParameters].
    apply Forall_app. split; [exact Ho|]. constructor; [exact Hn|constructor]. }
  rewrite Hr. unfold triggerUpload. rewrite (openDevices_all _ _ Ho1).
  split.
  { cbn. rewrite !map_app, <- !app_assoc. reflexivity. }
  split; [reflexivity|].
  split.
  { cbn. rewrite map_app. reflexivity. }
  destruct (headers_fixed s H item) as [Hct Hmt].
  subst part. unfold partHeaders.
  repeat split;
    repeat (rewrite lookup_insert_ne by discriminate);
    try apply lookup_insert_eq; assumption.
Qed.

Lemma doStartUpload_sends_pending_batch_witness :
  jobs (doStartUpload exampleHost twoFilesState
          (exampleItem "c.txt" 300 1000)
          (UploadFileInfo.mk "c.txt" "/sync/c.txt" 300) "0cc1")
  = [0; 1]%nat
  /\ length
       (uploadFileParameters
          (doStartUpload exampleHost twoFilesState
             (exampleItem "c.txt" 300 1000)
             (UploadFileInfo.mk "c.txt" "/sync/c.txt" 300) "0cc1"))
     = 3%nat.
Proof.
  destruct (doStartUpload_sends_pending_batch exampleHost twoFilesState
              (exampleItem "c.txt" 300 1000)
              (UploadFileInfo.mk "c.txt" "/sync/c.txt" 300) "0cc1")
    as (_ & J & U & _).
  - reflexivity.
  - reflexivity.
  - reflexivity.
  - repeat constructor.
  - reflexivity.
  - split; [exact J|]. rewrite U. reflexivity.
Defined.

(** ** The life of a content checksum *)

Lemma doStartUpload_checksumsJobs H s item fileToUpload h :
  checksumsJobs (doStartUpload H s item fileToUpload h) = checksumsJobs s.
Proof.
  unfold doStartUpload. destruct (abortRequested s); [reflexivity|].
  cbv zeta. destruct (_ && _).
  - destruct (QFile_rename _ _ _) as [files|].
    + match goal with
      | |- context [attachFile H ?s0 ?i ?f ?n ?c ?t] =>
          destruct (attachFile_keeps H s0 i f n c t) as [[K _] _];
          rewrite (keeps_checksumsJobs _ _ K)
      end.
      reflexivity.
    + match goal with
      | |- context [done H ?s0 ?i ?st ?e] =>
          destruct (done_completes H s0 i st e) as (K & _);
          rewrite (keeps_checksumsJobs _ _ K)
      end.
      reflexivity.
  - match goal with
    | |- context [attachFile H ?s0 ?i ?f ?n ?c ?t] =>
        destruct (attachFile_keeps H s0 i f n c t) as [[K _] _];
        rewrite (keeps_checksumsJobs _ _ K)
    end.
    reflexivity.
Qed.

Lemma slotStartUpload_checksumsJobs H s item fileToUpload type checksum :
  checksumsJobs (slotStartUpload H s item fileToUpload type checksum)
  = checksumsJobs s.
Proof.
  unfold slotStartUpload, slotOnErrorStartFolderUnlock. cbv zeta.
  destruct (negb _).
  { match goal with
    | |- context [done H ?s0 ?i ?st ?e] =>
        destruct (done_completes H s0 i st e) as (K & _);
        rewrite (keeps_checksumsJobs _ _ K)
    end. reflexivity. }
  case_bool_decide.
  { match goal with
    | |- context [done H ?s0 ?i ?st ?e] =>
        destruct (done_completes H s0 i st e) as (K & _);
        rewrite (keeps_checksumsJobs _ _ K)
    end. reflexivity. }
  destruct (fileIsStillChanging H s _).
  { match goal with
    | |- context [done H ?s0 ?i ?st ?e] =>
        destruct (done_completes H s0 i st e) as (K & _);
        rewrite (keeps_checksumsJobs _ _ K)
    end. reflexivity. }
  apply doStartUpload_checksumsJobs.
Qed.

Lemma slotComputeTransmissionChecksum_checksumsJobs H s item fileToUpload
    type checksum :
  checksumsJobs
    (slotComputeTransmissionChecksum H s item fileToUpload type checksum)
  = checksumsJobs s.
Proof.
  unfold slotComputeTransmissionChecksum. case_bool_decide.
  - apply slotStartUpload_checksumsJobs.
  - reflexivity.
Qed.

(** X19. An item whose checksum header is not an MD5 checksum gets a
    content checksum object, which [slotComputeContentChecksum] registers
    in [_checksumsJobs]; a transmission checksum object is never
    registered.  The result of the content checksum goes to
    [slotComputeTransmissionChecksum], with the modification time the file
    had when the checksum was started.  Over the whole life of the object,
    from its start over its result to its [destroyed] signal, no PUT is
    started and [_jobs] is as before, and [_checksumsJobs] is again what it
    was, without that object. *)
Theorem content_checksum_round_trip (H : Host) (s : State)
    (item : SyncFileItem.t) (fileToUpload : UploadFileInfo.t)
    (checksumType checksum : string) :
  abortRequested s = false ->
  fst (parseChecksumHeader H (SyncFileItem._checksumHeader item)) <> "MD5" ->
  let job := nextJob s in
  let started :=
    SyncFileItem.with_modtime
      (getModTime (fs s) (fullLocalPath H (SyncFileItem._file item))) item in
  let s1 := slotComputeContentChecksum H s item fileToUpload in
  let s2 := computeChecksum_done H s1 job checksumType checksum in
  let s3 := computeChecksum_destroyed s2 job in
  checksumsJobs s1 = checksumsJobs s ++ [job]
  /\ trace s1
     = trace s ++ [EvComputeChecksum job "MD5"
                     (UploadFileInfo._path fileToUpload)]
  /\ s2 = slotComputeTransmissionChecksum H s1 started fileToUpload
            checksumType checksum
  /\ checksumsJobs s2 = checksumsJobs s1
  /\ jobs s3 = jobs s
  /\ continues notPutStart s s3
  /\ checksumsJobs s3 = filter (λ j, j <> job) (checksumsJobs s).
Proof.
  intros Ha Hp job started s1 s2 s3.
  assert (E1 : s1 = startComputeChecksum s true
                      (mkComputeChecksum ContentChecksum started fileToUpload)
                      "MD5" (UploadFileInfo._path fileToUpload)).
  { subst s1. unfold slotComputeContentChecksum. rewrite Ha. cbv zeta.
    cbn [SyncFileItem._checksumHeader SyncFileItem.with_modtime].
    destruct (parseChecksumHeader H (SyncFileItem._checksumHeader item))
      as [existingType existing].
    cbn [fst] in Hp. rewrite (bool_decide_eq_false_2 _ Hp). reflexivity. }
  assert (C1 : checksumsJobs s1 = checksumsJobs s ++ [job])
    by (rewrite E1; reflexivity).
  assert (N1 : checksumsJobs s1 <> [])
    by (rewrite C1; destruct (checksumsJobs s); discriminate).
  assert (E2 : s2 = slotComputeTransmissionChecksum H s1 started fileToUpload
                      checksumType checksum).
  { subst s2. unfold computeChecksum_done.
    replace (computeChecksums s1 !! job)
      with (Some (mkComputeChecksum ContentChecksum started fileToUpload));
      [reflexivity|].
    rewrite E1. cbn. symmetry. apply lookup_insert_eq. }
  assert (C2 : checksumsJobs s2 = checksumsJobs s1)
    by (rewrite E2; apply slotComputeTransmissionChecksum_checksumsJobs).
  pose proof (slotComputeTransmissionChecksum_holdsBackUpload H s1 started
                fileToUpload checksumType checksum N1) as [J2 T2 _].
  rewrite <- E2 in J2, T2.
  split; [exact C1|]. split; [rewrite E1; reflexivity|].
  split; [exact E2|]. split; [exact C2|].
  split. { subst s3. cbn. rewrite J2, E1. reflexivity. }
  split.
  { eapply continues_trans; [|eapply continues_trans; [exact T2|]].
    - rewrite E1. eexists [_]. split; reflexivity.
    - apply continues_same. reflexivity. }
  subst s3. cbn [checksumsJobs computeChecksum_destroyed set_checksumsJobs
                 set_computeChecksums].
  rewrite C2, C1, filter_app.
  rewrite (filter_cons_False (λ j, j <> job) job []) by tauto.
  apply app_nil_r.
Qed.

Lemma content_checksum_round_trip_witness :
  jobs (computeChecksum_destroyed
          (computeChecksum_done exampleHost
             (slotComputeContentChecksum exampleHost twoFilesState sha1Item
                (UploadFileInfo.mk "a.txt" "/sync/a.txt" 100))
             1 "MD5" "0cc1") 1)
  = [0%nat].
Proof.
  destruct (content_checksum_round_trip exampleHost twoFilesState sha1Item
              (UploadFileInfo.mk "a.txt" "/sync/a.txt" 100) "MD5" "0cc1")
    as (_ & _ & _ & _ & J & _).
  - reflexivity.
  - vm_compute. discriminate.
  - exact J.
Defined.

(** ** The checks before an upload starts *)



(** * The job as a whole *)

Lemma triggerUpload_abortRequested H s :
  abortRequested s = true -> abortRequested (triggerUpload H s) = true.
Proof.
  intros Ha. unfold triggerUpload.
  destruct (openDevices H (uploadFileParameters s))
    as [[passed parts] [[[oneFile err] rest]|]]; [|exact Ha].
  unfold abortWithError.
  match goal with
  | |- context [done ?h ?s0 ?i ?st ?e] =>
      pose proof (done_abortRequested h s0 i st e) as Hd;
      destruct (done h s0 i st e) as [s1 item1]
  end.
  cbn [fst snd] in *. cbn [abortRequested set_uploadFileParameters].
  rewrite Hd. destruct (isFileLocked H _); cbn; rewrite Ha; reflexivity.
Qed.

Lemma movesOn_refl s : movesOn s s.
Proof. constructor; [tauto|exists 0%nat; reflexivity|tauto]. Qed.

Lemma movesOn_trans s1 s2 s3 : movesOn s1 s2 -> movesOn s2 s3 -> movesOn s1 s3.
Proof.
  intros [A1 [n1 I1] B1] [A2 [n2 I2] B2]. constructor; [tauto| |tauto].
  exists (n1 + n2)%nat. rewrite I2, I1, drop_drop. reflexivity.
Qed.

Lemma extendsBatch_refl s : extendsBatch s s.
Proof. exists []. symmetry. apply app_nil_r. Qed.

Lemma extendsBatch_trans s1 s2 s3 :
  extendsBatch s1 s2 -> extendsBatch s2 s3 -> extendsBatch s1 s3.
Proof.
  intros [l1 E1] [l2 E2]. exists (l1 ++ l2). rewrite E2, E1, app_assoc.
  reflexivity.
Qed.

Lemma carriesOn_refl s : carriesOn s s.
Proof. split; [apply movesOn_refl|apply extendsBatch_refl]. Qed.

Lemma carriesOn_trans s1 s2 s3 :
  carriesOn s1 s2 -> carriesOn s2 s3 -> carriesOn s1 s3.
Proof.
  intros [M1 E1] [M2 E2].
  split; [eapply movesOn_trans|eapply extendsBatch_trans]; eassumption.
Qed.

Lemma movesOn_base s r :
  anotherSyncNeeded r = anotherSyncNeeded s \/ anotherSyncNeeded r = true ->
  items r = items s -> abortRequested r = abortRequested s -> movesOn s r.
Proof.
  intros Ha Hi Hb. constructor;
    [|exists 0%nat; exact Hi|rewrite Hb; tauto].
  intros Hs. destruct Ha as [->| ->]; [exact Hs|reflexivity].
Qed.

Lemma carriesOn_base s r :
  anotherSyncNeeded r = anotherSyncNeeded s \/ anotherSyncNeeded r = true ->
  items r = items s -> abortRequested r = abortRequested s ->
  map _fileToUpload (uploadFileParameters r)
  = map _fileToUpload (uploadFileParameters s) ->
  carriesOn s r.
Proof.
  intros Ha Hi Hb Hu. split; [apply movesOn_base; assumption|].
  exists []. rewrite Hu. symmetry. apply app_nil_r.
Qed.

Lemma keepsStores_movesOn s r :
  keepsStores s r -> (abortRequested s = true -> abortRequested r = true) ->
  movesOn s r.
Proof.
  intros K Hb. constructor; [|exists 0%nat; apply K|exact Hb].
  rewrite (keeps_anotherSyncNeeded _ _ K). tauto.
Qed.

Lemma completes_carriesOn s r :
  completes s r -> (abortRequested s = true -> abortRequested r = true) ->
  carriesOn s r.
Proof.
  intros (K & U & _) Hb. split; [apply keepsStores_movesOn; assumption|].
  exists []. rewrite U. symmetry. apply app_nil_r.
Qed.

Lemma done_carriesOn H s item status errorString :
  carriesOn s (fst (done H s item status errorString)).
Proof.
  apply completes_carriesOn; [apply done_completes|].
  intros Ha. rewrite done_abortRequested, Ha. reflexivity.
Qed.

Lemma abortWithError_carriesOn H s item status error :
  carriesOn s (fst (abortWithError H s item status error)).
Proof.
  apply completes_carriesOn; [apply abortWithError_completes|].
  intros Ha. unfold abortWithError. rewrite done_abortRequested.
  cbn [abortRequested emit set_trace]. rewrite Ha. reflexivity.
Qed.

Lemma attachFile_carriesOn H s item fileToUpload fileSize currentHeaders h :
  carriesOn s (attachFile H s item fileToUpload fileSize currentHeaders h).
Proof.
  destruct (attachFile_keeps H s item fileToUpload fileSize currentHeaders h)
    as [[K _] U].
  split; [|exists [fileToUpload]; exact U].
  apply keepsStores_movesOn; [exact K|].
  intros Ha. unfold attachFile. cbv zeta.
  cbn [checksumsJobs set_uploadFileParameters].
  destruct (checksumsJobs s); [|exact Ha].
  apply triggerUpload_abortRequested. exact Ha.
Qed.

Lemma doStartUpload_carriesOn H s item fileToUpload h :
  carriesOn s (doStartUpload H s item fileToUpload h).
Proof.
  unfold doStartUpload. destruct (abortRequested s); [apply carriesOn_refl|].
  cbv zeta.
  match goal with
  | |- context [commit ?tag (setUploadInfo ?f ?i s)] =>
      assert (Hw : carriesOn s (commit tag (setUploadInfo f i s)))
        by (apply carriesOn_base; try reflexivity; left; reflexivity)
  end.
  destruct (_ && _).
  - destruct (QFile_rename _ _ _) as [files|].
    + eapply carriesOn_trans; [exact Hw|].
      eapply carriesOn_trans; [|apply attachFile_carriesOn].
      apply carriesOn_base; try reflexivity. left; reflexivity.
    + eapply carriesOn_trans; [exact Hw|].
      eapply carriesOn_trans; [|apply done_carriesOn].
      apply carriesOn_base; try reflexivity. left; reflexivity.
  - eapply carriesOn_trans; [exact Hw|]. apply attachFile_carriesOn.
Qed.

Lemma slotStartUpload_carriesOn H s item fileToUpload type checksum :
  carriesOn s (slotStartUpload H s item fileToUpload type checksum).
Proof.
  unfold slotStartUpload, slotOnErrorStartFolderUnlock. cbv zeta.
  destruct (negb _); [apply done_carriesOn|].
  case_bool_decide.
  - eapply carriesOn_trans; [|apply done_carriesOn].
    apply carriesOn_base; try reflexivity. right; reflexivity.
  - destruct (fileIsStillChanging H s _).
    + eapply carriesOn_trans; [|apply done_carriesOn].
      apply carriesOn_base; try reflexivity. right; reflexivity.
    + apply doStartUpload_carriesOn.
Qed.

Lemma startComputeChecksum_carriesOn s tracked cc type path :
  carriesOn s (startComputeChecksum s tracked cc type path).
Proof.
  unfold startComputeChecksum.
  destruct tracked; apply carriesOn_base; try reflexivity; left; reflexivity.
Qed.

Lemma slotComputeTransmissionChecksum_carriesOn H s item fileToUpload
    type checksum :
  carriesOn s
    (slotComputeTransmissionChecksum H s item fileToUpload type checksum).
Proof.
  unfold slotComputeTransmissionChecksum. case_bool_decide.
  - apply slotStartUpload_carriesOn.
  - apply startComputeChecksum_carriesOn.
Qed.

Lemma slotComputeContentChecksum_carriesOn H s item fileToUpload :
  carriesOn s (slotComputeContentChecksum H s item fileToUpload).
Proof.
  unfold slotComputeContentChecksum.
  destruct (abortRequested s); [apply carriesOn_refl|].
  destruct (parseChecksumHeader H _) as [existingType existing].
  case_bool_decide.
  - apply slotComputeTransmissionChecksum_carriesOn.
  - apply startComputeChecksum_carriesOn.
Qed.

Lemma startUploadFile_carriesOn H s item fileToUpload :
  carriesOn s (startUploadFile H s item fileToUpload).
Proof.
  unfold startUploadFile. destruct (abortRequested s); [apply carriesOn_refl|].
  destruct (hasCaseClashAccessibilityProblem H _); [apply done_carriesOn|].
  destruct (_ >? _).
  - eapply carriesOn_trans; [|apply done_carriesOn].
    apply carriesOn_base; try reflexivity. left; reflexivity.
  - apply slotComputeContentChecksum_carriesOn.
Qed.

Lemma scheduleItems_carriesOn H n : forall s,
  carriesOn s (scheduleItems H n s).
Proof.
  induction n as [|n IH]; intros s; [apply carriesOn_refl|].
  cbn [scheduleItems]. destruct (items s) as [|currentItem rest] eqn:Hi;
    [apply carriesOn_refl|].
  eapply carriesOn_trans; [|apply IH].
  eapply carriesOn_trans; [|apply startUploadFile_carriesOn].
  split; [|exists []; symmetry; apply app_nil_r].
  constructor; [tauto| |tauto].
  exists 1%nat. rewrite Hi. reflexivity.
Qed.

Lemma scheduleSelfOrChild_carriesOn H s :
  carriesOn s (snd (scheduleSelfOrChild H s)).
Proof.
  unfold scheduleSelfOrChild. destruct (items s); [apply carriesOn_refl|].
  cbv zeta. eapply carriesOn_trans; [|apply scheduleItems_carriesOn].
  apply carriesOn_base; try reflexivity. left; reflexivity.
Qed.

Lemma startPollJob_carriesOn H s item fileToUpload path :
  carriesOn s (startPollJob H s item fileToUpload path).
Proof.
  unfold startPollJob. cbv zeta.
  match goal with
  | |- context [match items ?s1 with _ => _ end] =>
      assert (H1 : carriesOn s s1)
        by (apply carriesOn_base; try reflexivity; left; reflexivity);
      destruct (items s1) eqn:Hi; [exact H1|];
      eapply carriesOn_trans; [exact H1|apply scheduleSelfOrChild_carriesOn]
  end.
Qed.

Lemma decrementQuota_carriesOn oneFile s :
  carriesOn s (decrementQuota oneFile s).
Proof.
  unfold decrementQuota. destruct (folderQuota s !! _);
    [|apply carriesOn_refl].
  apply carriesOn_base; try reflexivity. left; reflexivity.
Qed.

Lemma adjustPinState_carriesOn H item s :
  carriesOn s (adjustPinState H item s).
Proof.
  unfold adjustPinState. destruct (_ || _); [|apply carriesOn_refl].
  destruct (pins s !! _) as [[]|]; try apply carriesOn_refl.
  destruct (setPinStateOk H _); apply carriesOn_base; try reflexivity;
    left; reflexivity.
Qed.

Lemma finalizeFile_carriesOn H oneFile s :
  carriesOn s (finalizeFile H oneFile s).1.1
  /\ _fileToUpload (finalizeFile H oneFile s).1.2 = _fileToUpload oneFile.
Proof.
  unfold finalizeFile. cbv zeta.
  assert (H0 : carriesOn s (emit (EvUpdateMetadata (_item oneFile))
                              (decrementQuota oneFile s))).
  { eapply carriesOn_trans; [apply decrementQuota_carriesOn|].
    apply carriesOn_base; try reflexivity. left; reflexivity. }
  destruct (updateMetadata H (_item oneFile)) as [error|[]];
    match goal with
    | |- context [done ?h ?s0 ?i ?st ?e] =>
        pose proof (done_carriesOn h s0 i st e) as Hd;
        destruct (done h s0 i st e) as [s1 item1]
    end; cbn [fst snd] in *;
    (split; [|reflexivity]);
    first
      [ solve [eapply carriesOn_trans; eassumption]
      | (eapply carriesOn_trans; [exact H0|]);
        (eapply carriesOn_trans; [|exact Hd]);
        (eapply carriesOn_trans; [apply adjustPinState_carriesOn|]);
        apply carriesOn_base; try reflexivity; left; reflexivity ].
Qed.

Lemma finalizeFiles_carriesOn H : forall todo passed s,
  movesOn s (finalizeFiles H passed todo s).1
  /\ map _fileToUpload (uploadFileParameters (finalizeFiles H passed todo s).1)
     = match todo with
       | [] => map _fileToUpload (uploadFileParameters s)
       | _ :: _ => map _fileToUpload (passed ++ todo)
       end.
Proof.
  induction todo as [|oneFile rest IH]; intros passed s.
  - split; [apply movesOn_refl|reflexivity].
  - cbn [finalizeFiles].
    destruct (finalizeFile_carriesOn H oneFile s) as [[M _] F].
    destruct (finalizeFile H oneFile s) as [[s1 oneFile1] goOn].
    cbn [fst snd] in *.
    assert (M1 : movesOn s (storeEntry passed oneFile1 rest s1)).
    { eapply movesOn_trans; [exact M|].
      apply movesOn_base; try reflexivity. left; reflexivity. }
    destruct goOn.
    + destruct (IH (passed ++ [oneFile1])
                  (storeEntry passed oneFile1 rest s1)) as [M2 U2].
      split; [eapply movesOn_trans; eassumption|].
      rewrite U2. destruct rest.
      * cbn [uploadFileParameters storeEntry set_uploadFileParameters].
        rewrite !map_app. cbn [map]. rewrite F. reflexivity.
      * rewrite <- app_assoc, !map_app. cbn [map app]. rewrite F.
        reflexivity.
    + cbn [fst]. split; [exact M1|].
      cbn [uploadFileParameters storeEntry set_uploadFileParameters].
      rewrite !map_app. cbn [map]. rewrite F. reflexivity.
Qed.

Lemma finalize_carriesOn H s : carriesOn s (finalize H s).
Proof.
  unfold finalize.
  destruct (finalizeFiles_carriesOn H (uploadFileParameters s) [] s)
    as [M U].
  destruct (finalizeFiles H [] (uploadFileParameters s) s) as [s1 finished].
  cbn [fst] in *.
  assert (C1 : carriesOn s s1).
  { split; [exact M|]. exists []. rewrite U, app_nil_r.
    destruct (uploadFileParameters s); reflexivity. }
  destruct finished; [|exact C1]. cbn [negb].
  destruct (items s1) eqn:Hi.
  - destruct (jobs s1), (checksumsJobs s1); try exact C1.
    eapply carriesOn_trans; [exact C1|].
    apply carriesOn_base; try reflexivity. left; reflexivity.
  - eapply carriesOn_trans; [exact C1|apply scheduleSelfOrChild_carriesOn].
Qed.

Lemma checkResettingErrors_carriesOn H s item :
  carriesOn s (checkResettingErrors H s item).
Proof.
  unfold checkResettingErrors. destruct (isResettingError H _);
    [|apply carriesOn_refl].
  apply carriesOn_base; try reflexivity. left; reflexivity.
Qed.

Lemma commonErrorHandling_carriesOn H s item fileToUpload reply :
  carriesOn s (fst (commonErrorHandling H s item fileToUpload reply)).
Proof.
  unfold commonErrorHandling. cbv zeta.
  set (s0 := if bool_decide (SyncFileItem._httpErrorCode item = 412)
             then set_anotherSyncNeeded true
                    (emit (EvSchedulePathForRemoteDiscovery
                             (SyncFileItem._file item)) s)
             else s).
  assert (C0 : carriesOn s s0).
  { subst s0. case_bool_decide; [|apply carriesOn_refl].
    apply carriesOn_base; try reflexivity. right; reflexivity. }
  pose proof (checkResettingErrors_carriesOn H s0 item) as C1.
  set (s1 := checkResettingErrors H s0 item) in *.
  destruct (classifyError H (networkError reply)
              (SyncFileItem._httpErrorCode item) (replyContent reply))
    as [status anotherSync].
  set (s2 := if anotherSync then set_anotherSyncNeeded true s1 else s1).
  assert (C2 : carriesOn s1 s2).
  { subst s2. destruct anotherSync; [|apply carriesOn_refl].
    apply carriesOn_base; try reflexivity. right; reflexivity. }
  case_bool_decide.
  - eapply carriesOn_trans; [exact C0|].
    eapply carriesOn_trans; [exact C1|].
    eapply carriesOn_trans; [exact C2|].
    eapply carriesOn_trans; [|apply abortWithError_carriesOn].
    destruct (folderQuota s2 !! _); apply carriesOn_base; try reflexivity;
      left; reflexivity.
  - eapply carriesOn_trans; [exact C0|].
    eapply carriesOn_trans; [exact C1|].
    eapply carriesOn_trans; [exact C2|]. apply abortWithError_carriesOn.
Qed.

Lemma computeFileId_carriesOn s item fileReply :
  carriesOn s (fst (computeFileId s item fileReply)).
Proof.
  unfold computeFileId. destruct (negb _); [|apply carriesOn_refl].
  destruct (_ && _); [|apply carriesOn_refl].
  apply carriesOn_base; try reflexivity. left; reflexivity.
Qed.

Lemma checkFileStillExists_carriesOn H s item finished path :
  carriesOn s (checkFileStillExists H s item finished path).1.2.
Proof.
  unfold checkFileStillExists. destruct (negb (fileExists _ _));
    [|apply carriesOn_refl].
  destruct (negb finished).
  - pose proof (abortWithError_carriesOn H s item SoftError
                  "The local file was removed during sync.") as Ha.
    destruct (abortWithError H s item SoftError _) as [s1 item1]. exact Ha.
  - apply carriesOn_base; try reflexivity. right; reflexivity.
Qed.

Lemma checkFileChanged_carriesOn H s item finished path :
  carriesOn s (checkFileChanged H s item finished path).1.2.
Proof.
  unfold checkFileChanged. destruct (negb (verifyFileUnchanged _ _ _ _));
    [|apply carriesOn_refl].
  cbv zeta.
  assert (C0 : carriesOn s (set_anotherSyncNeeded true s))
    by (apply carriesOn_base; try reflexivity; right; reflexivity).
  destruct (negb finished); [|exact C0].
  pose proof (abortWithError_carriesOn H (set_anotherSyncNeeded true s) item
                SoftError "Local file changed during sync.") as Ha.
  destruct (abortWithError H _ item SoftError _) as [s1 item1].
  eapply carriesOn_trans; eassumption.
Qed.

Lemma storeEntry_movesOn s s1 passed oneFile rest :
  movesOn s s1 -> movesOn s (storeEntry passed oneFile rest s1).
Proof.
  intros M. eapply movesOn_trans; [exact M|].
  apply movesOn_base; try reflexivity. left; reflexivity.
Qed.

Lemma carriesOn_movesOn s r : carriesOn s r -> movesOn s r.
Proof. intros [M _]. exact M. Qed.

Lemma putFinishedFiles_carriesOn H job reply : forall todo body passed s,
  movesOn s (putFinishedFiles H job reply body passed todo s).1
  /\ exists l,
       map _fileToUpload
         (uploadFileParameters
            (putFinishedFiles H job reply body passed todo s).1)
       = match todo with
         | [] => map _fileToUpload (uploadFileParameters s)
         | _ :: _ => map _fileToUpload (passed ++ todo)
         end ++ l.
Proof.
  induction todo as [|oneFile rest IH]; intros body passed s.
  - split; [apply movesOn_refl|]. exists []. symmetry. apply app_nil_r.
  - cbn [putFinishedFiles]. cbv zeta.
    fold (respondedItem reply (_item oneFile)).
    set (s0 := slotJobDestroyed job s).
    assert (M0 : movesOn s s0)
      by (apply movesOn_base; try reflexivity; left; reflexivity).
    assert (Hstore : forall s1 item1,
              movesOn s0 s1 ->
              movesOn s (storeEntry passed (with_item item1 oneFile) rest s1)
              /\ exists l,
                   map _fileToUpload
                     (uploadFileParameters
                        (storeEntry passed (with_item item1 oneFile) rest s1))
                   = map _fileToUpload (passed ++ oneFile :: rest) ++ l).
    { intros s1 item1 M1. split.
      - apply storeEntry_movesOn. eapply movesOn_trans; eassumption.
      - exists []. rewrite app_nil_r. cbn. rewrite !map_app. reflexivity. }
    case_bool_decide.
    { pose proof (commonErrorHandling_carriesOn H s0
                    (respondedItem reply (_item oneFile))
                    (_fileToUpload oneFile) reply) as [Mc _].
      destruct (commonErrorHandling H s0 _ _ reply) as [s1 item1].
      cbn [fst]. apply Hstore. exact Mc. }
    case_bool_decide.
    { destruct (isEmpty _).
      - pose proof (done_carriesOn H s0 (respondedItem reply (_item oneFile))
                      NormalError "Poll URL missing") as [Md _].
        destruct (done H s0 _ NormalError _) as [s1 item1].
        cbn [fst]. apply Hstore. exact Md.
      - cbn [fst].
        match goal with
        | |- context [startPollJob H ?sp ?i ?f ?p] =>
            destruct (startPollJob_carriesOn H sp i f p) as [Mp [l Ep]];
            destruct (Hstore s0 (respondedItem reply (_item oneFile))
                        (movesOn_refl s0)) as [Ms [l0 Es]]
        end.
        split; [eapply movesOn_trans; eassumption|].
        exists (l0 ++ l). rewrite Ep, Es, app_assoc. reflexivity. }
    pose proof (checkFileStillExists_carriesOn H s0
                  (respondedItem reply (_item oneFile))
                  (negb (isEmpty
                           (getEtagFromJsonReply H
                              (findFileReply body
                                 (SyncFileItem._file
                                    (respondedItem reply (_item oneFile)))))))
                  (fullLocalPath H
                     (SyncFileItem._file
                        (respondedItem reply (_item oneFile))))) as [Me _].
    destruct (checkFileStillExists H s0 _ _ _) as [[ok1 s1] item1].
    cbn [fst snd] in Me.
    destruct ok1; cbn [negb]; [|apply Hstore; exact Me].
    match goal with
    | |- context [checkFileChanged H s1 item1 ?fin ?p] =>
        pose proof (checkFileChanged_carriesOn H s1 item1 fin p) as [Mc _];
        destruct (checkFileChanged H s1 item1 fin p) as [[ok2 s2] item2]
    end.
    cbn [fst snd] in Mc.
    assert (M2 : movesOn s0 s2) by (eapply movesOn_trans; eassumption).
    destruct ok2; cbn [negb]; [|apply Hstore; exact M2].
    match goal with
    | |- context [computeFileId s2 item2 ?fr] =>
        pose proof (computeFileId_carriesOn s2 item2 fr) as [Mf _];
        destruct (computeFileId s2 item2 fr) as [s3 item3]
    end.
    cbn [fst] in Mf.
    assert (M3 : movesOn s0 s3) by (eapply movesOn_trans; eassumption).
    match goal with
    | |- context [storeEntry passed (with_item ?i4 oneFile) rest s3] =>
        destruct (Hstore s3 i4 M3) as [Ms [l0 Es]];
        destruct (IH [] (passed ++ [with_item i4 oneFile])
                    (storeEntry passed (with_item i4 oneFile) rest s3))
          as [Mi [l Ei]]
    end.
    split; [eapply movesOn_trans; eassumption|].
    destruct rest.
    + exists l. rewrite Ei.
      cbn [uploadFileParameters storeEntry set_uploadFileParameters].
      rewrite !map_app. reflexivity.
    + exists l. rewrite Ei, <- app_assoc, !map_app. reflexivity.
Qed.

Lemma slotPutFinished_carriesOn H s job reply :
  carriesOn s (slotPutFinished H s job reply).
Proof.
  unfold slotPutFinished.
  destruct (putFinishedFiles_carriesOn H job reply (uploadFileParameters s)
              (replyArray reply) [] s) as [M [l U]].
  destruct (putFinishedFiles H job reply (replyArray reply) []
              (uploadFileParameters s) s) as [s1 finished].
  cbn [fst] in *.
  assert (C1 : carriesOn s s1).
  { split; [exact M|]. exists l. rewrite U.
    destruct (uploadFileParameters s); reflexivity. }
  destruct finished; [|exact C1].
  eapply carriesOn_trans; [exact C1|apply finalize_carriesOn].
Qed.

Lemma handle_carriesOn H s signal : carriesOn s (handle H s signal).
Proof.
  destruct signal as [|job reply|job type checksum|job|job]; cbn [handle].
  - apply scheduleSelfOrChild_carriesOn.
  - apply slotPutFinished_carriesOn.
  - unfold computeChecksum_done.
    destruct (computeChecksums s !! job) as [cc|]; [|apply carriesOn_refl].
    destruct (cc_stage cc).
    + apply slotComputeTransmissionChecksum_carriesOn.
    + apply slotStartUpload_carriesOn.
  - apply carriesOn_base; try reflexivity. left; reflexivity.
  - apply carriesOn_base; try reflexivity. left; reflexivity.
Qed.

(** X21. Over any sequence of signals the job answers, the batch only
    grows: the files that are in [_uploadFileParameters] stay there, at
    their places, and files are appended behind them, so no slot takes an
    entry out of the batch.  [_items] only loses items at its front, and
    neither a request for another sync nor an abort request is ever
    withdrawn: the job raises the abort request itself, through
    [propagator()->abort()], when an item ends as [FatalError], and nothing
    in it lowers the flag again. *)
Theorem run_batch_only_grows (H : Host) (signals : list Signal) (s : State) :
  let r := run H s signals in
  (exists l,
     map _fileToUpload (uploadFileParameters r)
     = map _fileToUpload (uploadFileParameters s) ++ l)
  /\ (exists n, items r = drop n (items s))
  /\ (anotherSyncNeeded s = true -> anotherSyncNeeded r = true)
  /\ (abortRequested s = true -> abortRequested r = true).
Proof.
  cbv zeta.
  assert (C : carriesOn s (run H s signals)).
  { unfold run. revert s. induction signals as [|signal signals IH];
      intros s; [apply carriesOn_refl|].
    cbn [foldl]. eapply carriesOn_trans; [apply handle_carriesOn|apply IH]. }
  destruct C as [[A I B] E].
  split; [exact E|]. split; [exact I|]. split; [exact A|exact B].
Qed.

(** ** The batch is finalized each time *)

Lemma succeeded_twice item : succeeded (succeeded item) = succeeded item.
Proof. reflexivity. Qed.

Lemma finalize_succeeds H s :
  Forall (λ p, metadataFailure H p = None) (uploadFileParameters s) ->
  items s = [] ->
  completedItems (trace (finalize H s))
  = completedItems (trace s)
    ++ map (λ p, succeeded (_item p)) (uploadFileParameters s)
  /\ uploadFileParameters (finalize H s)
     = map finalized (uploadFileParameters s)
  /\ items (finalize H s) = []
  /\ jobs (finalize H s) = jobs s
  /\ checksumsJobs (finalize H s) = checksumsJobs s.
Proof.
  intros Hok Hi.
  destruct (finalizeFiles_succeed H (uploadFileParameters s) [] s Hok)
    as (r1 & E & _ & C & _ & I & J & K & P).
  assert (P1 : uploadFileParameters r1 = map finalized (uploadFileParameters s))
    by (rewrite P; destruct (uploadFileParameters s); reflexivity).
  assert (Hcases : finalize H s = r1
                   \/ finalize H s
                      = emit EvScheduleNextJob
                          (emit (EvFinished (finalStatus r1)) r1)).
  { unfold finalize. rewrite E. cbn [negb]. rewrite I, Hi.
    destruct (jobs r1), (checksumsJobs r1); tauto. }
  destruct Hcases as [-> | ->];
    cbn [trace emit set_trace uploadFileParameters items jobs checksumsJobs];
    rewrite ?completedItems_app, ?app_nil_r;
    (split; [exact C|]); (split; [exact P1|]);
    (split; [rewrite I; exact Hi|]); (split; [exact J|exact K]).
Qed.

(** X22. [finalize] does not take the finalized files out of the batch.
    When the metadata update succeeds for every file and no items are left,
    a second run of [finalize] goes through the same files again: every
    file of the batch is announced as completed a second time, in the same
    order and with the same outcome, and the batch holds the same files
    after the second run as after the first. *)
Theorem finalize_again_completes_again (H : Host) (s : State) :
  (forall p, metadataFailure H p = None) ->
  items s = [] ->
  let once := finalize H s in
  let twice := finalize H once in
  let announced := map (λ p, succeeded (_item p)) (uploadFileParameters s) in
  completedItems (trace once) = completedItems (trace s) ++ announced
  /\ completedItems (trace twice)
     = completedItems (trace s) ++ announced ++ announced
  /\ uploadFileParameters once = map finalized (uploadFileParameters s)
  /\ uploadFileParameters twice = uploadFileParameters once.
Proof.
  intros Hok Hi once twice announced.
  assert (Hall : forall l, Forall (λ p, metadataFailure H p = None) l)
    by (intros l; apply Forall_forall; intros p _; apply Hok).
  destruct (finalize_succeeds H s (Hall _) Hi) as (C1 & U1 & I1 & _).
  destruct (finalize_succeeds H once (Hall _) I1) as (C2 & U2 & _).
  fold once in C1, U1. fold twice in C2, U2.
  assert (Hm : map (λ p, succeeded (_item p)) (map finalized
                                                 (uploadFileParameters s))
               = announced).
  { subst announced. rewrite map_map. reflexivity. }
  assert (Hf : map finalized (map finalized (uploadFileParameters s))
               = map finalized (uploadFileParameters s)).
  { rewrite map_map. reflexivity. }
  split; [exact C1|].
  split; [rewrite C2, C1, U1, Hm, <- app_assoc; reflexivity|].
  split; [exact U1|]. rewrite U2, U1. exact Hf.
Qed.

Lemma finalize_again_completes_again_witness :
  completedStatuses
    (trace (finalize exampleHost (finalize exampleHost threeFilesState)))
  = [Success; Success; Success; Success; Success; Success].
Proof.
  destruct (finalize_again_completes_again exampleHost threeFilesState)
    as (_ & C & _).
  - reflexivity.
  - reflexivity.
  - vm_compute. reflexivity.
Defined.

(** * The profile page *)

Lemma displayHovercardActions_rows hovercardActions : forall w,
  ProfilePageWidget._mainLayout
    (ProfilePageWidget.displayHovercardActions hovercardActions w)
  = ProfilePageWidget._mainLayout w
    ++ imap (λ i a,
             ProfilePageWidget.Row
               (length (ProfilePageWidget._profilePageButtonIcons w) + i)
               (ProfilePageWidget._title a) (ProfilePageWidget._link a))
         hovercardActions
  /\ ProfilePageWidget._profilePageButtonIcons
       (ProfilePageWidget.displayHovercardActions hovercardActions w)
     = ProfilePageWidget._profilePageButtonIcons w
       ++ map ProfilePageWidget._icon hovercardActions.
Proof.
  induction hovercardActions as [|a rest IH]; intros w.
  - cbn. rewrite !app_nil_r. split; reflexivity.
  - cbn [ProfilePageWidget.displayHovercardActions]. cbv zeta.
    destruct (IH (ProfilePageWidget.mk
                    (ProfilePageWidget._mainLayout w
                     ++ [ProfilePageWidget.Row
                           (length (ProfilePageWidget._profilePageButtonIcons w))
                           (ProfilePageWidget._title a)
                           (ProfilePageWidget._link a)])
                    (ProfilePageWidget._profilePageButtonIcons w
                     ++ [ProfilePageWidget._icon a]))) as [Hl Hi].
    rewrite Hl, Hi.
    cbn [ProfilePageWidget._mainLayout
         ProfilePageWidget._profilePageButtonIcons].
    rewrite <- !app_assoc. cbn [app map]. rewrite imap_cons.
    rewrite Nat.add_0_r. split; [|reflexivity].
    do 2 f_equal. apply imap_ext. intros i x _. cbn.
    rewrite length_app. cbn. f_equal. lia.
Qed.

Lemma recreateLayout_shape hovercard w :
  ProfilePageWidget._profilePageButtonIcons
    (ProfilePageWidget.recreateLayout hovercard w)
  = map ProfilePageWidget._icon hovercard
  /\ ProfilePageWidget._mainLayout
       (ProfilePageWidget.recreateLayout hovercard w)
     = match hovercard with
       | [] => [ProfilePageWidget.Label "No profile actions available!"]
       | _ :: _ =>
           imap (λ i a,
                 ProfilePageWidget.Row i (ProfilePageWidget._title a)
                   (ProfilePageWidget._link a)) hovercard
       end.
Proof.
  unfold ProfilePageWidget.recreateLayout, ProfilePageWidget.createLayout,
    ProfilePageWidget.resetLayout.
  destruct hovercard as [|a0 rest] eqn:Hh; [split; reflexivity|].
  rewrite <- Hh.
  destruct (displayHovercardActions_rows hovercard
              (ProfilePageWidget.mk [] [])) as [Hl Hi].
  split; [exact Hi|exact Hl].
Qed.

(** X23. Whatever the widget showed before, after [recreateLayout] (so
    after every [onHovercardFetched]) the layout holds one row per action
    of the hovercard, in the order of the actions, the row of the i-th
    action with the title and the link of that action and with the i-th
    label of [_profilePageButtonIcons], which shows the icon of that action;
    the vector has as many labels as there are actions.  With no action the
    layout holds the one label "No profile actions available!" and the
    vector is empty. *)
Theorem recreateLayout_one_row_per_action
    (hovercard : list ProfilePageWidget.HovercardAction)
    (w : ProfilePageWidget.t) :
  let r := ProfilePageWidget.onHovercardFetched hovercard w in
  ProfilePageWidget._profilePageButtonIcons r
  = map ProfilePageWidget._icon hovercard
  /\ ProfilePageWidget._mainLayout r
     = match hovercard with
       | [] => [ProfilePageWidget.Label "No profile actions available!"]
       | _ :: _ =>
           imap (λ i a,
                 ProfilePageWidget.Row i (ProfilePageWidget._title a)
                   (ProfilePageWidget._link a)) hovercard
       end
  /\ forall i a,
       hovercard !! i = Some a ->
       ProfilePageWidget._mainLayout r !! i
       = Some (ProfilePageWidget.Row i (ProfilePageWidget._title a)
                 (ProfilePageWidget._link a))
       /\ ProfilePageWidget._profilePageButtonIcons r !! i
          = Some (ProfilePageWidget._icon a).
Proof.
  cbv zeta. unfold ProfilePageWidget.onHovercardFetched.
  destruct (recreateLayout_shape hovercard w) as [Hi Hl].
  split; [exact Hi|]. split; [exact Hl|].
  intros i a Hlook. rewrite Hl, Hi.
  destruct hovercard as [|a0 rest] eqn:Hh;
    [rewrite lookup_nil in Hlook; discriminate|].
  rewrite <- Hh in *. split.
  - rewrite list_lookup_imap, Hlook. reflexivity.
  - change (map ProfilePageWidget._icon hovercard)
      with (ProfilePageWidget._icon <$> hovercard).
    rewrite list_lookup_fmap, Hlook. reflexivity.
Qed.

(** X24. [onIconLoaded] with an index beyond [_profilePageButtonIcons]
    changes nothing.  With an index within it, the label at that index is
    set to the icon the hovercard now has for that action, and nothing else
    changes: the layout and the other labels are as before.  After a
    [recreateLayout], and as long as the hovercard has the number of actions
    it had then, [onIconLoaded] reads no action out of range, whatever the
    index; when the hovercard has fewer actions than the vector has labels,
    an index between the two is read out of range. *)
Theorem onIconLoaded_sets_one_icon
    (hovercard : list ProfilePageWidget.HovercardAction)
    (index : nat) (w : ProfilePageWidget.t) :
  ((length (ProfilePageWidget._profilePageButtonIcons w) <= index)%nat ->
   ProfilePageWidget.onIconLoaded hovercard index w = Some w)
  /\ (forall a,
        (index < length (ProfilePageWidget._profilePageButtonIcons w))%nat ->
        hovercard !! index = Some a ->
        exists r,
          ProfilePageWidget.onIconLoaded hovercard index w = Some r
          /\ ProfilePageWidget._mainLayout r = ProfilePageWidget._mainLayout w
          /\ ProfilePageWidget._profilePageButtonIcons r !! index
             = Some (ProfilePageWidget._icon a)
          /\ length (ProfilePageWidget._profilePageButtonIcons r)
             = length (ProfilePageWidget._profilePageButtonIcons w)
          /\ forall j, j <> index ->
               ProfilePageWidget._profilePageButtonIcons r !! j
               = ProfilePageWidget._profilePageButtonIcons w !! j)
  /\ (forall shown w0,
        w = ProfilePageWidget.recreateLayout shown w0 ->
        length hovercard = length shown ->
        is_Some (ProfilePageWidget.onIconLoaded hovercard index w))
  /\ ((length hovercard <= index
       < length (ProfilePageWidget._profilePageButtonIcons w))%nat ->
      ProfilePageWidget.onIconLoaded hovercard index w = None).
Proof.
  unfold ProfilePageWidget.onIconLoaded.
  split; [|split; [|split]].
  - intros Hle. rewrite bool_decide_eq_true_2 by exact Hle. reflexivity.
  - intros a Hlt Hlook. rewrite bool_decide_eq_false_2 by lia.
    rewrite Hlook. eexists. split; [reflexivity|].
    cbn [ProfilePageWidget._mainLayout
         ProfilePageWidget._profilePageButtonIcons].
    split; [reflexivity|]. split; [apply list_lookup_insert_eq; exact Hlt|].
    split; [apply length_insert|].
    intros j Hj. apply list_lookup_insert_ne. congruence.
  - intros shown w0 -> Hlen.
    destruct (recreateLayout_shape shown w0) as [Hi _].
    case_bool_decide as Hle; [eexists; reflexivity|].
    rewrite Hi, length_map, <- Hlen in Hle.
    destruct (lookup_lt_is_Some_2 hovercard index ltac:(lia)) as [a Ha].
    rewrite Ha. eexists. reflexivity.
  - intros [Hle Hlt]. rewrite bool_decide_eq_false_2 by lia.
    rewrite (lookup_ge_None_2 hovercard index Hle). reflexivity.
Qed.
